(** * Terrain pipeline: heightmap mosaic and terrain mesh

    Shallow embedding of [scripts/terrain/build_heightmap.py] and
    [scripts/terrain/build_terrain_mesh.py].

    Python [float] is IEEE 754 binary64 and is modelled with the standard
    library's [spec_float] at precision 53; NumPy [float32] is the same
    type at precision 24.  Python exceptions are values of [exn] in an
    error monad.  NumPy scalar arithmetic follows NumPy 2 (NEP 50): a
    [float32] scalar times a Python float stays [float32], and a Python
    integer that does not fit an [int32] array raises [OverflowError].
    The libm cosine is a parameter of the model.  Of trimesh the model
    keeps the two arrays a mesh is built from and the [IndexError] that
    a mesh without a face raises. *)

From Stdlib Require Import String ZArith List Bool Lia.
From Stdlib Require Import Floats.SpecFloat DecimalString.
From Stdlib Require Ascii DecimalNat DecimalFacts Sorting.Sorted.
From Stdlib Require Sorting.Permutation.
Import ListNotations.
Open Scope Z_scope.

(** ** Exceptions and the error monad *)

Inductive exn : Type :=
| ZeroDivisionError
| ValueError
| OverflowError
| IndexError
| TypeError
| SystemExit.

Inductive result (A : Type) : Type :=
| Ok (a : A)
| Raise (e : exn).
Arguments Ok {A} a.
Arguments Raise {A} e.

Definition bind {A B : Type} (m : result A) (k : A -> result B) : result B :=
  match m with
  | Ok a => k a
  | Raise e => Raise e
  end.

Notation "x <- m ;; k" := (bind m (fun x => k))
  (at level 61, m at next level, right associativity).
Notation "' p <- m ;; k" := (bind m (fun x => let p := x in k))
  (at level 61, p pattern, m at next level, right associativity).

(** ** Python floats and NumPy float32 *)

Module Py.

Definition float := spec_float.

Definition prec : Z := 53.
Definition emax : Z := 1024.
Definition prec32 : Z := 24.
Definition emax32 : Z := 128.

Definition nan : float := S754_nan.
Definition zero : float := S754_zero false.

Definition add : float -> float -> float := SFadd prec emax.
Definition sub : float -> float -> float := SFsub prec emax.
Definition mul : float -> float -> float := SFmul prec emax.
Definition ltb : float -> float -> bool := SFltb.
Definition gtb (x y : float) : bool := SFltb y x.
Definition leb : float -> float -> bool := SFleb.
Definition isnan (x : float) : bool :=
  match x with S754_nan => true | _ => false end.
Definition isinf (x : float) : bool :=
  match x with S754_infinity _ => true | _ => false end.
Definition iszero (x : float) : bool :=
  match x with S754_zero _ => true | _ => false end.

(** [x / y] on floats: a zero divisor raises, whatever the dividend. *)
Definition div (x y : float) : result float :=
  if iszero y then Raise ZeroDivisionError else Ok (SFdiv prec emax x y).

(** An integer as the (unrounded) pair mantissa, exponent 0. *)
Definition exact_int (z : Z) : float :=
  match z with
  | Z0 => S754_zero false
  | Zpos p => S754_finite false p 0
  | Zneg p => S754_finite true p 0
  end.

(** [float(z)]: round to nearest even; too large an integer raises. *)
Definition float_of_int (z : Z) : result float :=
  let f := binary_normalize prec emax z 0 false in
  if isinf f then Raise OverflowError else Ok f.

(** [a / b] on integers: the correctly rounded quotient. *)
Definition int_truediv (a b : Z) : result float :=
  if b =? 0 then Raise ZeroDivisionError
  else
    let q := SFdiv prec emax (exact_int a) (exact_int b) in
    if isinf q then Raise OverflowError else Ok q.

(** [int * float] and [float * int]. *)
Definition int_mul (z : Z) (x : float) : result float :=
  f <- float_of_int z ;; Ok (mul f x).
Definition mul_int (x : float) (z : Z) : result float :=
  f <- float_of_int z ;; Ok (mul x f).

(** The integer [(-1)^s * m] of a finite float's mantissa. *)
Definition signed (s : bool) (m : positive) : Z :=
  if s then Zneg m else Zpos m.

(** [math.ceil]: NaN and the infinities raise. *)
Definition ceil (x : float) : result Z :=
  match x with
  | S754_nan => Raise ValueError
  | S754_infinity _ => Raise OverflowError
  | S754_zero _ => Ok 0
  | S754_finite s m e =>
      match e with
      | Zneg k => Ok (- ((- signed s m) / Z.pow_pos 2 k))
      | _ => Ok (signed s m * 2 ^ e)
      end
  end.

(** [round] with one argument: to the nearest integer, ties to even. *)
Definition round (x : float) : result Z :=
  match x with
  | S754_nan => Raise ValueError
  | S754_infinity _ => Raise OverflowError
  | S754_zero _ => Ok 0
  | S754_finite s m e =>
      match e with
      | Zneg k =>
          let d := Z.pow_pos 2 k in
          let q := signed s m / d in
          let r := signed s m mod d in
          Ok match 2 * r ?= d with
             | Lt => q
             | Gt => q + 1
             | Eq => if Z.even q then q else q + 1
             end
      | _ => Ok (signed s m * 2 ^ e)
      end
  end.

(** Two-argument [max] and [min]: the first argument is kept unless the
    second compares strictly greater (smaller). *)
Definition max (a b : float) : float := if gtb b a then b else a.
Definition min (a b : float) : float := if ltb b a then b else a.

(** [max] and [min] over a generator: the first item, then every later
    item that compares strictly beyond the running one. *)
Definition max_list (l : list float) : result float :=
  match l with
  | [] => Raise ValueError
  | x :: t => Ok (fold_left max t x)
  end.
Definition min_list (l : list float) : result float :=
  match l with
  | [] => Raise ValueError
  | x :: t => Ok (fold_left min t x)
  end.

(** Integer-valued float constants such as [69.0]. *)
Definition const (z : Z) : float := binary_normalize prec emax z 0 false.

(** Decimal literals: the double nearest to [n / 10^k]. *)
Definition literal (n : Z) (k : Z) : float :=
  SFdiv prec emax (exact_int n) (exact_int (10 ^ k)).

(** [math.pi], and the factor [math.radians] multiplies by. *)
Definition pi : float := S754_finite false 7074237752028440 (-51).
Definition deg_to_rad : float := SFdiv prec emax pi (exact_int 180).
Definition radians (x : float) : float := mul x deg_to_rad.

(** [math.cos] over the libm cosine [cos]: an infinite argument raises. *)
Definition math_cos (cos : float -> float) (x : float) : result float :=
  if isinf x then Raise ValueError else Ok (cos x).

(** Rounding a double to float32, and float32 multiplication. *)
Definition to_float32 (x : float) : float :=
  match x with
  | S754_finite s m e => binary_round prec32 emax32 s m e
  | _ => x
  end.
Definition mul32 : float -> float -> float := SFmul prec32 emax32.

End Py.

(** ** NumPy two-dimensional float32 arrays *)

Module Np.

Record ndarray : Type := mk_ndarray {
  nrows : nat;
  ncols : nat;
  rows : list (list Py.float)
}.

(** The shape agrees with the stored rows. *)
Definition wf (a : ndarray) : Prop :=
  length (rows a) = nrows a /\
  Forall (fun r => length r = ncols a) (rows a).

(** [a[r, c]] for indices inside the array. *)
Definition get (a : ndarray) (r c : nat) : Py.float :=
  nth c (nth r (rows a) []) Py.nan.

(** [np.full((height, width), fill)]: a negative dimension raises. *)
Definition full (height width : Z) (fill : Py.float) : result ndarray :=
  if (height <? 0) || (width <? 0) then Raise ValueError
  else
    Ok (mk_ndarray (Z.to_nat height) (Z.to_nat width)
          (repeat (repeat fill (Z.to_nat width)) (Z.to_nat height))).

(** One bound of the slice [start:stop] on an axis of length [n]: a
    negative bound counts from the end, and both are clipped to the
    axis. *)
Definition slice_bound (n : nat) (i : Z) : Z :=
  if i <? 0 then Z.max (i + Z.of_nat n) 0 else Z.min i (Z.of_nat n).

(** First index and length of the slice [start:stop]. *)
Definition slice_range (n : nat) (start stop : Z) : nat * nat :=
  (Z.to_nat (slice_bound n start),
   Z.to_nat (slice_bound n stop - slice_bound n start)).

Definition slice_list {A : Type} (l : list A) (first len : nat) : list A :=
  firstn len (skipn first l).

(** [a[rs:re, cs:ce]] *)
Definition slice2 (a : ndarray) (rs re cs ce : Z) : ndarray :=
  let '(r0, rl) := slice_range (nrows a) rs re in
  let '(c0, cl) := slice_range (ncols a) cs ce in
  mk_ndarray rl cl
    (map (fun row => slice_list row c0 cl) (slice_list (rows a) r0 rl)).

Fixpoint imap_from {A B : Type} (f : nat -> A -> B) (i : nat) (l : list A)
  : list B :=
  match l with
  | [] => []
  | x :: t => f i x :: imap_from f (S i) t
  end.
Definition imap {A B : Type} (f : nat -> A -> B) (l : list A) : list B :=
  imap_from f 0 l.

(** Broadcasting an axis of length [s] onto one of length [d]. *)
Definition broadcastable (s d : nat) : bool :=
  Nat.eqb s d || Nat.eqb s 1.
Definition bindex (s k : nat) : nat :=
  if Nat.eqb s 1 then 0%nat else k.

Definition in_span (first len i : nat) : bool :=
  Nat.leb first i && Nat.ltb i (first + len).

(** [dst[rs:re, cs:ce] = src]: the source is broadcast to the shape of
    the selected window, or the assignment raises. *)
Definition setitem_slice2 (dst : ndarray) (rs re cs ce : Z) (src : ndarray)
  : result ndarray :=
  let '(r0, rl) := slice_range (nrows dst) rs re in
  let '(c0, cl) := slice_range (ncols dst) cs ce in
  if broadcastable (nrows src) rl && broadcastable (ncols src) cl then
    Ok (mk_ndarray (nrows dst) (ncols dst)
          (imap (fun i row =>
                   if in_span r0 rl i then
                     imap (fun j v =>
                             if in_span c0 cl j then
                               get src (bindex (nrows src) (i - r0))
                                       (bindex (ncols src) (j - c0))
                             else v) row
                   else row)
                (rows dst)))
  else Raise ValueError.

(** [l[::d]] for [d >= 1]: every [d]-th item, starting with the first. *)
Fixpoint every_from {A : Type} (d k : nat) (l : list A) : list A :=
  match l with
  | [] => []
  | x :: t =>
      match k with
      | O => x :: every_from d (d - 1) t
      | S k' => every_from d k' t
      end
  end.
Definition every {A : Type} (d : nat) (l : list A) : list A :=
  every_from d 0 l.

(** [a[::d, ::d]] *)
Definition stride2 (a : ndarray) (d : nat) : ndarray :=
  let rs := map (every d) (every d (rows a)) in
  mk_ndarray (length rs) (length (every d (repeat tt (ncols a)))) rs.

End Np.

(** ** Monadic iteration *)

Fixpoint mapM {A B : Type} (f : A -> result B) (l : list A)
  : result (list B) :=
  match l with
  | [] => Ok []
  | x :: t => y <- f x ;; ys <- mapM f t ;; Ok (y :: ys)
  end.

Fixpoint foldM {A S : Type} (f : S -> A -> result S) (l : list A) (s : S)
  : result S :=
  match l with
  | [] => Ok s
  | x :: t => s' <- f s x ;; foldM f t s'
  end.

(** ** build_heightmap.py *)

Module Heightmap.

Import Py.

Record Tile : Type := mk_Tile {
  path : string;
  data : Np.ndarray;
  origin_lon : float;
  origin_lat : float;
  scale_lon : float;
  scale_lat : float
}.

Definition box : Type := (float * float * float * float)%type.

(** [Tile.bounds] of a loaded tile. *)
Definition bounds (t : Tile) : result box :=
  let height := Z.of_nat (Np.nrows (data t)) in
  let width := Z.of_nat (Np.ncols (data t)) in
  let min_lon := origin_lon t in
  w <- int_mul width (scale_lon t) ;;
  let max_lon := add (origin_lon t) w in
  let max_lat := origin_lat t in
  h <- int_mul height (scale_lat t) ;;
  let min_lat := sub (origin_lat t) h in
  Ok (min_lon, min_lat, max_lon, max_lat).

(** [compute_union_bounds]: the four generators call [bounds] on every
    tile in list order; a failing call raises the same exception in the
    first pass already. *)
Definition compute_union_bounds (tiles : list Tile) : result box :=
  bs <- mapM bounds tiles ;;
  min_lon <- min_list (map (fun '(a, _, _, _) => a) bs) ;;
  min_lat <- min_list (map (fun '(_, b, _, _) => b) bs) ;;
  max_lon <- max_list (map (fun '(_, _, c, _) => c) bs) ;;
  max_lat <- max_list (map (fun '(_, _, _, d) => d) bs) ;;
  Ok (min_lon, min_lat, max_lon, max_lat).

Definition c69 : float := const 69.

Section WithCos.

(** The libm cosine on finite and NaN arguments. *)
Variable cos : float -> float.

(** The half extents [dlat] and [dlon] of the clip window, in degrees. *)
Definition clip_dlat (radius_miles : float) : result float :=
  div radius_miles c69.
Definition clip_dlon (center_lat radius_miles : float) : result float :=
  c <- math_cos cos (radians center_lat) ;;
  div radius_miles (mul c69 c).

Definition clamp_bounds (b : box) (center_lat center_lon radius_miles : float)
  : result box :=
  let '(b0, b1, b2, b3) := b in
  dlat <- clip_dlat radius_miles ;;
  dlon <- clip_dlon center_lat radius_miles ;;
  let min_lon := max b0 (sub center_lon dlon) in
  let max_lon := min b2 (add center_lon dlon) in
  let min_lat := max b1 (sub center_lat dlat) in
  let max_lat := min b3 (add center_lat dlat) in
  Ok (min_lon, min_lat, max_lon, max_lat).

End WithCos.

(** The window of one tile in the target grid: destination rows and
    columns [row_start:row_end], [col_start:col_end] and source rows and
    columns [src_row_start:src_row_end], [src_col_start:src_col_end]. *)
Record window : Type := mk_window {
  row_start : Z; row_end : Z; col_start : Z; col_end : Z;
  src_row_start : Z; src_row_end : Z; src_col_start : Z; src_col_end : Z
}.

(** The window for a tile of shape [(tile_height, tile_width)] whose
    top-left sample falls on [(origin_row, origin_col)] of a grid of
    shape [(height, width)]. *)
Definition make_window (height width tile_height tile_width : Z)
    (origin_row origin_col : Z) : window :=
  let row_start := Z.max 0 origin_row in
  let col_start := Z.max 0 origin_col in
  let row_end := Z.min height (origin_row + tile_height) in
  let col_end := Z.min width (origin_col + tile_width) in
  let src_row_start := Z.max 0 (- origin_row) in
  let src_col_start := Z.max 0 (- origin_col) in
  let src_row_end := src_row_start + (row_end - row_start) in
  let src_col_end := src_col_start + (col_end - col_start) in
  mk_window row_start row_end col_start col_end
    src_row_start src_row_end src_col_start src_col_end.

(** The loop body up to the offsets [(origin_row, origin_col)]: [None]
    when the tile is skipped. *)
Definition tile_origin (scale_lon0 scale_lat0 : float) (clip : box)
    (tile : Tile) : result (option (Z * Z)) :=
  let '(min_lon, min_lat, max_lon, max_lat) := clip in
  '(tile_min_lon, tile_min_lat, tile_max_lon, tile_max_lat) <- bounds tile ;;
  if ltb tile_max_lon min_lon || gtb tile_min_lon max_lon then Ok None
  else if ltb tile_max_lat min_lat || gtb tile_min_lat max_lat then Ok None
  else
    qc <- div (sub (origin_lon tile) min_lon) scale_lon0 ;;
    origin_col <- round qc ;;
    qr <- div (sub max_lat (origin_lat tile)) scale_lat0 ;;
    origin_row <- round qr ;;
    Ok (Some (origin_row, origin_col)).

(** The loop body up to the assignment. *)
Definition tile_window (scale_lon0 scale_lat0 : float) (clip : box)
    (height width : Z) (tile : Tile) : result (option window) :=
  o <- tile_origin scale_lon0 scale_lat0 clip tile ;;
  match o with
  | None => Ok None
  | Some (origin_row, origin_col) =>
      Ok (Some (make_window height width
                  (Z.of_nat (Np.nrows (data tile)))
                  (Z.of_nat (Np.ncols (data tile)))
                  origin_row origin_col))
  end.

(** The assignment
    [grid[row_start:row_end, col_start:col_end] =
       tile_data[src_row_start:src_row_end, src_col_start:src_col_end]]. *)
Definition paste (grid : Np.ndarray) (tile : Tile) (w : window)
  : result Np.ndarray :=
  Np.setitem_slice2 grid (row_start w) (row_end w) (col_start w) (col_end w)
    (Np.slice2 (data tile) (src_row_start w) (src_row_end w)
       (src_col_start w) (src_col_end w)).

Definition composite_tile (scale_lon0 scale_lat0 : float) (clip : box)
    (height width : Z) (grid : Np.ndarray) (tile : Tile)
  : result Np.ndarray :=
  ow <- tile_window scale_lon0 scale_lat0 clip height width tile ;;
  match ow with
  | None => Ok grid
  | Some w => paste grid tile w
  end.

Record metadata : Type := mk_metadata {
  originLat : float;
  originLon : float;
  pixelSizeDeg : float;
  width : Z;
  height : Z;
  center_lat : float;
  center_lon : float;
  radiusMiles : float
}.

(** Target grid dimensions from the clip box and the first tile's scale. *)
Definition grid_size (scale_lon0 scale_lat0 : float) (clip : box)
  : result (Z * Z) :=
  let '(min_lon, min_lat, max_lon, max_lat) := clip in
  qw <- div (sub max_lon min_lon) scale_lon0 ;;
  width <- ceil qw ;;
  qh <- div (sub max_lat min_lat) scale_lat0 ;;
  height <- ceil qh ;;
  Ok (height, width).

(** The compositing stage of [main]: from the first tile's scale to the
    end of the loop over the tiles.  Returns the grid with its height and
    width. *)
Definition composite (tiles : list Tile) (clip : box)
  : result (Np.ndarray * Z * Z) :=
  match tiles with
  | [] => Raise IndexError
  | t0 :: _ =>
      let scale_lon0 := scale_lon t0 in
      let scale_lat0 := scale_lat t0 in
      '(height, width) <- grid_size scale_lon0 scale_lat0 clip ;;
      grid <- Np.full height width nan ;;
      grid <- foldM (composite_tile scale_lon0 scale_lat0 clip height width)
                tiles grid ;;
      Ok (grid, height, width)
  end.

(** [main] from the loaded tiles (in sorted file-name order) to the grid
    and metadata handed to the writers. *)
Definition main (cos : float -> float) (tiles : list Tile)
    (center_lat center_lon radius_miles : float)
  : result (Np.ndarray * metadata) :=
  match tiles with
  | [] => Raise SystemExit
  | t0 :: _ =>
      u <- compute_union_bounds tiles ;;
      clip <- clamp_bounds cos u center_lat center_lon radius_miles ;;
      '(grid, height, width) <- composite tiles clip ;;
      let '(min_lon, _, _, max_lat) := clip in
      Ok (grid,
          mk_metadata max_lat min_lon (scale_lon t0) width height
            center_lat center_lon radius_miles)
  end.

End Heightmap.

(** ** build_terrain_mesh.py *)

Module Mesh.

Import Py.

Definition EARTH_RADIUS : float := const 6378137.
Definition METERS_TO_FEET : float := literal 328084 5.

Definition vertex : Type := (float * float * float)%type.
Definition face : Type := (Z * Z * Z)%type.

(** A mesh, by the arrays it is built from: float32 vertex positions
    [(x, y, z)] and int32 triangles.  What trimesh stores once the mesh
    exists (with its default processing it drops vertices that have a
    NaN or infinite coordinate and merges vertices at equal positions)
    is not part of the model: the statements are about these arrays. *)
Record mesh : Type := mk_mesh {
  vertices : list vertex;
  faces : list face
}.

(** A Python integer stored in an [int32] array. *)
Definition to_int32 (z : Z) : result Z :=
  if (- 2 ^ 31 <=? z) && (z <? 2 ^ 31) then Ok z else Raise OverflowError.

Definition face_to_int32 (f : face) : result face :=
  let '(a, b, c) := f in
  a' <- to_int32 a ;; b' <- to_int32 b ;; c' <- to_int32 c ;;
  Ok (a', b', c').

Definition vertex_to_float32 (v : vertex) : vertex :=
  let '(x, y, z) := v in (to_float32 x, to_float32 y, to_float32 z).

(** [range(n)] *)
Definition range (n : Z) : list nat := seq 0 (Z.to_nat n).

(** [grid[::downsample, ::downsample]] when [downsample > 1]. *)
Definition downsample_grid (grid : Np.ndarray) (downsample : Z) : Np.ndarray :=
  if 1 <? downsample then Np.stride2 grid (Z.to_nat downsample) else grid.

Section WithCos.

Variable cos : float -> float.

Definition latlon_to_local (lat lon origin_lat origin_lon : float)
  : result (float * float) :=
  let origin_lat_rad := radians origin_lat in
  let meters_per_deg_lat := mul deg_to_rad EARTH_RADIUS in
  c <- math_cos cos origin_lat_rad ;;
  let meters_per_deg_lon := mul (mul deg_to_rad EARTH_RADIUS) c in
  let dx_meters := mul (sub lon origin_lon) meters_per_deg_lon in
  let dz_meters := mul (sub lat origin_lat) meters_per_deg_lat in
  Ok (mul dx_meters METERS_TO_FEET, mul dz_meters METERS_TO_FEET).

(** [grid[row, col] * METERS_TO_FEET]: a float32 sample times a Python
    float, in float32. *)
Definition to_feet (sample : float) : float :=
  mul32 sample (to_float32 METERS_TO_FEET).

(** The integer [-1000] as a float32. *)
Definition minus_1000 : float :=
  binary_normalize prec32 emax32 (-1000) 0 false.

(** Elevation of a sample in feet, with nodata snapped to zero. *)
Definition elevation_feet (sample : float) : float :=
  let y := to_feet sample in
  if isnan y || ltb y minus_1000 then zero else y.

(** The body of the vertex loop at [(row, col)]. *)
Definition make_vertex (grid : Np.ndarray)
    (hmap_origin_lat hmap_origin_lon pixel_size origin_lat origin_lon : float)
    (row col : nat) : result vertex :=
  cp <- int_mul (Z.of_nat col) pixel_size ;;
  let lon := add hmap_origin_lon cp in
  rp <- int_mul (Z.of_nat row) pixel_size ;;
  let lat := sub hmap_origin_lat rp in
  '(x, z) <- latlon_to_local lat lon origin_lat origin_lon ;;
  let y := elevation_feet (Np.get grid row col) in
  Ok (x, y, z).

(** The vertex loop: one list of vertices per grid row. *)
Definition vertex_rows (grid : Np.ndarray)
    (hmap_origin_lat hmap_origin_lon pixel_size origin_lat origin_lon : float)
  : result (list (list vertex)) :=
  mapM (fun row =>
          mapM (make_vertex grid hmap_origin_lat hmap_origin_lon pixel_size
                  origin_lat origin_lon row)
            (range (Z.of_nat (Np.ncols grid))))
    (range (Z.of_nat (Np.nrows grid))).

(** The body of the face loop at [(row, col)]. *)
Definition make_faces (width : Z) (row col : nat) : list face :=
  let v00 := Z.of_nat row * width + Z.of_nat col in
  let v01 := Z.of_nat row * width + Z.of_nat col + 1 in
  let v10 := (Z.of_nat row + 1) * width + Z.of_nat col in
  let v11 := (Z.of_nat row + 1) * width + Z.of_nat col + 1 in
  [(v00, v10, v01); (v01, v10, v11)].

(** [create_terrain_mesh] up to the two arrays [vertices] and [faces]
    that the mesh is built from. *)
Definition terrain_arrays (grid : Np.ndarray) (meta : Heightmap.metadata)
    (origin_lat origin_lon : float) (downsample : Z)
  : result (list vertex * list face) :=
  let grid := downsample_grid grid downsample in
  let height := Z.of_nat (Np.nrows grid) in
  let width := Z.of_nat (Np.ncols grid) in
  pixel_size <- mul_int (Heightmap.pixelSizeDeg meta) downsample ;;
  let hmap_origin_lat := Heightmap.originLat meta in
  let hmap_origin_lon := Heightmap.originLon meta in
  vrows <- vertex_rows grid hmap_origin_lat hmap_origin_lon pixel_size
             origin_lat origin_lon ;;
  let vertices := map vertex_to_float32 (concat vrows) in
  let faces :=
    flat_map (fun row => flat_map (make_faces width row) (range (width - 1)))
      (range (height - 1)) in
  faces <- mapM face_to_int32 faces ;;
  Ok (vertices, faces).

(** [trimesh.Trimesh(vertices=vertices, faces=faces)] *)
Definition Trimesh (vertices : list vertex) (faces : list face) : mesh :=
  mk_mesh vertices faces.

(** [mesh.fix_normals()]: trimesh raises [IndexError] on a mesh that has
    no face, which is the case of a grid with a single row or column,
    or with none. *)
Definition fix_normals (m : mesh) : result mesh :=
  match faces m with
  | [] => Raise IndexError
  | _ :: _ => Ok m
  end.

Definition create_terrain_mesh (grid : Np.ndarray) (meta : Heightmap.metadata)
    (origin_lat origin_lon : float) (downsample : Z) : result mesh :=
  '(vertices, faces) <- terrain_arrays grid meta origin_lat origin_lon
                          downsample ;;
  let mesh := Trimesh vertices faces in
  fix_normals mesh.

Record chunk_bounds : Type := mk_chunk_bounds {
  min_x : float; max_x : float; min_z : float; max_z : float
}.

Record chunk_entry : Type := mk_chunk_entry {
  file : string;
  chunk_x : nat;
  chunk_z : nat;
  bounds : chunk_bounds
}.

Record manifest : Type := mk_manifest {
  chunks_x : Z;
  chunks_z : Z;
  chunk_size : Z;
  origin_lat : float;
  origin_lon : float;
  files : list chunk_entry
}.

(** The rows and columns [row_start:row_end], [col_start:col_end] of the
    chunk at [(chunk_row, chunk_col)]. *)
Definition chunk_rows (chunk_size height : Z) (chunk_row : nat) : Z * Z :=
  let row_start := Z.of_nat chunk_row * chunk_size in
  (row_start, Z.min (row_start + chunk_size + 1) height).
Definition chunk_cols (chunk_size width : Z) (chunk_col : nat) : Z * Z :=
  let col_start := Z.of_nat chunk_col * chunk_size in
  (col_start, Z.min (col_start + chunk_size + 1) width).

(** The metadata given to the mesh builder for one chunk. *)
Definition make_chunk_meta (meta : Heightmap.metadata) (pixel_size : float)
    (row_start col_start : Z) (chunk_grid : Np.ndarray)
  : result Heightmap.metadata :=
  rp <- int_mul row_start pixel_size ;;
  cp <- int_mul col_start pixel_size ;;
  Ok (Heightmap.mk_metadata
        (sub (Heightmap.originLat meta) rp)
        (add (Heightmap.originLon meta) cp)
        (Heightmap.pixelSizeDeg meta)
        (Z.of_nat (Np.ncols chunk_grid))
        (Z.of_nat (Np.nrows chunk_grid))
        (Heightmap.center_lat meta) (Heightmap.center_lon meta)
        (Heightmap.radiusMiles meta)).

Definition decimal (n : nat) : string :=
  DecimalString.NilZero.string_of_uint (Nat.to_uint n).

Definition chunk_file_name (output_prefix : string) (chunk_col chunk_row : nat)
  : string :=
  (output_prefix ++ "_chunk_" ++ decimal chunk_col ++ "_" ++
   decimal chunk_row ++ ".glb")%string.

(** The body of the chunk loop: the mesh that [mesh.export(chunk_path)]
    writes to the file named in the manifest entry, and that entry.  A
    chunk of a single row or column has no face, and building its mesh
    raises. *)
Definition make_chunk (grid : Np.ndarray) (meta : Heightmap.metadata)
    (origin_lat origin_lon : float) (chunk_size : Z) (pixel_size : float)
    (output_prefix : string) (chunk_row chunk_col : nat)
  : result (mesh * chunk_entry) :=
  let height := Z.of_nat (Np.nrows grid) in
  let width := Z.of_nat (Np.ncols grid) in
  let '(row_start, row_end) := chunk_rows chunk_size height chunk_row in
  let '(col_start, col_end) := chunk_cols chunk_size width chunk_col in
  let chunk_grid := Np.slice2 grid row_start row_end col_start col_end in
  chunk_meta <- make_chunk_meta meta pixel_size row_start col_start
                  chunk_grid ;;
  mesh <- create_terrain_mesh chunk_grid chunk_meta origin_lat origin_lon 1 ;;
  let chunk_name := chunk_file_name output_prefix chunk_col chunk_row in
  a <- int_mul col_start pixel_size ;;
  let min_lon := add (Heightmap.originLon meta) a in
  b <- int_mul (col_end - 1) pixel_size ;;
  let max_lon := add (Heightmap.originLon meta) b in
  c <- int_mul row_start pixel_size ;;
  let max_lat := sub (Heightmap.originLat meta) c in
  d <- int_mul (row_end - 1) pixel_size ;;
  let min_lat := sub (Heightmap.originLat meta) d in
  '(min_x, min_z) <- latlon_to_local min_lat min_lon origin_lat origin_lon ;;
  '(max_x, max_z) <- latlon_to_local max_lat max_lon origin_lat origin_lon ;;
  Ok (mesh,
      mk_chunk_entry chunk_name chunk_col chunk_row
        (mk_chunk_bounds (min min_x max_x) (max min_x max_x)
           (min min_z max_z) (max min_z max_z))).

(** [create_chunked_terrain]: the manifest and the meshes exported, in
    the order of the loop.  The first chunk whose mesh cannot be built
    ends the loop with its exception. *)
Definition create_chunked_terrain (grid : Np.ndarray)
    (meta : Heightmap.metadata) (origin_lat origin_lon : float)
    (chunk_size downsample : Z) (output_prefix : string)
  : result (manifest * list mesh) :=
  let grid := downsample_grid grid downsample in
  let height := Z.of_nat (Np.nrows grid) in
  let width := Z.of_nat (Np.ncols grid) in
  pixel_size <- mul_int (Heightmap.pixelSizeDeg meta) downsample ;;
  qx <- int_truediv width chunk_size ;;
  chunks_x <- ceil qx ;;
  qz <- int_truediv height chunk_size ;;
  chunks_z <- ceil qz ;;
  chunks <- mapM (fun chunk_row =>
              mapM (make_chunk grid meta origin_lat origin_lon chunk_size
                      pixel_size output_prefix chunk_row)
                   (range chunks_x))
            (range chunks_z) ;;
  let chunks := concat chunks in
  Ok (mk_manifest chunks_x chunks_z chunk_size origin_lat origin_lon
        (map snd chunks),
      map fst chunks).

End WithCos.

End Mesh.

(** * The files read and written by the two scripts

    What is outside the scripts is modelled by its content: a GeoTIFF
    file by the samples and the tags of its first page, the heightmap
    binary by the sequence of float32 items that [tofile] writes and
    [np.fromfile] reads back, the metadata JSON file by the values of
    the keys that [build_heightmap.py] writes, and a file that does not
    exist by [None]. *)

(** ** GeoTIFF tiles: [Tile.load], [load_tiles] and the start of [main] *)

Module HeightmapFiles.

Import Py.

(** The first page of a TIFF file: the samples of [page.asarray()], as
    doubles, and [page.tags] as the list of tag names with the values
    stored in each. *)
Record page : Type := mk_page {
  asarray : Np.ndarray;
  tags : list (string * list float)
}.

(** [tags.get(name)]: the first tag of that name, or [None]. *)
Fixpoint tags_get (tags : list (string * list float)) (name : string)
  : option (list float) :=
  match tags with
  | [] => None
  | (k, v) :: rest => if String.eqb k name then Some v else tags_get rest name
  end.

(** [t[i]] on a tuple, for an index [i >= 0]. *)
Definition item {A : Type} (t : list A) (i : nat) : result A :=
  match nth_error t i with
  | Some x => Ok x
  | None => Raise IndexError
  end.

(** [tag.value[i]]: tifffile gives the value of a tag that stores one
    number as that number, not as a tuple, and a number cannot be
    indexed. *)
Definition value_item (values : list float) (i : nat) : result float :=
  match values with
  | [_] => Raise TypeError
  | _ => item values i
  end.

(** [data.astype(np.float32)] *)
Definition astype_float32 (a : Np.ndarray) : Np.ndarray :=
  Np.mk_ndarray (Np.nrows a) (Np.ncols a) (map (map to_float32) (Np.rows a)).

(** [Tile(path).load()] on a file whose first page is [p]. *)
Definition load (path : string) (p : page) : result Heightmap.Tile :=
  let scale_tag := tags_get (tags p) "ModelPixelScaleTag" in
  let tiepoint_tag := tags_get (tags p) "ModelTiepointTag" in
  match scale_tag, tiepoint_tag with
  | Some scale, Some tie =>
      origin_lon <- value_item tie 3 ;;
      origin_lat <- value_item tie 4 ;;
      scale_lon <- value_item scale 0 ;;
      scale_lat <- value_item scale 1 ;;
      Ok (Heightmap.mk_Tile path (astype_float32 (asarray p))
            origin_lon origin_lat scale_lon scale_lat)
  | _, _ => Raise ValueError
  end.

(** [load_tiles]: every path with the page of its file. *)
Definition load_tiles (paths : list (string * page))
  : result (list Heightmap.Tile) :=
  mapM (fun '(path, p) => load path p) paths.

(** [sorted] on paths of one directory: a stable sort by file name,
    names compared character by character. *)
Fixpoint insert (x : string * page) (l : list (string * page))
  : list (string * page) :=
  match l with
  | [] => [x]
  | y :: rest =>
      if String.leb (fst x) (fst y) then x :: y :: rest
      else y :: insert x rest
  end.
Definition sorted (l : list (string * page)) : list (string * page) :=
  fold_right insert [] l.

(** The files [<out_prefix>.json] and [<out_prefix>.bin]; [None] when
    the file does not exist. *)
Record heightmap_files : Type := mk_heightmap_files {
  meta_file : option Heightmap.metadata;
  bin_file : option (list float)
}.

(** [grid.tofile(bin_path)]: the items in row-major order. *)
Definition tofile (a : Np.ndarray) : list float := concat (Np.rows a).

(** The end of [main]: the two files written. *)
Definition write_outputs (grid : Np.ndarray) (meta : Heightmap.metadata)
  : heightmap_files :=
  mk_heightmap_files (Some meta) (Some (tofile grid)).

(** [main] from the [*.tif] files of the input directory, in the order
    in which [glob] lists them, to the files written. *)
Definition main (cos : float -> float) (input_dir : list (string * page))
    (center_lat center_lon radius_miles : float) : result heightmap_files :=
  let tiff_paths := sorted input_dir in
  match tiff_paths with
  | [] => Raise SystemExit
  | _ :: _ =>
      tiles <- load_tiles tiff_paths ;;
      '(grid, meta) <- Heightmap.main cos tiles center_lat center_lon
                         radius_miles ;;
      Ok (write_outputs grid meta)
  end.

End HeightmapFiles.

(** ** The heightmap on disk: [load_heightmap] and [main] of the mesh script *)

Module MeshFiles.

Import Py HeightmapFiles.

(** The exceptions of this layer: [exn] and [FileNotFoundError]. *)
Inductive io_exn : Type :=
| FileNotFoundError
| Exn (e : exn).

Inductive outcome (A : Type) : Type :=
| Done (a : A)
| Failed (e : io_exn).
Arguments Done {A} a.
Arguments Failed {A} e.

Definition lift {A : Type} (m : result A) : outcome A :=
  match m with
  | Ok a => Done a
  | Raise e => Failed (Exn e)
  end.

(** The rows of a row-major sequence of items. *)
Fixpoint split_rows {A : Type} (height width : nat) (items : list A)
  : list (list A) :=
  match height with
  | O => []
  | S h => firstn width items :: split_rows h width (skipn width items)
  end.

(** [a.reshape((height, width))] on a one-dimensional array: one
    negative dimension is inferred from the size, which must then be a
    multiple of the other one; otherwise the sizes must agree. *)
Definition reshape (items : list float) (height width : Z)
  : result Np.ndarray :=
  let size := Z.of_nat (length items) in
  let array h w :=
    Np.mk_ndarray (Z.to_nat h) (Z.to_nat w)
      (split_rows (Z.to_nat h) (Z.to_nat w) items) in
  if (height <? 0) && (width <? 0) then Raise ValueError
  else if height <? 0 then
    if (width =? 0) || negb (size mod width =? 0) then Raise ValueError
    else Ok (array (size / width) width)
  else if width <? 0 then
    if (height =? 0) || negb (size mod height =? 0) then Raise ValueError
    else Ok (array height (size / height))
  else if height * width =? size then Ok (array height width)
  else Raise ValueError.

(** [load_heightmap]: both files must exist; the binary is read as
    float32 items and reshaped to the [height] and [width] of the
    metadata. *)
Definition load_heightmap (files : heightmap_files)
  : outcome (Np.ndarray * Heightmap.metadata) :=
  match meta_file files with
  | None => Failed FileNotFoundError
  | Some meta =>
      match bin_file files with
      | None => Failed FileNotFoundError
      | Some items =>
          let width := Heightmap.width meta in
          let height := Heightmap.height meta in
          lift (grid <- reshape items height width ;; Ok (grid, meta))
      end
  end.

(** What the mesh script writes: the chunk meshes with their manifest,
    or one mesh. *)
Inductive output : Type :=
| Chunked (manifest : Mesh.manifest) (chunks : list Mesh.mesh)
| Single (mesh : Mesh.mesh).

(** [main] of [build_terrain_mesh.py]. *)
Definition main (cos : float -> float) (heightmap : heightmap_files)
    (origin_lat origin_lon : float) (downsample chunk_size : Z)
  : outcome output :=
  match load_heightmap heightmap with
  | Failed e => Failed e
  | Done (grid, meta) =>
      if 0 <? chunk_size then
        lift ('(manifest, chunks) <-
                Mesh.create_chunked_terrain cos grid meta origin_lat
                  origin_lon chunk_size downsample "terrain" ;;
              Ok (Chunked manifest chunks))
      else
        lift (mesh <- Mesh.create_terrain_mesh cos grid meta origin_lat
                        origin_lon downsample ;;
              Ok (Single mesh))
  end.

End MeshFiles.

(** * Notions used in the statements *)

Module Spec.

Import Py.

(** Neither NaN nor infinite. *)
Definition isfinite (x : float) : bool :=
  match x with
  | S754_zero _ | S754_finite _ _ _ => true
  | _ => false
  end.

(** Cell [(r, c)] lies in the destination rows and columns of [w]. *)
Definition covers (w : Heightmap.window) (r c : nat) : bool :=
  (Heightmap.row_start w <=? Z.of_nat r)
  && (Z.of_nat r <? Heightmap.row_end w)
  && ((Heightmap.col_start w <=? Z.of_nat c)
      && (Z.of_nat c <? Heightmap.col_end w)).

(** The tile sample that the assignment copies to cell [(r, c)]. *)
Definition source_cell (tile : Heightmap.Tile) (w : Heightmap.window)
    (r c : nat) : float :=
  Np.get (Heightmap.data tile)
    (Z.to_nat (Heightmap.src_row_start w
               + (Z.of_nat r - Heightmap.row_start w)))
    (Z.to_nat (Heightmap.src_col_start w
               + (Z.of_nat c - Heightmap.col_start w))).

(** The value of cell [(r, c)] after one more tile of the loop. *)
Definition cell_step (scale_lon0 scale_lat0 : float) (clip : Heightmap.box)
    (height width : Z) (r c : nat) (v : float) (tile : Heightmap.Tile)
  : float :=
  match Heightmap.tile_window scale_lon0 scale_lat0 clip height width tile with
  | Ok (Some w) => if covers w r c then source_cell tile w r c else v
  | _ => v
  end.

(** An offset within reach of an axis: the tile starts no later than the
    end of the grid and ends no earlier than its start. *)
Definition within_reach (n t : nat) (o : Z) : Prop :=
  - Z.of_nat t <= o <= Z.of_nat n.

(** The tile is skipped, or its offsets are within reach of a grid of
    [height] rows and [width] columns. *)
Definition placed (scale_lon0 scale_lat0 : float) (clip : Heightmap.box)
    (height width : nat) (t : Heightmap.Tile) : Prop :=
  exists o,
    Heightmap.tile_origin scale_lon0 scale_lat0 clip t = Ok o /\
    match o with
    | None => True
    | Some (origin_row, origin_col) =>
        within_reach height (Np.nrows (Heightmap.data t)) origin_row /\
        within_reach width (Np.ncols (Heightmap.data t)) origin_col
    end.

(** The identity round trip of C6 for one tile: compositing the tile
    alone, clipped to its own box, yields a grid of the tile's shape
    holding the tile's samples. *)
Definition identity_round_trip (t : Heightmap.Tile) : Prop :=
  exists b grid,
    Heightmap.bounds t = Ok b /\
    Heightmap.composite [t] b
    = Ok (grid, Z.of_nat (Np.nrows (Heightmap.data t)),
          Z.of_nat (Np.ncols (Heightmap.data t))) /\
    Np.nrows grid = Np.nrows (Heightmap.data t) /\
    Np.ncols grid = Np.ncols (Heightmap.data t) /\
    forall r c, (r < Np.nrows grid)%nat -> (c < Np.ncols grid)%nat ->
      Np.get grid r c = Np.get (Heightmap.data t) r c.

(** The triangles before their conversion to [int32]. *)
Definition grid_faces (H W : nat) : list Mesh.face :=
  flat_map (fun row => flat_map (Mesh.make_faces (Z.of_nat W) row)
                         (Mesh.range (Z.of_nat W - 1)))
    (Mesh.range (Z.of_nat H - 1)).

(** The planar coordinates of a point for the cosine [c] of the origin
    latitude. *)
Definition local_x (c lon origin_lon : float) : float :=
  mul (mul (sub lon origin_lon)
         (mul (mul deg_to_rad Mesh.EARTH_RADIUS) c))
    Mesh.METERS_TO_FEET.
Definition local_z (lat origin_lat : float) : float :=
  mul (mul (sub lat origin_lat) (mul deg_to_rad Mesh.EARTH_RADIUS))
    Mesh.METERS_TO_FEET.

End Spec.

(** * Concrete inputs used by the examples *)

Module Examples.

Import Py.

(** The cosine at the one argument the examples evaluate it at:
    [cos 0 = 1]; any other argument yields NaN. *)
Definition cos_at_zero (x : float) : float :=
  if iszero x then const 1 else nan.

Definition flat_meta (pixel : float) (w h : Z) : Heightmap.metadata :=
  Heightmap.mk_metadata zero zero pixel w h zero zero (const 1).

Definition grid_2x2 : Np.ndarray :=
  Np.mk_ndarray 2 2 [[const 1; const 2]; [const 3; const 4]].

(** A 2x2 tile with pixel scale 1. *)
Definition tile_2x2 (name : string) (lon lat a b c d : float)
  : Heightmap.Tile :=
  Heightmap.mk_Tile name (Np.mk_ndarray 2 2 [[a; b]; [c; d]])
    lon lat (const 1) (const 1).

(** Tile A at (lon 0, lat 1) and tile B at (lon 0.5, lat 1). *)
Definition tile_A (a00 a01 a10 a11 : float) : Heightmap.Tile :=
  tile_2x2 "a.tif" zero (const 1) a00 a01 a10 a11.
Definition tile_B (b00 b01 b10 b11 : float) : Heightmap.Tile :=
  tile_2x2 "b.tif" (literal 5 1) (const 1) b00 b01 b10 b11.

(** The union of the boxes of A and B: lon 0 to 2.5, lat -1 to 1. *)
Definition union_AB : Heightmap.box :=
  (zero, const (-1), literal 25 1, const 1).

(** A one-row tile of three samples at lon 0.1 with pixel scale 0.1. *)
Definition tile_1x3 : Heightmap.Tile :=
  Heightmap.mk_Tile "t.tif" (Np.mk_ndarray 1 3 [[const 7; const 8; const 9]])
    (literal 1 1) zero (literal 1 1) (const 1).

(** The all-NaN 3x3 heightmap. *)
Definition grid_nan_3x3 : Np.ndarray :=
  Np.mk_ndarray 3 3 [[nan; nan; nan]; [nan; nan; nan]; [nan; nan; nan]].

(** A 3x3 heightmap with elevations 1 to 9 and pixel size 1 degree. *)
Definition grid_3x3 : Np.ndarray :=
  Np.mk_ndarray 3 3
    [[const 1; const 2; const 3]; [const 4; const 5; const 6];
     [const 7; const 8; const 9]].


(** A heightmap of two rows and four columns. *)
Definition grid_2x4 : Np.ndarray :=
  Np.mk_ndarray 2 4
    [[const 1; const 2; const 3; const 4];
     [const 5; const 6; const 7; const 8]].



End Examples.

(** * Notions used in the further properties *)

Module Notions.

Import Ascii.

(** A decimal digit. *)
Definition is_digit (a : ascii) : bool :=
  (48 <=? nat_of_ascii a)%nat && (nat_of_ascii a <=? 57)%nat.

Fixpoint all_digits (s : string) : bool :=
  match s with
  | EmptyString => true
  | String a t => is_digit a && all_digits t
  end.

(** An exception of the mesh builder or of the chunk loop: the cosine
    of an infinite angle, or a number that is too large. *)
Definition domain_or_overflow (olat : Py.float) (e : exn) : Prop :=
  (e = ValueError /\ Py.isinf (Py.radians olat) = true) \/ e = OverflowError.

(** An exception of the mosaic other than a division by zero. *)
Definition value_or_overflow (e : exn) : Prop :=
  e = ValueError \/ e = OverflowError.

(** Paths in the order of their names. *)
Definition by_name (x y : string * HeightmapFiles.page) : Prop :=
  String.leb (fst x) (fst y) = true.

End Notions.

(** * Facts about the float and array layers *)

(** ** Integers that convert to floats exactly *)

Lemma digits2_pos_bounds (m : positive) :
  2 ^ (Zpos (digits2_pos m) - 1) <= Zpos m < 2 ^ Zpos (digits2_pos m).
Proof.
  induction m as [m IH | m IH |]; simpl digits2_pos.
  - rewrite Pos2Z.inj_succ.
    replace (Z.succ (Zpos (digits2_pos m)) - 1) with (Zpos (digits2_pos m) - 1 + 1) by lia.
    rewrite Z.pow_succ_r by lia. rewrite Z.pow_add_r by lia.
    change (2 ^ 1) with 2. lia.
  - rewrite Pos2Z.inj_succ.
    replace (Z.succ (Zpos (digits2_pos m)) - 1) with (Zpos (digits2_pos m) - 1 + 1) by lia.
    rewrite Z.pow_succ_r by lia. rewrite Z.pow_add_r by lia.
    change (2 ^ 1) with 2. lia.
  - simpl. lia.
Qed.

Lemma digits2_pos_le (m : positive) (n : Z) :
  0 <= n -> Zpos m < 2 ^ n -> Zpos (digits2_pos m) <= n.
Proof.
  intros Hn Hm. destruct (digits2_pos_bounds m) as [Hlo _].
  destruct (Z_le_gt_dec (Zpos (digits2_pos m)) n) as [|Hgt]; [assumption|].
  assert (2 ^ n <= 2 ^ (Zpos (digits2_pos m) - 1)) by (apply Z.pow_le_mono_r; lia).
  lia.
Qed.

Lemma digits2_pos_iter_xO (k m : positive) :
  digits2_pos (Pos.iter xO m k) = (digits2_pos m + k)%positive.
Proof.
  revert m. induction k using Pos.peano_ind; intros m.
  - simpl. lia.
  - rewrite Pos.iter_succ. simpl. rewrite IHk. lia.
Qed.

Lemma fexp64 (e : Z) : fexp 53 1024 e = Z.max (e - 53) (-1074).
Proof. reflexivity. Qed.

Lemma binary_round_aux_exact (s : bool) (mz : positive) (ez : Z) :
  Zpos (digits2_pos mz) = 53 -> -1074 <= ez <= 971 ->
  binary_round_aux 53 1024 s (Zpos mz) ez loc_Exact = S754_finite s mz ez.
Proof.
  intros Hd He.
  assert (Hshift : fexp 53 1024 (Zdigits2 (Zpos mz) + ez) - ez = 0).
  { rewrite fexp64. unfold Zdigits2. rewrite Hd. lia. }
  unfold binary_round_aux.
  assert (E1 : shr_fexp 53 1024 (Zpos mz) ez loc_Exact
               = (Build_shr_record (Zpos mz) false false, ez)).
  { unfold shr_fexp. rewrite Hshift. reflexivity. }
  rewrite E1. cbn [shr_m loc_of_shr_record round_nearest_even].
  rewrite E1. cbn [shr_m].
  destruct (ez <=? 1024 - 53) eqn:L; [reflexivity|].
  apply Z.leb_gt in L. lia.
Qed.

Lemma binary_round_small (s : bool) (m : positive) :
  Zpos m < 2 ^ 53 ->
  exists m', binary_round 53 1024 s m 0
             = S754_finite s m' (Zpos (digits2_pos m) - 53).
Proof.
  intros Hm.
  assert (Hd : Zpos (digits2_pos m) <= 53) by (apply digits2_pos_le; lia).
  unfold binary_round. rewrite fexp64.
  replace (Z.max (Z.pos (digits2_pos m) + 0 - 53) (-1074))
    with (Zpos (digits2_pos m) - 53) by lia.
  unfold shl_align.
  destruct (Zpos (digits2_pos m) - 53 - 0) as [|p|p] eqn:E; try lia.
  - exists m. replace (Zpos (digits2_pos m) - 53) with 0 by lia.
    apply binary_round_aux_exact; lia.
  - exists (Pos.iter xO m p).
    apply binary_round_aux_exact; [rewrite digits2_pos_iter_xO|]; lia.
Qed.

Lemma float_of_int_small (z : Z) :
  - 2 ^ 53 < z < 2 ^ 53 -> exists f, Py.float_of_int z = Ok f.
Proof.
  intros Hz. unfold Py.float_of_int, Py.prec, Py.emax.
  destruct z as [|p|p]; cbn [binary_normalize].
  - eexists; reflexivity.
  - destruct (binary_round_small false p) as [m' E]; [lia|]. rewrite E. eexists; reflexivity.
  - destruct (binary_round_small true p) as [m' E]; [lia|]. rewrite E. eexists; reflexivity.
Qed.

(** ** The error monad and monadic maps *)

Lemma bind_ok {A B : Type} (m : result A) (k : A -> result B) (b : B) :
  bind m k = Ok b -> exists a, m = Ok a /\ k a = Ok b.
Proof. destruct m as [a|e]; simpl; [eauto | discriminate]. Qed.

Ltac inv_bind H :=
  let a := fresh "a" in
  let Ha := fresh "Ha" in
  apply bind_ok in H; destruct H as (a & Ha & H).

Lemma mapM_length {A B : Type} (f : A -> result B) (l : list A) (ys : list B) :
  mapM f l = Ok ys -> length ys = length l.
Proof.
  revert ys. induction l as [|x t IH]; simpl; intros ys H.
  - injection H as <-. reflexivity.
  - inv_bind H. inv_bind H. injection H as <-. simpl. f_equal. auto.
Qed.

Lemma mapM_nth_error {A B : Type} (f : A -> result B) (l : list A)
    (ys : list B) (i : nat) (x : A) :
  mapM f l = Ok ys -> nth_error l i = Some x ->
  exists y, f x = Ok y /\ nth_error ys i = Some y.
Proof.
  revert ys i. induction l as [|x0 t IH]; simpl; intros ys i H Hi.
  - destruct i; discriminate.
  - inv_bind H. inv_bind H. injection H as <-.
    destruct i as [|i]; simpl in *.
    + injection Hi as <-. eauto.
    + eauto.
Qed.

Lemma mapM_ok {A B : Type} (f : A -> result B) (l : list A) :
  (forall x, In x l -> exists y, f x = Ok y) -> exists ys, mapM f l = Ok ys.
Proof.
  induction l as [|x t IH]; simpl; intros H.
  - eauto.
  - destruct (H x) as [y Hy]; [auto|]. rewrite Hy. simpl.
    destruct IH as [ys Hys]; [auto|]. rewrite Hys. simpl. eauto.
Qed.

Lemma mapM_Forall {A B : Type} (f : A -> result B) (P : B -> Prop)
    (l : list A) (ys : list B) :
  mapM f l = Ok ys -> (forall x y, In x l -> f x = Ok y -> P y) ->
  Forall P ys.
Proof.
  revert ys. induction l as [|x t IH]; simpl; intros ys H HP.
  - injection H as <-. constructor.
  - inv_bind H. inv_bind H. injection H as <-. constructor; eauto.
Qed.

(** ** Row-major lists *)

Lemma concat_length_uniform {A : Type} (w : nat) (ls : list (list A)) :
  Forall (fun l => length l = w) ls ->
  length (concat ls) = (length ls * w)%nat.
Proof.
  induction 1 as [|l ls Hl _ IH]; simpl; [reflexivity|].
  rewrite length_app, Hl, IH. reflexivity.
Qed.

Lemma concat_nth_error_uniform {A : Type} (w : nat) (ls : list (list A))
    (r c : nat) :
  Forall (fun l => length l = w) ls -> (c < w)%nat ->
  nth_error (concat ls) (r * w + c) = nth_error (nth r ls []) c.
Proof.
  intros H Hc. revert r. induction H as [|l ls Hl _ IH]; intros r.
  - simpl. destruct r; rewrite !nth_error_nil; reflexivity.
  - destruct r as [|r]; simpl.
    + rewrite nth_error_app1 by lia. reflexivity.
    + rewrite nth_error_app2 by lia.
      replace (w + r * w + c - length l)%nat with (r * w + c)%nat by lia.
      apply IH.
Qed.

Lemma seq_nth_error (start len i : nat) :
  (i < len)%nat -> nth_error (seq start len) i = Some (start + i)%nat.
Proof.
  intros H. rewrite nth_error_nth' with (d := 0%nat) by (rewrite length_seq; lia).
  rewrite seq_nth by lia. reflexivity.
Qed.

(** ** The mesh builder *)

Module MeshFacts.

Import Py Mesh Spec.

Lemma to_int32_ok (z z' : Z) :
  to_int32 z = Ok z' -> z' = z /\ - 2 ^ 31 <= z < 2 ^ 31.
Proof.
  unfold to_int32.
  destruct (- 2 ^ 31 <=? z) eqn:L1; destruct (z <? 2 ^ 31) eqn:L2;
    cbn [andb]; intros H; try discriminate.
  injection H as <-. apply Z.leb_le in L1. apply Z.ltb_lt in L2. lia.
Qed.

Lemma to_int32_fits (z : Z) : - 2 ^ 31 <= z < 2 ^ 31 -> to_int32 z = Ok z.
Proof.
  intros [H1 H2]. unfold to_int32.
  apply Z.leb_le in H1. apply Z.ltb_lt in H2. rewrite H1, H2. reflexivity.
Qed.

Lemma faces_to_int32_ok (fs fs' : list face) :
  mapM face_to_int32 fs = Ok fs' -> fs' = fs.
Proof.
  revert fs'. induction fs as [|[[a b] c] t IH]; simpl; intros fs' H.
  - injection H as <-. reflexivity.
  - inv_bind H. inv_bind H. injection H as <-.
    unfold face_to_int32 in Ha. inv_bind Ha. inv_bind Ha. inv_bind Ha.
    injection Ha as <-.
    apply to_int32_ok in Ha1, Ha2, Ha3.
    destruct Ha1 as [-> _], Ha2 as [-> _], Ha3 as [-> _].
    f_equal. auto.
Qed.

Lemma range_pred (n : nat) : range (Z.of_nat n - 1) = seq 0 (n - 1).
Proof. unfold range. f_equal. lia. Qed.

Lemma range_of_nat (n : nat) : range (Z.of_nat n) = seq 0 n.
Proof. unfold range. f_equal. lia. Qed.

Lemma map_seq_nth {A : Type} (f : nat -> A) (n i : nat) (d : A) :
  (i < n)%nat -> nth i (map f (seq 0 n)) d = f i.
Proof.
  intros Hi.
  rewrite nth_indep with (d' := f 0%nat) by (rewrite length_map, length_seq; lia).
  rewrite (map_nth f (seq 0 n) 0%nat i), seq_nth by lia. reflexivity.
Qed.

Lemma row_faces_length (W r : nat) :
  length (flat_map (make_faces (Z.of_nat W) r) (range (Z.of_nat W - 1)))
  = ((W - 1) * 2)%nat.
Proof.
  rewrite flat_map_concat_map, (range_pred W).
  rewrite concat_length_uniform with (w := 2%nat).
  - rewrite length_map, length_seq. reflexivity.
  - apply Forall_forall. intros l Hl. apply in_map_iff in Hl.
    destruct Hl as (c & <- & _). reflexivity.
Qed.

Lemma grid_faces_length (H W : nat) :
  length (grid_faces H W) = (2 * (W - 1) * (H - 1))%nat.
Proof.
  unfold grid_faces. rewrite flat_map_concat_map, (range_pred H).
  rewrite concat_length_uniform with (w := ((W - 1) * 2)%nat).
  - rewrite length_map, length_seq. lia.
  - apply Forall_forall. intros l Hl. apply in_map_iff in Hl.
    destruct Hl as (r & <- & _). apply row_faces_length.
Qed.

Lemma grid_faces_nth (H W r c k : nat) :
  (r < H - 1)%nat -> (c < W - 1)%nat -> (k < 2)%nat ->
  nth_error (grid_faces H W) (2 * (r * (W - 1) + c) + k)
  = nth_error (make_faces (Z.of_nat W) r c) k.
Proof.
  intros Hr Hc Hk. unfold grid_faces.
  rewrite flat_map_concat_map, (range_pred H).
  replace (2 * (r * (W - 1) + c) + k)%nat
    with (r * ((W - 1) * 2) + (c * 2 + k))%nat by lia.
  rewrite concat_nth_error_uniform; [| |nia].
  2:{ apply Forall_forall. intros l Hl. apply in_map_iff in Hl.
      destruct Hl as (r' & <- & _). apply row_faces_length. }
  rewrite map_seq_nth by lia.
  rewrite flat_map_concat_map, (range_pred W).
  rewrite concat_nth_error_uniform; [| |lia].
  2:{ apply Forall_forall. intros l Hl. apply in_map_iff in Hl.
      destruct Hl as (c' & <- & _). reflexivity. }
  rewrite map_seq_nth by lia. reflexivity.
Qed.

Lemma grid_faces_in (H W : nat) (a b c : Z) :
  In (a, b, c) (grid_faces H W) ->
  exists row col : nat,
    (row < H - 1)%nat /\ (col < W - 1)%nat /\
    In (a, b, c) (make_faces (Z.of_nat W) row col).
Proof.
  unfold grid_faces. rewrite (range_pred H). intros Hin.
  apply in_flat_map in Hin. destruct Hin as (row & Hrow & Hin).
  rewrite (range_pred W) in Hin.
  apply in_flat_map in Hin. destruct Hin as (col & Hcol & Hin).
  apply in_seq in Hrow, Hcol. exists row, col. repeat split; [lia|lia|assumption].
Qed.

Lemma make_faces_sound (H W row col : nat) (a b c : Z) :
  (row < H - 1)%nat -> (col < W - 1)%nat ->
  In (a, b, c) (make_faces (Z.of_nat W) row col) ->
  a <> b /\ b <> c /\ a <> c /\
  0 <= a < Z.of_nat W * Z.of_nat H /\
  0 <= b < Z.of_nat W * Z.of_nat H /\
  0 <= c < Z.of_nat W * Z.of_nat H.
Proof.
  intros Hr Hc Hin. unfold make_faces in Hin. simpl in Hin.
  assert (Hrow : Z.of_nat row + 2 <= Z.of_nat H) by lia.
  assert (Hcol : Z.of_nat col + 2 <= Z.of_nat W) by lia.
  assert (0 <= Z.of_nat row) by lia. assert (0 <= Z.of_nat col) by lia.
  assert (Hm1 : (Z.of_nat row + 1) * Z.of_nat W <= (Z.of_nat H - 1) * Z.of_nat W) by nia.
  assert (Hm0 : 0 <= Z.of_nat row * Z.of_nat W) by nia.
  destruct Hin as [E|[E|[]]]; injection E as <- <- <-; repeat split; nia.
Qed.

Section Vertices.

Variable cos : float -> float.
Variables (g : Np.ndarray) (lat0 lon0 ps olat olon : float).

Lemma vertex_rows_shape (vrows : list (list vertex)) :
  vertex_rows cos g lat0 lon0 ps olat olon = Ok vrows ->
  length vrows = Np.nrows g /\
  Forall (fun l => length l = Np.ncols g) vrows.
Proof.
  unfold vertex_rows. intros Hv. split.
  - apply mapM_length in Hv. rewrite Hv, range_of_nat, length_seq. reflexivity.
  - eapply mapM_Forall; [exact Hv|]. cbv beta. intros r l _ Hl.
    apply mapM_length in Hl. rewrite Hl, range_of_nat, length_seq. reflexivity.
Qed.

Lemma vertex_rows_nth (vrows : list (list vertex)) (r c : nat) :
  vertex_rows cos g lat0 lon0 ps olat olon = Ok vrows ->
  (r < Np.nrows g)%nat -> (c < Np.ncols g)%nat ->
  exists v,
    make_vertex cos g lat0 lon0 ps olat olon r c = Ok v /\
    nth_error (concat vrows) (r * Np.ncols g + c) = Some v.
Proof.
  intros Hv Hr Hc.
  destruct (vertex_rows_shape vrows Hv) as [Hlen Hall].
  unfold vertex_rows in Hv.
  destruct (mapM_nth_error _ _ _ r r Hv) as (l & Hl & Hnth).
  { rewrite range_of_nat. apply seq_nth_error. assumption. }
  cbv beta in Hl.
  destruct (mapM_nth_error _ _ _ c c Hl) as (v & Hmv & Hnv).
  { rewrite range_of_nat. apply seq_nth_error. assumption. }
  exists v. split; [assumption|].
  rewrite concat_nth_error_uniform by assumption.
  rewrite (nth_error_nth _ _ [] Hnth). assumption.
Qed.

End Vertices.

(** What the array-building part returns. *)
Lemma terrain_arrays_inv (cos : float -> float) (grid : Np.ndarray)
    (meta : Heightmap.metadata) (olat olon : float) (d : Z)
    (vs : list vertex) (fs : list face) :
  terrain_arrays cos grid meta olat olon d = Ok (vs, fs) ->
  exists ps vrows,
    mul_int (Heightmap.pixelSizeDeg meta) d = Ok ps /\
    vertex_rows cos (downsample_grid grid d) (Heightmap.originLat meta)
      (Heightmap.originLon meta) ps olat olon = Ok vrows /\
    vs = map vertex_to_float32 (concat vrows) /\
    fs = grid_faces (Np.nrows (downsample_grid grid d))
           (Np.ncols (downsample_grid grid d)).
Proof.
  unfold terrain_arrays. intros H.
  apply bind_ok in H. destruct H as (ps & Hps & H).
  apply bind_ok in H. destruct H as (vrows & Hv & H).
  apply bind_ok in H. destruct H as (fs' & Hfs & H).
  injection H as <- <-. apply faces_to_int32_ok in Hfs. subst fs'.
  exists ps, vrows. repeat split; assumption.
Qed.

(** A mesh that is returned was built from its arrays, and has a
    face. *)
Lemma create_terrain_mesh_arrays (cos : float -> float) (grid : Np.ndarray)
    (meta : Heightmap.metadata) (olat olon : float) (d : Z) (m : mesh) :
  create_terrain_mesh cos grid meta olat olon d = Ok m ->
  terrain_arrays cos grid meta olat olon d = Ok (vertices m, faces m) /\
  faces m <> [].
Proof.
  unfold create_terrain_mesh. intros H.
  apply bind_ok in H. destruct H as ([vs fs] & Ha & H).
  unfold fix_normals, Trimesh in H. cbn [faces] in H.
  destruct fs as [|f fs]; [discriminate|]. injection H as <-.
  cbn [vertices faces]. split; [exact Ha | discriminate].
Qed.

Lemma create_terrain_mesh_inv (cos : float -> float) (grid : Np.ndarray)
    (meta : Heightmap.metadata) (olat olon : float) (d : Z) (m : mesh) :
  create_terrain_mesh cos grid meta olat olon d = Ok m ->
  exists ps vrows,
    mul_int (Heightmap.pixelSizeDeg meta) d = Ok ps /\
    vertex_rows cos (downsample_grid grid d) (Heightmap.originLat meta)
      (Heightmap.originLon meta) ps olat olon = Ok vrows /\
    vertices m = map vertex_to_float32 (concat vrows) /\
    faces m = grid_faces (Np.nrows (downsample_grid grid d))
                (Np.ncols (downsample_grid grid d)).
Proof.
  intros H. apply create_terrain_mesh_arrays in H. destruct H as [H _].
  exact (terrain_arrays_inv _ _ _ _ _ _ _ _ H).
Qed.

Lemma mesh_vertex_at (cos : float -> float) (grid : Np.ndarray)
    (meta : Heightmap.metadata) (olat olon : float) (d : Z) (m : mesh)
    (r c : nat) :
  create_terrain_mesh cos grid meta olat olon d = Ok m ->
  (r < Np.nrows (downsample_grid grid d))%nat ->
  (c < Np.ncols (downsample_grid grid d))%nat ->
  exists ps v,
    mul_int (Heightmap.pixelSizeDeg meta) d = Ok ps /\
    make_vertex cos (downsample_grid grid d) (Heightmap.originLat meta)
      (Heightmap.originLon meta) ps olat olon r c = Ok v /\
    nth_error (vertices m) (r * Np.ncols (downsample_grid grid d) + c)
    = Some (vertex_to_float32 v).
Proof.
  intros Hm Hr Hc.
  destruct (create_terrain_mesh_inv _ _ _ _ _ _ _ Hm) as (ps & vrows & Hps & Hv & Hvs & _).
  destruct (vertex_rows_nth _ _ _ _ _ _ _ _ r c Hv Hr Hc) as (v & Hmv & Hnv).
  exists ps, v. repeat split; try assumption.
  rewrite Hvs, nth_error_map, Hnv. reflexivity.
Qed.

Lemma mesh_vertices_length (cos : float -> float) (grid : Np.ndarray)
    (meta : Heightmap.metadata) (olat olon : float) (d : Z) (m : mesh) :
  create_terrain_mesh cos grid meta olat olon d = Ok m ->
  length (vertices m)
  = (Np.ncols (downsample_grid grid d) * Np.nrows (downsample_grid grid d))%nat.
Proof.
  intros Hm.
  destruct (create_terrain_mesh_inv _ _ _ _ _ _ _ Hm) as (ps & vrows & Hps & Hv & Hvs & _).
  destruct (vertex_rows_shape _ _ _ _ _ _ _ _ Hv) as [Hlen Hall].
  rewrite Hvs, length_map, (concat_length_uniform _ _ Hall), Hlen. lia.
Qed.

(** The arrays are built when the pixel size converts, the cosine is
    defined and the indices fit [int32]. *)
Lemma terrain_arrays_ok (cos : float -> float) (grid : Np.ndarray)
    (meta : Heightmap.metadata) (olat olon : float) (d : Z) (ps : float) :
  mul_int (Heightmap.pixelSizeDeg meta) d = Ok ps ->
  isinf (radians olat) = false ->
  Z.of_nat (Np.ncols (downsample_grid grid d))
    * Z.of_nat (Np.nrows (downsample_grid grid d)) <= 2 ^ 31 ->
  (1 <= Np.ncols (downsample_grid grid d))%nat ->
  (1 <= Np.nrows (downsample_grid grid d))%nat ->
  exists vs,
    terrain_arrays cos grid meta olat olon d
    = Ok (vs, grid_faces (Np.nrows (downsample_grid grid d))
                (Np.ncols (downsample_grid grid d))).
Proof.
  intros Hps Hcos Hsize HW HH. unfold terrain_arrays. rewrite Hps.
  cbn [bind].
  set (g := downsample_grid grid d) in *.
  assert (Hbig : 2 ^ 31 < 2 ^ 53) by (apply Z.pow_lt_mono_r; lia).
  assert (HWb : Z.of_nat (Np.ncols g) <= 2 ^ 31) by nia.
  assert (HHb : Z.of_nat (Np.nrows g) <= 2 ^ 31) by nia.
  assert (Hvrows : exists vrows,
            vertex_rows cos g (Heightmap.originLat meta)
              (Heightmap.originLon meta) ps olat olon = Ok vrows).
  { unfold vertex_rows. apply mapM_ok.
    intros r Hr. rewrite range_of_nat in Hr. apply in_seq in Hr.
    apply mapM_ok. intros c Hc. rewrite range_of_nat in Hc. apply in_seq in Hc.
    unfold make_vertex, int_mul.
    destruct (float_of_int_small (Z.of_nat c)) as [fc Hfc]; [lia|].
    destruct (float_of_int_small (Z.of_nat r)) as [fr Hfr]; [lia|].
    rewrite Hfc, Hfr. cbn [bind].
    unfold latlon_to_local, math_cos. rewrite Hcos. cbn [bind].
    eexists; reflexivity. }
  destruct Hvrows as [vrows Hv]. rewrite Hv. cbn [bind].
  destruct (mapM_ok face_to_int32
    (flat_map (fun row => flat_map (make_faces (Z.of_nat (Np.ncols g)) row)
                            (range (Z.of_nat (Np.ncols g) - 1)))
       (range (Z.of_nat (Np.nrows g) - 1)))) as [fs Hfs].
  { intros [[a b] c] Hin.
    apply (grid_faces_in (Np.nrows g) (Np.ncols g)) in Hin.
    destruct Hin as (row & col & Hrow & Hcol & Hin).
    destruct (make_faces_sound _ _ _ _ _ _ _ Hrow Hcol Hin)
      as (_ & _ & _ & Ha & Hb & Hc).
    unfold face_to_int32.
    rewrite !to_int32_fits by lia. cbn [bind]. eexists; reflexivity. }
  rewrite Hfs. cbn [bind]. apply faces_to_int32_ok in Hfs. subst fs.
  eexists; reflexivity.
Qed.


Lemma grid_faces_nil (H W : nat) :
  grid_faces H W = [] <-> (W <= 1)%nat \/ (H <= 1)%nat.
Proof.
  pose proof (grid_faces_length H W) as Hl. split.
  - intros E. rewrite E in Hl. cbn [length] in Hl. nia.
  - intros Hd. destruct (grid_faces H W) as [|f fs]; [reflexivity|].
    cbn [length] in Hl. exfalso. nia.
Qed.

(** The mesh builder returns when, besides, the grid has at least two
    rows and two columns. *)
Lemma create_terrain_mesh_ok (cos : float -> float) (grid : Np.ndarray)
    (meta : Heightmap.metadata) (olat olon : float) (d : Z) (ps : float) :
  mul_int (Heightmap.pixelSizeDeg meta) d = Ok ps ->
  isinf (radians olat) = false ->
  Z.of_nat (Np.ncols (downsample_grid grid d))
    * Z.of_nat (Np.nrows (downsample_grid grid d)) <= 2 ^ 31 ->
  (2 <= Np.ncols (downsample_grid grid d))%nat ->
  (2 <= Np.nrows (downsample_grid grid d))%nat ->
  exists m, create_terrain_mesh cos grid meta olat olon d = Ok m.
Proof.
  intros Hps Hcos Hsize HW HH.
  destruct (terrain_arrays_ok cos grid meta olat olon d ps Hps Hcos Hsize)
    as [vs Ha]; [lia | lia |].
  unfold create_terrain_mesh. rewrite Ha. cbn [bind].
  unfold fix_normals, Trimesh. cbn [faces].
  destruct (grid_faces _ _) as [|f fs] eqn:E; [|eexists; reflexivity].
  apply grid_faces_nil in E. lia.
Qed.


(** A grid whose mesh is returned has at least two rows and two
    columns. *)
Lemma create_terrain_mesh_two (cos : float -> float) (grid : Np.ndarray)
    (meta : Heightmap.metadata) (olat olon : float) (d : Z) (m : mesh) :
  create_terrain_mesh cos grid meta olat olon d = Ok m ->
  (2 <= Np.ncols (downsample_grid grid d))%nat /\
  (2 <= Np.nrows (downsample_grid grid d))%nat.
Proof.
  intros Hm.
  destruct (create_terrain_mesh_inv _ _ _ _ _ _ _ Hm)
    as (ps & vrows & _ & _ & _ & Hfs).
  destruct (create_terrain_mesh_arrays _ _ _ _ _ _ _ Hm) as [_ Hne].
  rewrite Hfs in Hne.
  destruct (Nat.le_gt_cases (Np.ncols (downsample_grid grid d)) 1) as [Hw|Hw];
    [exfalso; apply Hne; apply grid_faces_nil; left; exact Hw|].
  destruct (Nat.le_gt_cases (Np.nrows (downsample_grid grid d)) 1) as [Hh|Hh];
    [exfalso; apply Hne; apply grid_faces_nil; right; exact Hh|].
  split; lia.
Qed.

End MeshFacts.

(** ** Arrays: allocation, slices and slice assignment *)

Module NpFacts.

Import Np.

Lemma imap_from_length {A B : Type} (f : nat -> A -> B) (i : nat) (l : list A) :
  length (imap_from f i l) = length l.
Proof. revert i. induction l; simpl; intros; [|rewrite IHl]; reflexivity. Qed.

Lemma imap_from_nth {A B : Type} (f : nat -> A -> B) (i k : nat) (l : list A)
    (d : B) (d' : A) :
  (k < length l)%nat ->
  nth k (imap_from f i l) d = f (i + k)%nat (nth k l d').
Proof.
  revert i k. induction l as [|x t IH]; simpl; intros i k Hk; [lia|].
  destruct k as [|k].
  - rewrite Nat.add_0_r. reflexivity.
  - rewrite IH by lia. f_equal. lia.
Qed.

Lemma imap_nth {A B : Type} (f : nat -> A -> B) (k : nat) (l : list A)
    (d : B) (d' : A) :
  (k < length l)%nat -> nth k (imap f l) d = f k (nth k l d').
Proof. intros Hk. unfold imap. rewrite imap_from_nth with (d' := d'); auto. Qed.

Lemma wf_row_length (a : ndarray) (r : nat) :
  wf a -> (r < nrows a)%nat -> length (nth r (rows a) []) = ncols a.
Proof.
  intros [Hlen Hall] Hr. rewrite Forall_forall in Hall.
  apply Hall, nth_In. lia.
Qed.

Lemma full_ok (h w : Z) (fill : Py.float) (a : ndarray) :
  full h w fill = Ok a ->
  0 <= h /\ 0 <= w /\ nrows a = Z.to_nat h /\ ncols a = Z.to_nat w /\ wf a /\
  forall r c, (r < nrows a)%nat -> (c < ncols a)%nat -> get a r c = fill.
Proof.
  unfold full. destruct (h <? 0) eqn:Lh; destruct (w <? 0) eqn:Lw;
    cbn [orb]; intros E; try discriminate.
  injection E as <-. apply Z.ltb_ge in Lh, Lw. cbn [nrows ncols].
  repeat split; try assumption.
  - cbn [rows]. apply repeat_length.
  - cbn [rows]. apply Forall_forall. intros l Hl.
    apply repeat_spec in Hl. subst l. apply repeat_length.
  - intros r c Hr Hc. unfold get. cbn [rows].
    rewrite nth_repeat_lt by assumption. apply nth_repeat_lt. assumption.
Qed.

Lemma full_nonneg (h w : Z) (fill : Py.float) :
  0 <= h -> 0 <= w -> exists a, full h w fill = Ok a.
Proof.
  intros Hh Hw. unfold full.
  apply Z.ltb_ge in Hh, Hw. rewrite Hh, Hw. eexists; reflexivity.
Qed.

Lemma full_negative (h w : Z) (fill : Py.float) :
  h < 0 \/ w < 0 -> full h w fill = Raise ValueError.
Proof.
  intros Hneg. unfold full.
  destruct (h <? 0) eqn:Lh; destruct (w <? 0) eqn:Lw; cbn [orb]; try reflexivity.
  apply Z.ltb_ge in Lh, Lw. lia.
Qed.

Lemma slice_bound_range (n : nat) (i : Z) : 0 <= slice_bound n i <= Z.of_nat n.
Proof.
  unfold slice_bound. destruct (i <? 0) eqn:E.
  - apply Z.ltb_lt in E. lia.
  - apply Z.ltb_ge in E. lia.
Qed.

Lemma slice_range_inside (n : nat) (start stop : Z) :
  (fst (slice_range n start stop) + snd (slice_range n start stop) <= n
   \/ snd (slice_range n start stop) = 0)%nat.
Proof.
  unfold slice_range. cbn [fst snd].
  pose proof (slice_bound_range n start). pose proof (slice_bound_range n stop).
  lia.
Qed.

Lemma slice_list_In {A : Type} (l : list A) (first len : nat) (x : A) :
  In x (slice_list l first len) -> In x l.
Proof.
  unfold slice_list. intros H.
  rewrite <- (firstn_skipn first l). apply in_or_app. right.
  rewrite <- (firstn_skipn len (skipn first l)). apply in_or_app. left.
  exact H.
Qed.

Lemma slice_list_length {A : Type} (l : list A) (first len : nat) :
  (first + len <= length l)%nat -> length (slice_list l first len) = len.
Proof.
  intros H. unfold slice_list. rewrite length_firstn, length_skipn. lia.
Qed.

Lemma slice_list_nth {A : Type} (l : list A) (first len k : nat) (d : A) :
  (k < len)%nat -> nth k (slice_list l first len) d = nth (first + k) l d.
Proof.
  intros Hk. unfold slice_list. rewrite nth_firstn.
  apply Nat.ltb_lt in Hk. rewrite Hk. apply nth_skipn.
Qed.

(** Reading a cell of the view [a[rs:re, cs:ce]]. *)
Lemma slice2_get (a : ndarray) (rs re cs ce : Z) (i j : nat) :
  wf a ->
  (i < snd (slice_range (nrows a) rs re))%nat ->
  (j < snd (slice_range (ncols a) cs ce))%nat ->
  get (slice2 a rs re cs ce) i j
  = get a (fst (slice_range (nrows a) rs re) + i)
          (fst (slice_range (ncols a) cs ce) + j).
Proof.
  intros Hwf Hi Hj. unfold slice2, get.
  destruct (slice_range (nrows a) rs re) as [r0 rl] eqn:Er.
  destruct (slice_range (ncols a) cs ce) as [c0 cl] eqn:Ec.
  cbn [fst snd rows] in *.
  pose proof (slice_range_inside (nrows a) rs re) as Hin.
  rewrite Er in Hin. cbn [fst snd] in Hin.
  destruct Hwf as [Hlen Hall].
  rewrite nth_indep with (d' := slice_list [] c0 cl).
  2:{ rewrite length_map, slice_list_length; lia. }
  rewrite (map_nth (fun row => slice_list row c0 cl)).
  rewrite slice_list_nth by assumption.
  rewrite slice_list_nth by assumption. reflexivity.
Qed.

Lemma slice2_shape (a : ndarray) (rs re cs ce : Z) :
  nrows (slice2 a rs re cs ce) = snd (slice_range (nrows a) rs re) /\
  ncols (slice2 a rs re cs ce) = snd (slice_range (ncols a) cs ce).
Proof.
  unfold slice2.
  destruct (slice_range (nrows a) rs re), (slice_range (ncols a) cs ce).
  split; reflexivity.
Qed.

Lemma slice2_wf (a : ndarray) (rs re cs ce : Z) :
  wf a -> wf (slice2 a rs re cs ce).
Proof.
  intros [Hlen Hall]. unfold slice2.
  pose proof (slice_range_inside (nrows a) rs re) as Hr.
  pose proof (slice_range_inside (ncols a) cs ce) as Hc.
  destruct (slice_range (nrows a) rs re) as [r0 rl].
  destruct (slice_range (ncols a) cs ce) as [c0 cl].
  cbn [fst snd] in *. split; cbn [rows nrows ncols].
  - rewrite length_map. unfold slice_list.
    rewrite length_firstn, length_skipn. lia.
  - apply Forall_forall. intros l Hl. apply in_map_iff in Hl.
    destruct Hl as (row & <- & Hrow).
    apply slice_list_In in Hrow.
    rewrite Forall_forall in Hall. specialize (Hall row Hrow).
    unfold slice_list. rewrite length_firstn, length_skipn. lia.
Qed.

(** The effect of [dst[rs:re, cs:ce] = src] on every cell. *)
Lemma setitem_slice2_spec (dst : ndarray) (rs re cs ce : Z) (src g : ndarray) :
  wf dst ->
  setitem_slice2 dst rs re cs ce src = Ok g ->
  let '(r0, rl) := slice_range (nrows dst) rs re in
  let '(c0, cl) := slice_range (ncols dst) cs ce in
  broadcastable (nrows src) rl = true /\
  broadcastable (ncols src) cl = true /\
  nrows g = nrows dst /\ ncols g = ncols dst /\ wf g /\
  forall r c, (r < nrows dst)%nat -> (c < ncols dst)%nat ->
    get g r c =
      if in_span r0 rl r && in_span c0 cl c
      then get src (bindex (nrows src) (r - r0)) (bindex (ncols src) (c - c0))
      else get dst r c.
Proof.
  intros Hwf. unfold setitem_slice2.
  destruct (slice_range (nrows dst) rs re) as [r0 rl].
  destruct (slice_range (ncols dst) cs ce) as [c0 cl].
  destruct (broadcastable (nrows src) rl) eqn:Br; cbn [andb]; [|discriminate].
  destruct (broadcastable (ncols src) cl) eqn:Bc; [|discriminate].
  intros E. injection E as <-. cbn [nrows ncols].
  destruct Hwf as [Hlen Hall].
  repeat split.
  - cbn [rows]. unfold imap. rewrite imap_from_length. assumption.
  - cbn [rows]. apply Forall_forall. intros l Hl.
    apply In_nth with (d := []) in Hl. destruct Hl as (k & Hk & <-).
    unfold imap in Hk. rewrite imap_from_length in Hk.
    rewrite imap_nth with (d' := []) by assumption.
    assert (Hrow : length (nth k (rows dst) []) = ncols dst).
    { rewrite Forall_forall in Hall. apply Hall, nth_In. assumption. }
    destruct (in_span r0 rl k); [|assumption].
    unfold imap. rewrite imap_from_length. assumption.
  - intros r c Hr Hc. unfold get at 1. cbn [rows].
    rewrite imap_nth with (d' := []) by lia.
    assert (Hrow : length (nth r (rows dst) []) = ncols dst).
    { rewrite Forall_forall in Hall. apply Hall, nth_In. lia. }
    destruct (in_span r0 rl r); cbn [andb]; [|reflexivity].
    rewrite imap_nth with (d' := Py.nan) by lia.
    destruct (in_span c0 cl c); reflexivity.
Qed.

End NpFacts.

(** ** The compositor *)

Module HeightmapFacts.

Import Py Np NpFacts Heightmap Spec.

(** One axis of a window: when the source slice broadcasts onto the
    destination slice, the cells written are exactly those of
    [start:stop], each from the source index at the same distance from
    the start of the source slice. *)
Lemma axis_window (n t : nat) (o : Z) (i : nat) :
  let s := Z.max 0 o in
  let e := Z.min (Z.of_nat n) (o + Z.of_nat t) in
  let ss := Z.max 0 (- o) in
  let se := ss + (e - s) in
  broadcastable (snd (slice_range t ss se)) (snd (slice_range n s e)) = true ->
  (i < n)%nat ->
  in_span (fst (slice_range n s e)) (snd (slice_range n s e)) i
  = (s <=? Z.of_nat i) && (Z.of_nat i <? e) /\
  ((s <=? Z.of_nat i) && (Z.of_nat i <? e) = true ->
   bindex (snd (slice_range t ss se)) (i - fst (slice_range n s e))
   = (i - fst (slice_range n s e))%nat /\
   (i - fst (slice_range n s e) < snd (slice_range t ss se))%nat /\
   (fst (slice_range t ss se) + (i - fst (slice_range n s e)))%nat
   = Z.to_nat (ss + (Z.of_nat i - s)) /\
   ss + (Z.of_nat i - s) = Z.of_nat i - o).
Proof.
  intros s e ss se Hb Hi.
  unfold broadcastable in Hb. apply orb_true_iff in Hb.
  rewrite !Nat.eqb_eq in Hb.
  assert (Hspan : forall d0 dl : nat,
      ((d0 <= i)%nat /\ (i < d0 + dl)%nat <-> s <= Z.of_nat i /\ Z.of_nat i < e) ->
      in_span d0 dl i = (s <=? Z.of_nat i) && (Z.of_nat i <? e)).
  { intros d0 dl Hiff. unfold in_span. apply eq_true_iff_eq.
    rewrite !andb_true_iff, Nat.leb_le, Nat.ltb_lt, Z.leb_le, Z.ltb_lt.
    exact Hiff. }
  assert (Hbix : forall sl k : nat, (k < sl)%nat -> bindex sl k = k).
  { intros sl k Hk. unfold bindex.
    destruct (Nat.eqb sl 1) eqn:E1; [apply Nat.eqb_eq in E1; lia | reflexivity]. }
  rewrite andb_true_iff, Z.leb_le, Z.ltb_lt.
  unfold slice_range, slice_bound in *. cbn [fst snd] in *.
  subst s e ss se.
  destruct (Z_lt_le_dec o 0) as [Ho|Ho];
    destruct (Z_lt_le_dec (o + Z.of_nat t) (Z.of_nat n)) as [Hn|Hn];
    [ replace (Z.max 0 o) with 0 in * by lia;
      replace (Z.max 0 (- o)) with (- o) in * by lia;
      replace (Z.min (Z.of_nat n) (o + Z.of_nat t)) with (o + Z.of_nat t) in * by lia
    | replace (Z.max 0 o) with 0 in * by lia;
      replace (Z.max 0 (- o)) with (- o) in * by lia;
      replace (Z.min (Z.of_nat n) (o + Z.of_nat t)) with (Z.of_nat n) in * by lia
    | replace (Z.max 0 o) with o in * by lia;
      replace (Z.max 0 (- o)) with 0 in * by lia;
      replace (Z.min (Z.of_nat n) (o + Z.of_nat t)) with (o + Z.of_nat t) in * by lia
    | replace (Z.max 0 o) with o in * by lia;
      replace (Z.max 0 (- o)) with 0 in * by lia;
      replace (Z.min (Z.of_nat n) (o + Z.of_nat t)) with (Z.of_nat n) in * by lia ].
  - (* o < 0, the tile ends inside the grid *)
    change (0 <? 0) with false in *. cbv iota in *.
    replace (- o <? 0) with false in * by (symmetry; apply Z.ltb_ge; lia).
    replace (- o + (o + Z.of_nat t - 0)) with (Z.of_nat t) in * by lia.
    replace (Z.of_nat t <? 0) with false in * by (symmetry; apply Z.ltb_ge; lia).
    replace (Z.min (Z.of_nat t) (Z.of_nat t)) with (Z.of_nat t) in * by lia.
    replace (Z.min 0 (Z.of_nat n)) with 0 in * by lia.
    destruct (o + Z.of_nat t <? 0) eqn:L; [apply Z.ltb_lt in L | apply Z.ltb_ge in L].
    + replace (Z.min (- o) (Z.of_nat t)) with (Z.of_nat t) in * by lia.
      replace (Z.to_nat (Z.of_nat t - Z.of_nat t)) with 0%nat in * by lia.
      split; [apply Hspan; lia | intros Hc; lia].
    + replace (Z.min (- o) (Z.of_nat t)) with (- o) in * by lia.
      replace (Z.min (o + Z.of_nat t) (Z.of_nat n)) with (o + Z.of_nat t) in * by lia.
      split; [apply Hspan; lia | intros Hc].
      rewrite Hbix by lia. lia.
  - (* o < 0, the tile reaches the end of the grid *)
    change (0 <? 0) with false in *. cbv iota in *.
    replace (- o <? 0) with false in * by (symmetry; apply Z.ltb_ge; lia).
    replace (Z.of_nat n <? 0) with false in * by (symmetry; apply Z.ltb_ge; lia).
    replace (- o + (Z.of_nat n - 0) <? 0) with false in *
      by (symmetry; apply Z.ltb_ge; lia).
    replace (Z.min 0 (Z.of_nat n)) with 0 in * by lia.
    replace (Z.min (Z.of_nat n) (Z.of_nat n)) with (Z.of_nat n) in * by lia.
    replace (Z.min (- o) (Z.of_nat t)) with (- o) in * by lia.
    replace (Z.min (- o + (Z.of_nat n - 0)) (Z.of_nat t))
      with (- o + Z.of_nat n) in * by lia.
    split; [apply Hspan; lia | intros Hc].
    rewrite Hbix by lia. lia.
  - (* 0 <= o, the tile ends inside the grid *)
    change (0 <? 0) with false in *. cbv iota in *.
    replace (o <? 0) with false in * by (symmetry; apply Z.ltb_ge; lia).
    replace (o + Z.of_nat t <? 0) with false in * by (symmetry; apply Z.ltb_ge; lia).
    replace (0 + (o + Z.of_nat t - o)) with (Z.of_nat t) in * by lia.
    replace (Z.of_nat t <? 0) with false in * by (symmetry; apply Z.ltb_ge; lia).
    replace (Z.min (Z.of_nat t) (Z.of_nat t)) with (Z.of_nat t) in * by lia.
    replace (Z.min 0 (Z.of_nat t)) with 0 in * by lia.
    replace (Z.min o (Z.of_nat n)) with o in * by lia.
    replace (Z.min (o + Z.of_nat t) (Z.of_nat n)) with (o + Z.of_nat t) in * by lia.
    split; [apply Hspan; lia | intros Hc].
    rewrite Hbix by lia. lia.
  - (* 0 <= o, the tile reaches the end of the grid *)
    change (0 <? 0) with false in *. cbv iota in *.
    replace (o <? 0) with false in * by (symmetry; apply Z.ltb_ge; lia).
    replace (Z.of_nat n <? 0) with false in * by (symmetry; apply Z.ltb_ge; lia).
    replace (Z.min (Z.of_nat n) (Z.of_nat n)) with (Z.of_nat n) in * by lia.
    replace (Z.min 0 (Z.of_nat t)) with 0 in * by lia.
    destruct (Z_lt_le_dec (Z.of_nat n) o) as [Hon|Hon].
    + replace (Z.min o (Z.of_nat n)) with (Z.of_nat n) in * by lia.
      replace (Z.to_nat (Z.of_nat n - Z.of_nat n)) with 0%nat in * by lia.
      split; [apply Hspan; lia | intros Hc; lia].
    + replace (Z.min o (Z.of_nat n)) with o in * by lia.
      replace (0 + (Z.of_nat n - o) <? 0) with false in *
        by (symmetry; apply Z.ltb_ge; lia).
      replace (Z.min (0 + (Z.of_nat n - o)) (Z.of_nat t))
        with (Z.of_nat n - o) in * by lia.
      split; [apply Hspan; lia | intros Hc].
      rewrite Hbix by lia. lia.
Qed.

(** The effect of the assignment of one tile on every cell. *)
Lemma paste_spec (grid : ndarray) (tile : Tile) (origin_row origin_col : Z)
    (g : ndarray) :
  wf grid -> wf (data tile) ->
  let w := make_window (Z.of_nat (nrows grid)) (Z.of_nat (ncols grid))
             (Z.of_nat (nrows (data tile))) (Z.of_nat (ncols (data tile)))
             origin_row origin_col in
  paste grid tile w = Ok g ->
  nrows g = nrows grid /\ ncols g = ncols grid /\ wf g /\
  forall r c, (r < nrows grid)%nat -> (c < ncols grid)%nat ->
    get g r c = if covers w r c then source_cell tile w r c else get grid r c.
Proof.
  intros Hwf Hwft w Hp. unfold paste in Hp.
  pose proof (setitem_slice2_spec _ _ _ _ _ _ _ Hwf Hp) as Hspec.
  destruct (slice2_shape (data tile) (src_row_start w) (src_row_end w)
              (src_col_start w) (src_col_end w)) as [Hsr Hsc].
  destruct (slice_range (nrows grid) (row_start w) (row_end w))
    as [r0 rl] eqn:Er.
  destruct (slice_range (ncols grid) (col_start w) (col_end w))
    as [c0 cl] eqn:Ec.
  destruct Hspec as (Br & Bc & Hnr & Hnc & Hwfg & Hget).
  rewrite Hsr in Br. rewrite Hsc in Bc.
  split; [assumption|]. split; [assumption|]. split; [assumption|].
  intros r c Hr Hc. rewrite (Hget r c Hr Hc).
  pose proof (axis_window (nrows grid) (nrows (data tile)) origin_row r) as Ar.
  pose proof (axis_window (ncols grid) (ncols (data tile)) origin_col c) as Ac.
  cbv zeta in Ar, Ac.
  change (Z.max 0 origin_row) with (row_start w) in Ar.
  change (Z.min (Z.of_nat (nrows grid)) (origin_row + Z.of_nat (nrows (data tile))))
    with (row_end w) in Ar.
  change (Z.max 0 (- origin_row)) with (src_row_start w) in Ar.
  change (src_row_start w + (row_end w - row_start w)) with (src_row_end w) in Ar.
  change (Z.max 0 origin_col) with (col_start w) in Ac.
  change (Z.min (Z.of_nat (ncols grid)) (origin_col + Z.of_nat (ncols (data tile))))
    with (col_end w) in Ac.
  change (Z.max 0 (- origin_col)) with (src_col_start w) in Ac.
  change (src_col_start w + (col_end w - col_start w)) with (src_col_end w) in Ac.
  rewrite Er in Ar. rewrite Ec in Ac. cbn [fst snd] in Ar, Ac.
  destruct (Ar Br Hr) as [Er1 Er2]. destruct (Ac Bc Hc) as [Ec1 Ec2].
  unfold covers. rewrite Er1, Ec1.
  destruct ((row_start w <=? Z.of_nat r) && (Z.of_nat r <? row_end w)) eqn:Cr;
    cbn [andb]; [|reflexivity].
  destruct ((col_start w <=? Z.of_nat c) && (Z.of_nat c <? col_end w)) eqn:Cc;
    [|reflexivity].
  destruct (Er2 eq_refl) as (Br1 & Br2 & Br3 & _).
  destruct (Ec2 eq_refl) as (Bc1 & Bc2 & Bc3 & _).
  rewrite Hsr, Hsc, Br1, Bc1.
  rewrite slice2_get by assumption.
  unfold source_cell. rewrite Br3, Bc3. reflexivity.
Qed.

(** A covered cell is read at its distance from the tile's origin. *)
Lemma source_cell_origin (tile : Tile) (height width : nat)
    (origin_row origin_col : Z) (r c : nat) :
  let w := make_window (Z.of_nat height) (Z.of_nat width)
             (Z.of_nat (nrows (data tile))) (Z.of_nat (ncols (data tile)))
             origin_row origin_col in
  covers w r c = true ->
  source_cell tile w r c
  = get (data tile) (Z.to_nat (Z.of_nat r - origin_row))
      (Z.to_nat (Z.of_nat c - origin_col)) /\
  0 <= Z.of_nat r - origin_row < Z.of_nat (nrows (data tile)) /\
  0 <= Z.of_nat c - origin_col < Z.of_nat (ncols (data tile)).
Proof.
  intros w Hc. unfold covers in Hc.
  rewrite !andb_true_iff, !Z.leb_le, !Z.ltb_lt in Hc.
  unfold source_cell. subst w. cbn [make_window row_start row_end col_start
    col_end src_row_start src_col_start] in *.
  replace (Z.max 0 (- origin_row) + (Z.of_nat r - Z.max 0 origin_row))
    with (Z.of_nat r - origin_row) by lia.
  replace (Z.max 0 (- origin_col) + (Z.of_nat c - Z.max 0 origin_col))
    with (Z.of_nat c - origin_col) by lia.
  split; [reflexivity | lia].
Qed.

Section Loop.

Variables (scale_lon0 scale_lat0 : float) (clip : box) (height width : Z).

Lemma tile_window_shape (tile : Tile) (w : window) :
  tile_window scale_lon0 scale_lat0 clip height width tile = Ok (Some w) ->
  exists origin_row origin_col,
    tile_origin scale_lon0 scale_lat0 clip tile
    = Ok (Some (origin_row, origin_col)) /\
    w = make_window height width (Z.of_nat (nrows (data tile)))
          (Z.of_nat (ncols (data tile))) origin_row origin_col.
Proof.
  unfold tile_window. intros H. apply bind_ok in H.
  destruct H as ([[orow ocol]|] & Ho & H); [|discriminate].
  injection H as <-. exists orow, ocol. split; [assumption | reflexivity].
Qed.

Lemma composite_tile_spec (grid : ndarray) (tile : Tile) (g : ndarray) :
  wf grid -> wf (data tile) ->
  Z.of_nat (nrows grid) = height -> Z.of_nat (ncols grid) = width ->
  composite_tile scale_lon0 scale_lat0 clip height width grid tile = Ok g ->
  nrows g = nrows grid /\ ncols g = ncols grid /\ wf g /\
  forall r c, (r < nrows grid)%nat -> (c < ncols grid)%nat ->
    get g r c = cell_step scale_lon0 scale_lat0 clip height width r c (get grid r c) tile.
Proof.
  intros Hwf Hwft Hh Hw Hc. unfold composite_tile in Hc.
  apply bind_ok in Hc. destruct Hc as (ow & How & Hc).
  unfold cell_step. rewrite How.
  destruct ow as [w|].
  - destruct (tile_window_shape _ _ How) as (orow & ocol & _ & Ew).
    rewrite <- Hh, <- Hw in Ew. subst w.
    exact (paste_spec _ _ _ _ _ Hwf Hwft Hc).
  - injection Hc as <-. auto.
Qed.

Lemma composite_loop_spec (tiles : list Tile) (grid g : ndarray) :
  wf grid -> Forall (fun t => wf (data t)) tiles ->
  Z.of_nat (nrows grid) = height -> Z.of_nat (ncols grid) = width ->
  foldM (composite_tile scale_lon0 scale_lat0 clip height width) tiles grid
  = Ok g ->
  nrows g = nrows grid /\ ncols g = ncols grid /\ wf g /\
  forall r c, (r < nrows grid)%nat -> (c < ncols grid)%nat ->
    get g r c = fold_left (cell_step scale_lon0 scale_lat0 clip height width r c) tiles (get grid r c).
Proof.
  intros Hwf Hall. revert grid Hwf.
  induction Hall as [|t ts Ht _ IH]; intros grid Hwf Hh Hw Hf; simpl in Hf.
  - injection Hf as <-. auto.
  - apply bind_ok in Hf. destruct Hf as (g1 & Hg1 & Hf).
    destruct (composite_tile_spec _ _ _ Hwf Ht Hh Hw Hg1)
      as (Hr1 & Hc1 & Hwf1 & Hget1).
    destruct (IH g1 Hwf1) as (Hr2 & Hc2 & Hwf2 & Hget2);
      [congruence | congruence | assumption |].
    split; [congruence|]. split; [congruence|]. split; [assumption|].
    intros r c Hr Hc. simpl. rewrite Hget2 by congruence.
    rewrite Hget1 by assumption. reflexivity.
Qed.

(** A cell that no later tile covers keeps its value. *)
Lemma cell_fold_uncovered (tiles : list Tile) (r c : nat) (v : float) :
  (forall t w, In t tiles ->
     tile_window scale_lon0 scale_lat0 clip height width t = Ok (Some w) ->
     covers w r c = false) ->
  fold_left (cell_step scale_lon0 scale_lat0 clip height width r c) tiles v = v.
Proof.
  revert v. induction tiles as [|t ts IH]; intros v Hun; simpl; [reflexivity|].
  rewrite IH by (intros t' w' Hin; apply Hun; right; assumption).
  unfold cell_step.
  destruct (tile_window scale_lon0 scale_lat0 clip height width t)
    as [[w|]|] eqn:E; try reflexivity.
  rewrite (Hun t w (or_introl eq_refl) E). reflexivity.
Qed.

(** The last tile that covers a cell decides its value. *)
Lemma cell_fold_last (pre post : list Tile) (t : Tile) (w : window)
    (r c : nat) (v : float) :
  tile_window scale_lon0 scale_lat0 clip height width t = Ok (Some w) ->
  covers w r c = true ->
  (forall t' w', In t' post ->
     tile_window scale_lon0 scale_lat0 clip height width t' = Ok (Some w') ->
     covers w' r c = false) ->
  fold_left (cell_step scale_lon0 scale_lat0 clip height width r c) (pre ++ t :: post) v = source_cell t w r c.
Proof.
  intros Hw Hc Hpost. rewrite fold_left_app. simpl.
  rewrite cell_fold_uncovered by assumption.
  unfold cell_step. rewrite Hw, Hc. reflexivity.
Qed.

End Loop.

(** What [composite] returns, cell by cell. *)
Lemma composite_spec (tiles : list Tile) (clip : box) (g : ndarray)
    (height width : Z) :
  Forall (fun t => wf (data t)) tiles ->
  composite tiles clip = Ok (g, height, width) ->
  exists t0 rest,
    tiles = t0 :: rest /\
    grid_size (scale_lon t0) (scale_lat t0) clip = Ok (height, width) /\
    0 <= height /\ 0 <= width /\
    Z.of_nat (nrows g) = height /\ Z.of_nat (ncols g) = width /\ wf g /\
    forall r c, (r < nrows g)%nat -> (c < ncols g)%nat ->
      get g r c
      = fold_left (cell_step (scale_lon t0) (scale_lat t0) clip height width r c)
          tiles nan.
Proof.
  intros Hall Hc. unfold composite in Hc.
  destruct tiles as [|t0 rest]; [discriminate|].
  apply bind_ok in Hc. destruct Hc as ([h w] & Hsize & Hc).
  apply bind_ok in Hc. destruct Hc as (g0 & Hfull & Hc).
  apply bind_ok in Hc. destruct Hc as (g1 & Hloop & Hc).
  injection Hc as -> -> ->.
  destruct (full_ok _ _ _ _ Hfull) as (Hh & Hw & Hnr & Hnc & Hwf0 & Hget0).
  destruct (composite_loop_spec (scale_lon t0) (scale_lat t0) clip height width
              (t0 :: rest) g0 g Hwf0 Hall) as (Hr & Hcn & Hwf & Hget);
    [lia | lia | assumption |].
  exists t0, rest.
  split; [reflexivity|]. split; [assumption|].
  split; [assumption|]. split; [assumption|].
  split; [lia|]. split; [lia|]. split; [assumption|].
  intros r c Hrr Hcc. rewrite Hget by congruence.
  rewrite Hget0 by congruence. reflexivity.
Qed.

End HeightmapFacts.

(** ** Float arithmetic on equal and zero operands *)

Module PyFacts.

Import Py Spec.

Lemma sub_diag (x : float) : isfinite x = true -> sub x x = zero.
Proof.
  destruct x as [s|s| |s m e]; try discriminate; intros _.
  - destruct s; reflexivity.
  - unfold sub, SFsub. rewrite Z.sub_diag. reflexivity.
Qed.

Lemma div_ceil_divisor (x y q : float) (n : Z) :
  div x y = Ok q -> ceil q = Ok n -> iszero y = false /\ isnan y = false.
Proof.
  unfold div. destruct (iszero y) eqn:Z; [discriminate|].
  intros H. injection H as <-. intros Hc. split; [reflexivity|].
  destruct y; try reflexivity.
  destruct x; discriminate.
Qed.

Lemma round_div_zero (y : float) :
  iszero y = false -> isnan y = false ->
  (q <- div zero y ;; round q) = Ok 0.
Proof.
  destruct y as [s|s| |s m e]; try discriminate; intros _ _; reflexivity.
Qed.

End PyFacts.

(** ** A tile pasted at its own origin *)

Module RoundTripFacts.

Import Py PyFacts Np NpFacts Heightmap HeightmapFacts Spec.

Lemma slice_range_whole (n : nat) :
  slice_range n 0 (Z.of_nat n) = (0%nat, n).
Proof.
  unfold slice_range, slice_bound. change (0 <? 0) with false. cbv iota.
  replace (Z.of_nat n <? 0) with false by (symmetry; apply Z.ltb_ge; lia).
  f_equal; lia.
Qed.

(** The window of a tile that fills the whole grid. *)
Lemma make_window_whole (h w : nat) :
  make_window (Z.of_nat h) (Z.of_nat w) (Z.of_nat h) (Z.of_nat w) 0 0
  = mk_window 0 (Z.of_nat h) 0 (Z.of_nat w) 0 (Z.of_nat h) 0 (Z.of_nat w).
Proof.
  unfold make_window. f_equal; lia.
Qed.

Lemma paste_whole (grid : ndarray) (tile : Tile) :
  nrows grid = nrows (data tile) -> ncols grid = ncols (data tile) ->
  exists g,
    paste grid tile
      (make_window (Z.of_nat (nrows grid)) (Z.of_nat (ncols grid))
         (Z.of_nat (nrows (data tile))) (Z.of_nat (ncols (data tile))) 0 0)
    = Ok g.
Proof.
  intros Hr Hc. rewrite <- Hr, <- Hc, make_window_whole.
  unfold paste, setitem_slice2.
  cbn [row_start row_end col_start col_end src_row_start src_row_end
       src_col_start src_col_end].
  rewrite !slice_range_whole.
  destruct (slice2_shape (data tile) 0 (Z.of_nat (nrows grid)) 0
              (Z.of_nat (ncols grid))) as [Hsr Hsc].
  rewrite Hsr, Hsc, Hr, Hc, !slice_range_whole. cbn [snd].
  unfold broadcastable. rewrite !Nat.eqb_refl. cbn [orb andb].
  eexists; reflexivity.
Qed.

Lemma bounds_ok (t : Tile) (b : box) :
  bounds t = Ok b ->
  exists w h,
    int_mul (Z.of_nat (ncols (data t))) (scale_lon t) = Ok w /\
    int_mul (Z.of_nat (nrows (data t))) (scale_lat t) = Ok h /\
    b = (origin_lon t, sub (origin_lat t) h, add (origin_lon t) w, origin_lat t).
Proof.
  unfold bounds. intros H.
  apply bind_ok in H. destruct H as (w & Hw & H).
  apply bind_ok in H. destruct H as (h & Hh & H).
  injection H as <-. exists w, h. auto.
Qed.

Lemma grid_size_ok (sl st : float) (clip : box) (h w : Z) :
  grid_size sl st clip = Ok (h, w) ->
  iszero sl = false /\ isnan sl = false /\
  iszero st = false /\ isnan st = false.
Proof.
  destruct clip as [[[min_lon min_lat] max_lon] max_lat].
  unfold grid_size. intros H.
  apply bind_ok in H. destruct H as (qw & Hqw & H).
  apply bind_ok in H. destruct H as (w' & Hw & H).
  apply bind_ok in H. destruct H as (qh & Hqh & H).
  apply bind_ok in H. destruct H as (h' & Hh & H).
  destruct (div_ceil_divisor _ _ _ _ Hqw Hw).
  destruct (div_ceil_divisor _ _ _ _ Hqh Hh). auto.
Qed.

(** A tile clipped to its own, non-inverted box is not skipped and
    lands on the grid's origin. *)
Lemma tile_origin_self (t : Tile) (min_lat max_lon : float) :
  bounds t = Ok (origin_lon t, min_lat, max_lon, origin_lat t) ->
  isfinite (origin_lon t) = true -> isfinite (origin_lat t) = true ->
  iszero (scale_lon t) = false -> isnan (scale_lon t) = false ->
  iszero (scale_lat t) = false -> isnan (scale_lat t) = false ->
  ltb max_lon (origin_lon t) = false ->
  ltb (origin_lat t) min_lat = false ->
  tile_origin (scale_lon t) (scale_lat t)
    (origin_lon t, min_lat, max_lon, origin_lat t) t
  = Ok (Some (0, 0)).
Proof.
  intros Hb Hfo Hfa Hz1 Hn1 Hz2 Hn2 Hlon Hlat.
  unfold tile_origin. rewrite Hb. cbn [bind].
  unfold gtb, ltb in *. rewrite Hlon, Hlat. cbn [orb].
  rewrite !sub_diag by assumption.
  pose proof (round_div_zero _ Hz1 Hn1) as R1.
  pose proof (round_div_zero _ Hz2 Hn2) as R2.
  destruct (div zero (scale_lon t)) as [q1|]; [|discriminate]. cbn [bind] in *.
  rewrite R1. cbn [bind].
  destruct (div zero (scale_lat t)) as [q2|]; [|discriminate]. cbn [bind] in *.
  rewrite R2. reflexivity.
Qed.

End RoundTripFacts.

(** ** Float comparison, [max] and [min] *)

Module OrderFacts.

Import Py Spec.

Lemma SFcompare_antisym (x y : float) :
  SFcompare y x = option_map CompOpp (SFcompare x y).
Proof.
  destruct x as [sx|sx| |sx mx ex], y as [sy|sy| |sy my ey];
    try reflexivity;
    try (destruct sx; reflexivity); try (destruct sy; reflexivity);
    try (destruct sx, sy; reflexivity).
  cbn [SFcompare option_map]. f_equal.
  rewrite (Z.compare_antisym ex ey).
  assert (Em : Pos.compare_cont Eq my mx = CompOpp (Pos.compare_cont Eq mx my))
    by (rewrite (Pos.compare_cont_antisym mx my Eq); reflexivity).
  rewrite Em.
  destruct sx, sy; try reflexivity;
    destruct (ex ?= ey); cbn [CompOpp]; try reflexivity;
    destruct (Pos.compare_cont Eq mx my); reflexivity.
Qed.

Lemma SFcompare_refl (x : float) : isnan x = false -> SFcompare x x = Some Eq.
Proof.
  destruct x as [s|s| |s m e]; try discriminate; intros _.
  - reflexivity.
  - destruct s; reflexivity.
  - cbn [SFcompare]. rewrite Z.compare_refl.
    replace (Pos.compare_cont Eq m m) with Eq
      by (symmetry; apply Pos.compare_cont_refl).
    destruct s; reflexivity.
Qed.

Lemma SFcompare_some (x y : float) :
  isnan x = false -> isnan y = false -> exists c, SFcompare x y = Some c.
Proof.
  destruct x, y; try discriminate; intros _ _; eexists; reflexivity.
Qed.

Lemma leb_refl (x : float) : isnan x = false -> leb x x = true.
Proof. intros H. unfold leb, SFleb. rewrite SFcompare_refl; auto. Qed.

Lemma ltb_leb (x y : float) : ltb x y = true -> leb x y = true.
Proof.
  unfold ltb, leb, SFltb, SFleb.
  destruct (SFcompare x y) as [[| |]|]; auto.
Qed.

Lemma not_ltb_leb (x y : float) :
  isnan x = false -> isnan y = false -> ltb x y = false -> leb y x = true.
Proof.
  intros Hx Hy. unfold ltb, leb, SFltb, SFleb.
  rewrite (SFcompare_antisym x y).
  destruct (SFcompare_some x y Hx Hy) as [c ->].
  destruct c; cbn; auto.
Qed.

Lemma max_upper (a b : float) :
  isnan a = false -> isnan b = false ->
  leb a (max a b) = true /\ leb b (max a b) = true.
Proof.
  intros Ha Hb. unfold max, gtb. fold (ltb a b).
  destruct (ltb a b) eqn:L.
  - split; [apply ltb_leb; assumption | apply leb_refl; assumption].
  - split; [apply leb_refl; assumption | apply not_ltb_leb; assumption].
Qed.

Lemma min_lower (a b : float) :
  isnan a = false -> isnan b = false ->
  leb (min a b) a = true /\ leb (min a b) b = true.
Proof.
  intros Ha Hb. unfold min.
  destruct (ltb b a) eqn:L.
  - split; [apply ltb_leb; assumption | apply leb_refl; assumption].
  - split; [apply leb_refl; assumption | apply not_ltb_leb; assumption].
Qed.

End OrderFacts.

(** ** When the compositing loop raises nothing *)

Module LoopFacts.

Import Py Np NpFacts Heightmap HeightmapFacts Spec.

Lemma axis_broadcast_ok (n t : nat) (o : Z) :
  within_reach n t o ->
  let s := Z.max 0 o in
  let e := Z.min (Z.of_nat n) (o + Z.of_nat t) in
  let ss := Z.max 0 (- o) in
  let se := ss + (e - s) in
  broadcastable (snd (slice_range t ss se)) (snd (slice_range n s e)) = true.
Proof.
  intros Ho s e ss se. unfold within_reach in Ho.
  unfold broadcastable. apply orb_true_iff. left. apply Nat.eqb_eq.
  unfold slice_range, slice_bound. cbn [fst snd]. subst s e ss se.
  destruct (Z_lt_le_dec o 0) as [Ho0|Ho0];
    destruct (Z_lt_le_dec (o + Z.of_nat t) (Z.of_nat n)) as [Hn|Hn];
    [ replace (Z.max 0 o) with 0 by lia;
      replace (Z.max 0 (- o)) with (- o) by lia;
      replace (Z.min (Z.of_nat n) (o + Z.of_nat t)) with (o + Z.of_nat t) by lia
    | replace (Z.max 0 o) with 0 by lia;
      replace (Z.max 0 (- o)) with (- o) by lia;
      replace (Z.min (Z.of_nat n) (o + Z.of_nat t)) with (Z.of_nat n) by lia
    | replace (Z.max 0 o) with o by lia;
      replace (Z.max 0 (- o)) with 0 by lia;
      replace (Z.min (Z.of_nat n) (o + Z.of_nat t)) with (o + Z.of_nat t) by lia
    | replace (Z.max 0 o) with o by lia;
      replace (Z.max 0 (- o)) with 0 by lia;
      replace (Z.min (Z.of_nat n) (o + Z.of_nat t)) with (Z.of_nat n) by lia ].
  - change (0 <? 0) with false. cbv iota.
    replace (- o <? 0) with false by (symmetry; apply Z.ltb_ge; lia).
    replace (- o + (o + Z.of_nat t - 0)) with (Z.of_nat t) by lia.
    replace (Z.of_nat t <? 0) with false by (symmetry; apply Z.ltb_ge; lia).
    replace (o + Z.of_nat t <? 0) with false by (symmetry; apply Z.ltb_ge; lia).
    lia.
  - change (0 <? 0) with false. cbv iota.
    replace (- o <? 0) with false by (symmetry; apply Z.ltb_ge; lia).
    replace (Z.of_nat n <? 0) with false by (symmetry; apply Z.ltb_ge; lia).
    replace (- o + (Z.of_nat n - 0) <? 0) with false
      by (symmetry; apply Z.ltb_ge; lia).
    lia.
  - change (0 <? 0) with false. cbv iota.
    replace (o <? 0) with false by (symmetry; apply Z.ltb_ge; lia).
    replace (o + Z.of_nat t <? 0) with false by (symmetry; apply Z.ltb_ge; lia).
    replace (0 + (o + Z.of_nat t - o)) with (Z.of_nat t) by lia.
    replace (Z.of_nat t <? 0) with false by (symmetry; apply Z.ltb_ge; lia).
    lia.
  - change (0 <? 0) with false. cbv iota.
    replace (o <? 0) with false by (symmetry; apply Z.ltb_ge; lia).
    replace (Z.of_nat n <? 0) with false by (symmetry; apply Z.ltb_ge; lia).
    replace (0 + (Z.of_nat n - o) <? 0) with false
      by (symmetry; apply Z.ltb_ge; lia).
    lia.
Qed.

Lemma paste_ok (grid : ndarray) (tile : Tile) (origin_row origin_col : Z) :
  within_reach (nrows grid) (nrows (data tile)) origin_row ->
  within_reach (ncols grid) (ncols (data tile)) origin_col ->
  exists g,
    paste grid tile
      (make_window (Z.of_nat (nrows grid)) (Z.of_nat (ncols grid))
         (Z.of_nat (nrows (data tile))) (Z.of_nat (ncols (data tile)))
         origin_row origin_col) = Ok g.
Proof.
  intros Hr Hc. unfold paste, setitem_slice2.
  pose proof (axis_broadcast_ok _ _ _ Hr) as Br.
  pose proof (axis_broadcast_ok _ _ _ Hc) as Bc.
  cbv zeta in Br, Bc.
  destruct (slice2_shape (data tile)
    (src_row_start (make_window (Z.of_nat (nrows grid)) (Z.of_nat (ncols grid))
         (Z.of_nat (nrows (data tile))) (Z.of_nat (ncols (data tile)))
         origin_row origin_col))
    (src_row_end (make_window (Z.of_nat (nrows grid)) (Z.of_nat (ncols grid))
         (Z.of_nat (nrows (data tile))) (Z.of_nat (ncols (data tile)))
         origin_row origin_col))
    (src_col_start (make_window (Z.of_nat (nrows grid)) (Z.of_nat (ncols grid))
         (Z.of_nat (nrows (data tile))) (Z.of_nat (ncols (data tile)))
         origin_row origin_col))
    (src_col_end (make_window (Z.of_nat (nrows grid)) (Z.of_nat (ncols grid))
         (Z.of_nat (nrows (data tile))) (Z.of_nat (ncols (data tile)))
         origin_row origin_col))) as [Hsr Hsc].
  rewrite Hsr, Hsc.
  cbn [make_window row_start row_end col_start col_end src_row_start
       src_row_end src_col_start src_col_end] in *.
  destruct (slice_range (nrows grid) (Z.max 0 origin_row)
              (Z.min (Z.of_nat (nrows grid))
                 (origin_row + Z.of_nat (nrows (data tile))))) as [r0 rl].
  destruct (slice_range (ncols grid) (Z.max 0 origin_col)
              (Z.min (Z.of_nat (ncols grid))
                 (origin_col + Z.of_nat (ncols (data tile))))) as [c0 cl].
  cbn [snd] in Br, Bc. rewrite Br, Bc. cbn [andb]. eexists; reflexivity.
Qed.

Section Loop.

Variables (scale_lon0 scale_lat0 : float) (clip : box) (height width : nat).

Lemma composite_loop_ok (tiles : list Tile) (grid : ndarray) :
  wf grid -> nrows grid = height -> ncols grid = width ->
  Forall (fun t => wf (data t)) tiles ->
  Forall (placed scale_lon0 scale_lat0 clip height width) tiles ->
  exists g,
    foldM (composite_tile scale_lon0 scale_lat0 clip (Z.of_nat height)
             (Z.of_nat width)) tiles grid = Ok g.
Proof.
  intros Hwf Hh Hw Hall Hpl. revert grid Hwf Hh Hw Hall.
  induction Hpl as [|t ts Ht _ IH]; intros grid Hwf Hh Hw Hall; cbn [foldM].
  - eexists; reflexivity.
  - inversion Hall as [|t' ts' Hwt Hall']; subst t' ts'.
    assert (Hstep : exists g1,
              composite_tile scale_lon0 scale_lat0 clip
                (Z.of_nat height) (Z.of_nat width) grid t = Ok g1).
    { destruct Ht as (o & Ho & Hreach).
      unfold composite_tile, tile_window. rewrite Ho. cbn [bind].
      destruct o as [[orow ocol]|]; [|eexists; reflexivity].
      destruct Hreach as [Hr Hc]. rewrite <- Hh in Hr. rewrite <- Hw in Hc.
      rewrite <- Hh, <- Hw. apply paste_ok; assumption. }
    destruct Hstep as [g1 Hg1]. rewrite Hg1. cbn [bind].
    assert (Hh' : Z.of_nat (nrows grid) = Z.of_nat height) by congruence.
    assert (Hw' : Z.of_nat (ncols grid) = Z.of_nat width) by congruence.
    destruct (composite_tile_spec _ _ _ _ _ _ _ _ Hwf Hwt Hh' Hw' Hg1)
      as (Hr1 & Hc1 & Hwf1 & _).
    apply IH; [assumption | congruence | congruence | assumption].
Qed.

End Loop.

End LoopFacts.

(** ** The chunk partitioner *)

Module ChunkFacts.

Import Py Np NpFacts Mesh MeshFacts Spec.

(** A nested monadic map over [range h] and [range w], read row-major. *)
Lemma mapM_grid {B : Type} (f : nat -> nat -> result B) (h w : Z)
    (rows : list (list B)) :
  mapM (fun r => mapM (f r) (range w)) (range h) = Ok rows ->
  length (concat rows) = (Z.to_nat h * Z.to_nat w)%nat /\
  forall r c, (r < Z.to_nat h)%nat -> (c < Z.to_nat w)%nat ->
    exists y, f r c = Ok y /\
              nth_error (concat rows) (r * Z.to_nat w + c) = Some y.
Proof.
  unfold range. intros Hm.
  assert (Hall : Forall (fun l => length l = Z.to_nat w) rows).
  { eapply mapM_Forall; [exact Hm|]. cbv beta. intros r l _ Hl.
    apply mapM_length in Hl. rewrite Hl, length_seq. reflexivity. }
  split.
  - rewrite (concat_length_uniform _ _ Hall).
    apply mapM_length in Hm. rewrite Hm, length_seq. reflexivity.
  - intros r c Hr Hc.
    destruct (mapM_nth_error _ _ _ r r Hm) as (l & Hl & Hnth);
      [apply seq_nth_error; assumption|].
    cbv beta in Hl.
    destruct (mapM_nth_error _ _ _ c c Hl) as (y & Hy & Hny);
      [apply seq_nth_error; assumption|].
    exists y. split; [assumption|].
    rewrite concat_nth_error_uniform by assumption.
    rewrite (nth_error_nth _ _ [] Hnth). assumption.
Qed.

Lemma downsample_grid_1 (grid : ndarray) : downsample_grid grid 1 = grid.
Proof. reflexivity. Qed.

Lemma mul_int_1 (x : float) : mul_int x 1 = Ok (mul x (const 1)).
Proof. reflexivity. Qed.

Section Chunks.

Variable cos : float -> float.
Variables (grid : ndarray) (meta : Heightmap.metadata) (olat olon : float).
Variables (cs : Z) (prefix : string).

(** What [create_chunked_terrain] returns without downsampling. *)
Lemma create_chunked_terrain_inv (man : manifest) (meshes : list mesh) :
  create_chunked_terrain cos grid meta olat olon cs 1 prefix
  = Ok (man, meshes) ->
  exists qx qz chunks,
    int_truediv (Z.of_nat (ncols grid)) cs = Ok qx /\
    ceil qx = Ok (chunks_x man) /\
    int_truediv (Z.of_nat (nrows grid)) cs = Ok qz /\
    ceil qz = Ok (chunks_z man) /\
    chunk_size man = cs /\
    mapM (fun chunk_row =>
            mapM (make_chunk cos grid meta olat olon cs
                    (mul (Heightmap.pixelSizeDeg meta) (const 1)) prefix
                    chunk_row)
              (range (chunks_x man)))
      (range (chunks_z man)) = Ok chunks /\
    files man = map snd (concat chunks) /\
    meshes = map fst (concat chunks).
Proof.
  unfold create_chunked_terrain. rewrite downsample_grid_1, mul_int_1.
  cbn [bind]. intros H.
  apply bind_ok in H. destruct H as (qx & Hqx & H).
  apply bind_ok in H. destruct H as (cx & Hcx & H).
  apply bind_ok in H. destruct H as (qz & Hqz & H).
  apply bind_ok in H. destruct H as (cz & Hcz & H).
  apply bind_ok in H. destruct H as (chunks & Hch & H).
  injection H as <- <-. cbn [chunks_x chunks_z chunk_size files].
  exists qx, qz, chunks. repeat split; assumption.
Qed.

(** What the body of the chunk loop returns. *)
Lemma make_chunk_inv (ps : float) (chunk_row chunk_col : nat) (m : mesh)
    (e : chunk_entry) :
  make_chunk cos grid meta olat olon cs ps prefix chunk_row chunk_col
  = Ok (m, e) ->
  let '(row_start, row_end) :=
    chunk_rows cs (Z.of_nat (nrows grid)) chunk_row in
  let '(col_start, col_end) :=
    chunk_cols cs (Z.of_nat (ncols grid)) chunk_col in
  let chunk_grid := slice2 grid row_start row_end col_start col_end in
  exists chunk_meta,
    make_chunk_meta meta ps row_start col_start chunk_grid = Ok chunk_meta /\
    create_terrain_mesh cos chunk_grid chunk_meta olat olon 1 = Ok m /\
    file e = chunk_file_name prefix chunk_col chunk_row /\
    chunk_x e = chunk_col /\ chunk_z e = chunk_row.
Proof.
  unfold make_chunk.
  destruct (chunk_rows cs (Z.of_nat (nrows grid)) chunk_row) as [rs re].
  destruct (chunk_cols cs (Z.of_nat (ncols grid)) chunk_col) as [c0 ce].
  intros H.
  apply bind_ok in H. destruct H as (chunk_meta & Hmeta & H).
  apply bind_ok in H. destruct H as (m' & Hm & H).
  apply bind_ok in H. destruct H as (a & _ & H).
  apply bind_ok in H. destruct H as (b & _ & H).
  apply bind_ok in H. destruct H as (c & _ & H).
  apply bind_ok in H. destruct H as (d & _ & H).
  apply bind_ok in H. destruct H as ([x1 z1] & _ & H).
  apply bind_ok in H. destruct H as ([x2 z2] & _ & H).
  injection H as <- <-. exists chunk_meta. repeat split; assumption.
Qed.

End Chunks.

End ChunkFacts.

(** ** The ceiling of an integer quotient *)

Module CeilFacts.

Import Py Spec.

Lemma shr_1_spec (m : Z) (r s : bool) :
  0 <= m ->
  shr_1 (Build_shr_record m r s)
  = Build_shr_record (m / 2) (Z.odd m) (r || s).
Proof.
  intros Hm. destruct m as [|p|p]; [reflexivity| |lia].
  destruct p as [p|p|]; cbn [shr_1].
  - replace (Z.pos p~1 / 2) with (Z.pos p)
      by (apply Z.div_unique with (r := 1); lia).
    reflexivity.
  - replace (Z.pos p~0 / 2) with (Z.pos p)
      by (apply Z.div_unique with (r := 0); lia).
    reflexivity.
  - reflexivity.
Qed.

(** The position of the remainder [r] of a division by [b]. *)
Lemma new_location_spec (b r : Z) :
  0 <= r < b ->
  new_location b r
  = if r =? 0 then loc_Exact else loc_Inexact (2 * r ?= b).
Proof.
  intros Hr. unfold new_location.
  destruct (Z.even b) eqn:Eb;
    unfold new_location_even, new_location_odd;
    destruct (r =? 0) eqn:E0; try reflexivity.
  f_equal.
  assert (Hodd : Z.odd b = true) by (rewrite <- Z.negb_even, Eb; reflexivity).
  apply Z.odd_spec in Hodd. destruct Hodd as [k Hk].
  destruct (2 * r + 1 ?= b) eqn:C1; destruct (2 * r ?= b) eqn:C2;
    try reflexivity;
    rewrite ?Z.compare_eq_iff, ?Z.compare_lt_iff, ?Z.compare_gt_iff in *; lia.
Qed.

Lemma Zdigits2_bounds (m : Z) :
  0 < m -> 2 ^ (Zdigits2 m - 1) <= m < 2 ^ Zdigits2 m.
Proof.
  intros Hm. destruct m as [|p|p]; try lia. apply digits2_pos_bounds.
Qed.

Lemma Zdigits2_unique (m d : Z) :
  0 < d -> 2 ^ (d - 1) <= m < 2 ^ d -> Zdigits2 m = d.
Proof.
  intros Hd [Hlo Hhi].
  assert (Hm : 0 < m) by (pose proof (Z.pow_pos_nonneg 2 (d - 1)); lia).
  destruct (Zdigits2_bounds m Hm) as [Hlo' Hhi'].
  assert (Hdm : 0 < Zdigits2 m) by (destruct m; simpl; lia).
  destruct (Z.lt_trichotomy (Zdigits2 m) d) as [L|[E|G]]; [|exact E|].
  - assert (2 ^ Zdigits2 m <= 2 ^ (d - 1)) by (apply Z.pow_le_mono_r; lia). lia.
  - assert (2 ^ d <= 2 ^ (Zdigits2 m - 1)) by (apply Z.pow_le_mono_r; lia). lia.
Qed.

Lemma shr_fexp_digits (m e : Z) (l : location) (n : Z) :
  0 < m -> -1000 <= e -> Zdigits2 m = 53 + n -> 0 <= n ->
  shr_fexp 53 1024 m e l = shr (shr_record_of_loc m l) e n.
Proof.
  intros Hm He Hd Hn. unfold shr_fexp. f_equal.
  rewrite fexp64, Hd. lia.
Qed.

(** The last normalisation step of [binary_round_aux] on a mantissa of
    53 bits, or on [2^53]. *)
Lemma renormalise (s : bool) (m1 e1 : Z) :
  2 ^ 52 <= m1 <= 2 ^ 53 -> -1000 <= e1 <= 900 ->
  exists m2 e2,
    (let '(mrs, e) := shr_fexp 53 1024 m1 e1 loc_Exact in
     match shr_m mrs with
     | Z0 => S754_zero s
     | Zpos m => if e <=? 1024 - 53 then S754_finite s m e
                 else S754_infinity s
     | Zneg _ => S754_nan
     end) = S754_finite s m2 e2 /\
    e1 <= e2 <= e1 + 1 /\ Zpos m2 * 2 ^ (e2 - e1) = m1.
Proof.
  intros Hm He.
  assert (H52 : 0 < 2 ^ 52) by (apply Z.pow_pos_nonneg; lia).
  destruct (Z_lt_le_dec m1 (2 ^ 53)) as [Hlt|Hge].
  - rewrite (shr_fexp_digits m1 e1 loc_Exact 0); try lia.
    2:{ apply Zdigits2_unique; [lia|]. change (53 + 0 - 1) with 52. lia. }
    cbn [shr shr_record_of_loc shr_m].
    destruct m1 as [|p|p]; try lia.
    exists p, e1.
    replace (e1 <=? 1024 - 53) with true by (symmetry; apply Z.leb_le; lia).
    rewrite Z.sub_diag. change (2 ^ 0) with 1. repeat split; lia.
  - assert (E : m1 = 2 ^ 53) by lia. subst m1.
    rewrite (shr_fexp_digits (2 ^ 53) e1 loc_Exact 1); try lia;
      try reflexivity.
    cbn [shr shr_record_of_loc iter_pos].
    rewrite shr_1_spec by lia. cbn [shr_m].
    change (2 ^ 53 / 2) with (Zpos (Pos.pow 2 52)).
    exists (Pos.pow 2 52), (e1 + 1).
    replace (e1 + 1 <=? 1024 - 53) with true by (symmetry; apply Z.leb_le; lia).
    replace (e1 + 1 - e1) with 1 by lia.
    repeat split; try lia; reflexivity.
Qed.

(** [binary_round_aux] on a quotient of 53 or 54 bits: the value
    returned is [m1 * 2^(e + n)], where [n] is the number of bits
    dropped and [m1] the rounded mantissa. *)
Lemma binary_round_aux_quotient (q e : Z) (l : location) :
  2 ^ 52 <= q < 2 ^ 54 -> -1000 <= e <= 800 ->
  exists m2 e2 m1 n,
    binary_round_aux 53 1024 false q e l = S754_finite false m2 e2 /\
    e + n <= e2 <= e + n + 1 /\ Zpos m2 * 2 ^ (e2 - (e + n)) = m1 /\
    ((n = 0 /\ q < 2 ^ 53 /\
      (m1 = q \/ (m1 = q + 1 /\ l <> loc_Exact))) \/
     (n = 1 /\ 2 ^ 53 <= q /\
      ((m1 = q / 2 /\ (Z.odd q = false \/ l = loc_Exact)) \/
       (m1 = q / 2 + 1 /\ Z.odd q = true)))).
Proof.
  intros Hq He.
  assert (H52 : 0 < 2 ^ 52) by (apply Z.pow_pos_nonneg; lia).
  assert (H53 : 2 ^ 53 = 2 * 2 ^ 52) by reflexivity.
  assert (H54 : 2 ^ 54 = 4 * 2 ^ 52) by reflexivity.
  unfold binary_round_aux.
  destruct (Z_lt_le_dec q (2 ^ 53)) as [Hlt|Hge].
  - rewrite (shr_fexp_digits q e l 0); try lia.
    2:{ apply Zdigits2_unique; [lia|]. change (53 + 0 - 1) with 52. lia. }
    cbn [shr].
    set (m1 := round_nearest_even (shr_m (shr_record_of_loc q l))
                 (loc_of_shr_record (shr_record_of_loc q l))).
    assert (Hm1 : m1 = q \/ (m1 = q + 1 /\ l <> loc_Exact)).
    { subst m1. destruct l as [|[| |]]; cbn; try (left; reflexivity).
      - destruct (Z.even q); [left; reflexivity | right; split; [reflexivity|discriminate]].
      - right; split; [reflexivity|discriminate]. }
    destruct (renormalise false m1 e) as (m2 & e2 & E & He2 & Hv); [lia | lia |].
    exists m2, e2, m1, 0. rewrite Z.add_0_r.
    split; [exact E|]. split; [lia|]. split; [exact Hv|].
    left. auto.
  - rewrite (shr_fexp_digits q e l 1); try lia.
    2:{ apply Zdigits2_unique; [lia|]. change (53 + 1 - 1) with 53.
        change (53 + 1) with 54. lia. }
    cbn [shr iter_pos].
    assert (Hrec : shr_1 (shr_record_of_loc q l)
                   = Build_shr_record (q / 2) (Z.odd q)
                       (match l with loc_Exact => false | _ => true end)).
    { destruct l as [|[| |]]; cbn [shr_record_of_loc];
        rewrite shr_1_spec by lia; reflexivity. }
    rewrite Hrec.
    set (m1 := round_nearest_even
                 (shr_m (Build_shr_record (q / 2) (Z.odd q)
                           (match l with loc_Exact => false | _ => true end)))
                 (loc_of_shr_record
                    (Build_shr_record (q / 2) (Z.odd q)
                       (match l with loc_Exact => false | _ => true end)))).
    assert (Hm1 : (m1 = q / 2 /\ (Z.odd q = false \/ l = loc_Exact)) \/
                  (m1 = q / 2 + 1 /\ Z.odd q = true)).
    { subst m1. cbn [shr_m loc_of_shr_record].
      destruct (Z.odd q); destruct l as [|[| |]]; cbn [round_nearest_even];
        try (left; split; [reflexivity | auto]);
        try (right; split; reflexivity).
      destruct (Z.even (q / 2)); [left | right]; split; auto. }
    assert (Hhalf : 2 ^ 52 <= q / 2 < 2 ^ 53).
    { split; [apply Z.div_le_lower_bound; lia | apply Z.div_lt_upper_bound; lia]. }
    destruct (renormalise false m1 (e + 1)) as (m2 & e2 & E & He2 & Hv);
      [lia | lia |].
    exists m2, e2, m1, 1.
    split; [exact E|]. split; [lia|]. split; [exact Hv|].
    right. auto.
Qed.

(** Integer ceiling through a floor division. *)
Lemma ceil_div_unique (m d k : Z) :
  0 < d -> (k - 1) * d < m <= k * d -> - (- m / d) = k.
Proof.
  intros Hd Hm.
  assert (E : - m / d = - k)
    by (symmetry; apply Z.div_unique with (r := k * d - m); lia).
  lia.
Qed.

Lemma ceil_quotient_unique (a b : Z) :
  0 < b -> ((a + b - 1) / b - 1) * b < a <= (a + b - 1) / b * b.
Proof.
  intros Hb.
  pose proof (Z.div_mod (a + b - 1) b ltac:(lia)) as Hdm.
  pose proof (Z.mod_pos_bound (a + b - 1) b Hb) as Hmod.
  lia.
Qed.

(** The arithmetic core: rounding the quotient [a * N / b] to 53 bits
    does not cross the integer [k] above [a / b]. *)
Lemma rounded_quotient_bounds (a b N q r k m1 n : Z) (l : location) :
  0 < a -> 0 < b -> b < N -> (n = 1 -> exists N', N = 2 * N') ->
  a * N = q * b + r -> 0 <= r < b ->
  (k - 1) * b < a <= k * b ->
  l = (if r =? 0 then loc_Exact else loc_Inexact (2 * r ?= b)) ->
  ((n = 0 /\ (m1 = q \/ (m1 = q + 1 /\ l <> loc_Exact))) \/
   (n = 1 /\ ((m1 = q / 2 /\ (Z.odd q = false \/ l = loc_Exact)) \/
              (m1 = q / 2 + 1 /\ Z.odd q = true)))) ->
  (k - 1) * N < m1 * 2 ^ n <= k * N.
Proof.
  intros Ha Hb HN Heven Hdiv Hr Hk Hl Hcases.
  assert (Hqlo : (k - 1) * N + 1 <= q) by nia.
  assert (Hqhi : q <= k * N) by nia.
  assert (Hexact : l = loc_Exact -> r = 0).
  { intros E. rewrite E in Hl. destruct (r =? 0) eqn:E0;
      [apply Z.eqb_eq in E0; exact E0 | discriminate]. }
  assert (Hinexact : l <> loc_Exact -> q < k * N).
  { intros Hne. assert (r <> 0).
    { intros E. apply Hne. rewrite Hl, E. reflexivity. }
    nia. }
  destruct Hcases as [(-> & Hm1) | (-> & Hm1)].
  - change (2 ^ 0) with 1. destruct Hm1 as [-> | (-> & Hne)].
    + lia.
    + specialize (Hinexact Hne). lia.
  - change (2 ^ 1) with 2. destruct (Heven eq_refl) as [N' ->].
    pose proof (Z.div_mod q 2 ltac:(lia)) as Hq2.
    rewrite Zmod_odd in Hq2.
    destruct Hm1 as [(-> & Hdown) | (-> & Hup)].
    + destruct (Z.odd q) eqn:Eo.
      * destruct Hdown as [Hf|Hex]; [discriminate|].
        specialize (Hexact Hex). subst r.
        assert (q <> (k - 1) * (2 * N') + 1) by nia.
        lia.
      * lia.
    + rewrite Hup in Hq2. lia.
Qed.

Lemma div_core_small (a b : positive) :
  Zpos a < 2 ^ 53 -> Zpos b < 2 ^ 53 ->
  let S := 53 + Zpos (digits2_pos b) - Zpos (digits2_pos a) in
  SFdiv_core_binary 53 1024 (Zpos a) 0 (Zpos b) 0
  = (Zpos a * 2 ^ S / Zpos b, - S,
     new_location (Zpos b) ((Zpos a * 2 ^ S) mod Zpos b)).
Proof.
  intros Ha Hb S.
  assert (Hda : Zpos (digits2_pos a) <= 53) by (apply digits2_pos_le; lia).
  assert (Hdb : Zpos (digits2_pos b) <= 53) by (apply digits2_pos_le; lia).
  unfold SFdiv_core_binary. cbn [Zdigits2].
  rewrite fexp64.
  replace (Z.min
             (Z.max (Z.pos (digits2_pos a) + 0 - (Z.pos (digits2_pos b) + 0) - 53)
                (-1074)) (0 - 0)) with (- S) by (subst S; lia).
  replace (0 - 0 - - S) with S by lia.
  assert (HS : 0 < S) by (subst S; lia).
  destruct S as [|p|p] eqn:ES; try lia.
  rewrite Z.shiftl_mul_pow2 by lia.
  unfold Z.div, Z.modulo.
  destruct (Z.div_eucl (Z.pos a * 2 ^ Z.pos p) (Z.pos b)) as [q r].
  reflexivity.
Qed.

(** [math.ceil (a / b)] is the integer ceiling of the quotient for
    operands that convert to floats exactly. *)
Lemma ceil_int_truediv (a b : Z) :
  0 <= a < 2 ^ 53 -> 0 < b < 2 ^ 53 ->
  (q <- int_truediv a b ;; ceil q) = Ok ((a + b - 1) / b).
Proof.
  intros Ha Hb. unfold int_truediv.
  replace (b =? 0) with false by (symmetry; apply Z.eqb_neq; lia).
  destruct b as [|pb|pb]; try lia.
  destruct a as [|pa|pa]; try lia.
  - cbn [exact_int SFdiv xorb isinf bind ceil]. f_equal. symmetry.
    apply Z.div_small. lia.
  - set (k := (Z.pos pa + Z.pos pb - 1) / Z.pos pb).
    pose proof (ceil_quotient_unique (Zpos pa) (Zpos pb) ltac:(lia)) as Hk.
    fold k in Hk.
    cbn [exact_int SFdiv xorb]. unfold prec, emax.
    rewrite div_core_small by lia.
    destruct (digits2_pos_bounds pa) as [Halo Hahi].
    destruct (digits2_pos_bounds pb) as [Hblo Hbhi].
    assert (Hda : Zpos (digits2_pos pa) <= 53) by (apply digits2_pos_le; lia).
    assert (Hdb : Zpos (digits2_pos pb) <= 53) by (apply digits2_pos_le; lia).
    set (da := Zpos (digits2_pos pa)) in *.
    set (db := Zpos (digits2_pos pb)) in *.
    assert (Hda1 : 1 <= da) by (subst da; lia).
    assert (Hdb1 : 1 <= db) by (subst db; lia).
    set (S := 53 + db - da).
    assert (HS : 1 <= S <= 105) by (subst S; lia).
    set (N := 2 ^ S).
    assert (HNpos : 0 < N) by (apply Z.pow_pos_nonneg; lia).
    assert (HA1 : 0 < 2 ^ (da - 1)) by (apply Z.pow_pos_nonneg; lia).
    assert (HB1 : 0 < 2 ^ (db - 1)) by (apply Z.pow_pos_nonneg; lia).
    assert (Hdbl : 2 ^ db = 2 * 2 ^ (db - 1)).
    { replace db with (Z.succ (db - 1)) at 1 by lia.
      apply Z.pow_succ_r. lia. }
    assert (Hdal : 2 ^ da = 2 * 2 ^ (da - 1)).
    { replace da with (Z.succ (da - 1)) at 1 by lia.
      apply Z.pow_succ_r. lia. }
    assert (HAN : 2 ^ (da - 1) * N = 2 ^ 53 * 2 ^ (db - 1)).
    { subst N S. rewrite <- !Z.pow_add_r by lia. f_equal. lia. }
    assert (HNb : Zpos pb < N).
    { assert (2 ^ db <= N) by (apply Z.pow_le_mono_r; subst S; lia). lia. }
    assert (HNeven : exists N', N = 2 * N').
    { exists (2 ^ (S - 1)). subst N.
      replace S with (Z.succ (S - 1)) at 1 by lia.
      apply Z.pow_succ_r. lia. }
    pose proof (Z.div_mod (Zpos pa * N) (Zpos pb) ltac:(lia)) as Hdm.
    pose proof (Z.mod_pos_bound (Zpos pa * N) (Zpos pb) ltac:(lia)) as Hmod.
    set (q := Zpos pa * N / Zpos pb) in *.
    set (r := (Zpos pa * N) mod Zpos pb) in *.
    assert (H53 : 2 ^ 53 = 2 * 2 ^ 52) by reflexivity.
    assert (H54 : 2 ^ 54 = 4 * 2 ^ 52) by reflexivity.
    assert (H52 : 0 < 2 ^ 52) by (apply Z.pow_pos_nonneg; lia).
    assert (Hq : 2 ^ 52 <= q < 2 ^ 54).
    { split.
      - apply Z.div_le_lower_bound; [lia|]. nia.
      - apply Z.div_lt_upper_bound; [lia|]. nia. }
    destruct (binary_round_aux_quotient q (- S) (new_location (Zpos pb) r))
      as (m2 & e2 & m1 & n & E & He2 & Hv & Hcases); [exact Hq | lia |].
    rewrite E. cbn [isinf bind].
    assert (Hbounds : (k - 1) * N < m1 * 2 ^ n <= k * N).
    { apply (rounded_quotient_bounds (Zpos pa) (Zpos pb) N q r k m1 n
               (new_location (Zpos pb) r)); try lia.
      - intros _. exact HNeven.
      - apply new_location_spec. lia.
      - destruct Hcases as [(Hn & _ & Hc) | (Hn & _ & Hc)]; [left | right];
          auto. }
    assert (Hn : n = 0 \/ n = 1) by (destruct Hcases as [(? & _)|(? & _)]; auto).
    assert (Ht : e2 - (- S + n) = 0 \/ e2 - (- S + n) = 1) by lia.
    unfold ceil.
    destruct e2 as [|p|p]; cbv iota; f_equal.
    + (* the result is an integer *)
      cbn [signed]. change (2 ^ 0) with 1. rewrite Z.mul_1_r.
      assert (HNS : N = 2 ^ S) by reflexivity.
      destruct Hn as [-> | ->]; destruct Ht as [Ht | Ht];
        rewrite Ht in Hv;
        [ assert (ES : S = 0) by lia
        | assert (ES : S = 1) by lia
        | assert (ES : S = 1) by lia
        | assert (ES : S = 2) by lia ];
        rewrite ES in HNS; cbn in HNS; cbn in Hv, Hbounds; lia.
    + cbn [signed].
      assert (HNS : N = 2 ^ S) by reflexivity.
      assert (Hp : 0 < 2 ^ Z.pos p) by (apply Z.pow_pos_nonneg; lia).
      destruct Hn as [-> | ->]; destruct Ht as [Ht | Ht];
        rewrite Ht in Hv; try lia.
      assert (ES : S = 1) by lia. assert (Ep : Z.pos p = 1) by lia.
      rewrite Ep. rewrite ES in HNS. cbn in HNS, Hv, Hbounds. cbn. lia.
    + cbn [signed]. rewrite Z.pow_pos_fold.
      assert (HD : 0 < 2 ^ Z.pos p) by (apply Z.pow_pos_nonneg; lia).
      change (- Z.pos m2) with (- (Z.pos m2)).
      apply ceil_div_unique; [exact HD|].
      assert (HNS : N = 2 ^ Z.pos p * 2 ^ (n + (Z.neg p - (- S + n)))).
      { subst N. rewrite <- Z.pow_add_r by lia. f_equal. lia. }
      destruct Hn as [-> | ->]; destruct Ht as [Ht | Ht];
        rewrite Ht in Hv, HNS; cbn in Hv, HNS, Hbounds; nia.
Qed.

End CeilFacts.

(** ** Vertices of a chunk *)

Module SeamFacts.

Import Py Np NpFacts Mesh MeshFacts ChunkFacts Spec.

Lemma float_of_int_const (z : Z) (f : float) :
  float_of_int z = Ok f -> f = const z.
Proof.
  unfold float_of_int, const.
  destruct (isinf (binary_normalize prec emax z 0 false)); [discriminate|].
  intros H. injection H as <-. reflexivity.
Qed.

Lemma int_mul_const (z : Z) (x y : float) :
  int_mul z x = Ok y -> y = mul (const z) x.
Proof.
  unfold int_mul. intros H. apply bind_ok in H. destruct H as (f & Hf & H).
  injection H as <-. rewrite (float_of_int_const _ _ Hf). reflexivity.
Qed.

Lemma latlon_to_local_inv (cos : float -> float)
    (lat lon olat olon x z : float) :
  latlon_to_local cos lat lon olat olon = Ok (x, z) ->
  x = local_x (cos (radians olat)) lon olon /\ z = local_z lat olat.
Proof.
  unfold latlon_to_local, math_cos.
  destruct (isinf (radians olat)); [discriminate|]. cbn [bind].
  intros H. injection H as <- <-. split; reflexivity.
Qed.

Lemma make_vertex_inv (cos : float -> float) (g : ndarray)
    (lat0 lon0 ps olat olon : float) (r c : nat) (v : vertex) :
  make_vertex cos g lat0 lon0 ps olat olon r c = Ok v ->
  v = (local_x (cos (radians olat))
         (add lon0 (mul (const (Z.of_nat c)) ps)) olon,
       elevation_feet (get g r c),
       local_z (sub lat0 (mul (const (Z.of_nat r)) ps)) olat).
Proof.
  unfold make_vertex. intros H.
  apply bind_ok in H. destruct H as (cp & Hcp & H).
  apply bind_ok in H. destruct H as (rp & Hrp & H).
  apply bind_ok in H. destruct H as ([x z] & Hxz & H).
  injection H as <-.
  apply int_mul_const in Hcp, Hrp. subst cp rp.
  destruct (latlon_to_local_inv _ _ _ _ _ _ _ Hxz) as [-> ->]. reflexivity.
Qed.

Lemma make_chunk_meta_inv (meta : Heightmap.metadata) (ps : float)
    (row_start col_start : Z) (chunk_grid : ndarray)
    (chunk_meta : Heightmap.metadata) :
  make_chunk_meta meta ps row_start col_start chunk_grid = Ok chunk_meta ->
  Heightmap.originLat chunk_meta
  = sub (Heightmap.originLat meta) (mul (const row_start) ps) /\
  Heightmap.originLon chunk_meta
  = add (Heightmap.originLon meta) (mul (const col_start) ps) /\
  Heightmap.pixelSizeDeg chunk_meta = Heightmap.pixelSizeDeg meta.
Proof.
  unfold make_chunk_meta. intros H.
  apply bind_ok in H. destruct H as (rp & Hrp & H).
  apply bind_ok in H. destruct H as (cp & Hcp & H).
  injection H as <-. apply int_mul_const in Hrp, Hcp. subst rp cp.
  repeat split; reflexivity.
Qed.

Lemma slice_range_inner (n : nat) (s e : Z) :
  0 <= s <= e -> e <= Z.of_nat n ->
  slice_range n s e = (Z.to_nat s, Z.to_nat (e - s)).
Proof.
  intros Hs He. unfold slice_range, slice_bound.
  replace (s <? 0) with false by (symmetry; apply Z.ltb_ge; lia).
  replace (e <? 0) with false by (symmetry; apply Z.ltb_ge; lia).
  f_equal; lia.
Qed.

(** The sub-grid of a chunk. *)
Lemma chunk_grid_spec (grid : ndarray) (rs re c0 ce : Z) :
  wf grid ->
  0 <= rs <= re -> re <= Z.of_nat (nrows grid) ->
  0 <= c0 <= ce -> ce <= Z.of_nat (ncols grid) ->
  nrows (slice2 grid rs re c0 ce) = Z.to_nat (re - rs) /\
  ncols (slice2 grid rs re c0 ce) = Z.to_nat (ce - c0) /\
  forall i j, (i < Z.to_nat (re - rs))%nat -> (j < Z.to_nat (ce - c0))%nat ->
    get (slice2 grid rs re c0 ce) i j
    = get grid (Z.to_nat rs + i) (Z.to_nat c0 + j).
Proof.
  intros Hwf Hr Hre Hc Hce.
  destruct (slice2_shape grid rs re c0 ce) as [Hsr Hsc].
  pose proof (slice_range_inner (nrows grid) rs re Hr Hre) as Er.
  pose proof (slice_range_inner (ncols grid) c0 ce Hc Hce) as Ec.
  rewrite Er in Hsr. rewrite Ec in Hsc. cbn [snd] in Hsr, Hsc.
  split; [exact Hsr|]. split; [exact Hsc|].
  intros i j Hi Hj.
  rewrite slice2_get; [rewrite Er, Ec; reflexivity | exact Hwf | |].
  - rewrite Er. exact Hi.
  - rewrite Ec. exact Hj.
Qed.

(** The vertex of chunk [(chunk_row, chunk_col)] at its local cell
    [(i, j)], in terms of the full grid. *)
Lemma chunk_vertex (cos : float -> float) (grid : ndarray)
    (meta : Heightmap.metadata) (olat olon : float) (cs : Z)
    (prefix : string) (chunk_row chunk_col : nat) (m : mesh)
    (e : chunk_entry) (i j : nat) :
  let ps := mul (Heightmap.pixelSizeDeg meta) (const 1) in
  let rs := Z.of_nat chunk_row * cs in
  let re := Z.min (rs + cs + 1) (Z.of_nat (nrows grid)) in
  let c0 := Z.of_nat chunk_col * cs in
  let ce := Z.min (c0 + cs + 1) (Z.of_nat (ncols grid)) in
  wf grid -> 1 <= cs ->
  make_chunk cos grid meta olat olon cs ps prefix chunk_row chunk_col
  = Ok (m, e) ->
  rs <= Z.of_nat (nrows grid) -> c0 <= Z.of_nat (ncols grid) ->
  (i < Z.to_nat (re - rs))%nat -> (j < Z.to_nat (ce - c0))%nat ->
  nth_error (vertices m) (i * Z.to_nat (ce - c0) + j)
  = Some (vertex_to_float32
            (local_x (cos (radians olat))
               (add (add (Heightmap.originLon meta) (mul (const c0) ps))
                  (mul (const (Z.of_nat j)) ps)) olon,
             elevation_feet (get grid (Z.to_nat rs + i) (Z.to_nat c0 + j)),
             local_z
               (sub (sub (Heightmap.originLat meta) (mul (const rs) ps))
                  (mul (const (Z.of_nat i)) ps)) olat)).
Proof.
  intros ps rs re c0 ce Hwf Hcs Hmk Hrs Hc0 Hi Hj.
  pose proof (make_chunk_inv _ _ _ _ _ _ _ _ _ _ _ _ Hmk) as Hinv.
  unfold chunk_rows, chunk_cols in Hinv. cbv zeta in Hinv.
  fold rs c0 in Hinv. fold re ce in Hinv.
  destruct Hinv as (chunk_meta & Hmeta & Hmesh & _).
  destruct (make_chunk_meta_inv _ _ _ _ _ _ Hmeta) as (Hlat & Hlon & Hpix).
  assert (Hrs0 : 0 <= rs) by (subst rs; lia).
  assert (Hc00 : 0 <= c0) by (subst c0; lia).
  destruct (chunk_grid_spec grid rs re c0 ce Hwf) as (Hnr & Hnc & Hget);
    try (subst re ce; lia).
  destruct (mesh_vertex_at _ _ _ _ _ _ _ i j Hmesh) as (ps' & v & Hps' & Hv & Hnth).
  { rewrite downsample_grid_1, Hnr. exact Hi. }
  { rewrite downsample_grid_1, Hnc. exact Hj. }
  rewrite downsample_grid_1, Hnc in Hnth. rewrite Hnth. f_equal. f_equal.
  rewrite mul_int_1, Hpix in Hps'. injection Hps' as <-. fold ps in Hv.
  rewrite downsample_grid_1 in Hv.
  apply make_vertex_inv in Hv. rewrite Hv, Hlat, Hlon, Hget by assumption.
  reflexivity.
Qed.

End SeamFacts.

(** ** Chunks without a face *)

Module ChunkOkFacts.

Import Py Np NpFacts Mesh MeshFacts ChunkFacts CeilFacts SeamFacts Spec.

Lemma chunk_count_start (n cs : Z) (k : nat) :
  0 <= n -> 1 <= cs -> (k < Z.to_nat ((n + cs - 1) / cs))%nat ->
  Z.of_nat k * cs < n.
Proof.
  intros Hn Hcs Hk.
  pose proof (ceil_quotient_unique n cs ltac:(lia)) as [Hlo _].
  assert (Z.of_nat k <= (n + cs - 1) / cs - 1) by lia.
  nia.
Qed.







End ChunkOkFacts.

(** * The claims *)

Section Compositor.

Import Py PyFacts Np NpFacts Heightmap HeightmapFacts RoundTripFacts Spec.

(** C2. After the compositing loop has finished, every cell of the
    target grid that lies in no processed tile's destination window
    [row_start:row_end, col_start:col_end] is NaN. *)
Theorem uncovered_cells_are_nan (tiles : list Tile) (clip : box)
    (grid : ndarray) (height width : Z) (t0 : Tile) (rest : list Tile)
    (r c : nat) :
  Forall (fun t => wf (data t)) tiles ->
  tiles = t0 :: rest ->
  composite tiles clip = Ok (grid, height, width) ->
  (r < nrows grid)%nat -> (c < ncols grid)%nat ->
  (forall t w, In t tiles ->
     tile_window (scale_lon t0) (scale_lat t0) clip height width t
     = Ok (Some w) ->
     covers w r c = false) ->
  get grid r c = nan.
Proof.
  intros Hwf Ht Hc Hr Hcc Hun.
  destruct (composite_spec _ _ _ _ _ Hwf Hc)
    as (t0' & rest' & Ht' & _ & _ & _ & _ & _ & _ & Hget).
  rewrite Ht in Ht'. injection Ht' as <- <-.
  rewrite Hget by assumption.
  apply cell_fold_uncovered. exact Hun.
Qed.

Lemma uncovered_cells_are_nan_witness :
  composite [Examples.tile_A (const 1) (const 2) (const 3) (const 4);
             Examples.tile_B (const 5) (const 6) (const 7) (const 8)]
    Examples.union_AB
  = Ok (mk_ndarray 2 3 [[const 5; const 6; nan]; [const 7; const 8; nan]],
        2, 3) /\
  get (mk_ndarray 2 3 [[const 5; const 6; nan]; [const 7; const 8; nan]])
    0 2 = nan.
Proof.
  assert (Hc : composite
                 [Examples.tile_A (const 1) (const 2) (const 3) (const 4);
                  Examples.tile_B (const 5) (const 6) (const 7) (const 8)]
                 Examples.union_AB
               = Ok (mk_ndarray 2 3
                       [[const 5; const 6; nan]; [const 7; const 8; nan]],
                     2, 3)) by (vm_compute; reflexivity).
  split; [exact Hc|].
  apply (uncovered_cells_are_nan
           [Examples.tile_A (const 1) (const 2) (const 3) (const 4);
            Examples.tile_B (const 5) (const 6) (const 7) (const 8)]
           Examples.union_AB _ 2 3
           (Examples.tile_A (const 1) (const 2) (const 3) (const 4))
           [Examples.tile_B (const 5) (const 6) (const 7) (const 8)]
           0%nat 2%nat).
  - repeat constructor.
  - reflexivity.
  - exact Hc.
  - simpl; lia.
  - simpl; lia.
  - intros t w [<-|[<-|[]]] Hw; vm_compute in Hw;
      injection Hw as <-; reflexivity.
Defined.

(** C10. Where the windows of several tiles overlap, a cell holds the
    sample of the last processed tile that covers it, read at the cell's
    distance from that tile's origin and copied verbatim: a NaN sample
    of the later tile replaces whatever an earlier tile wrote there. *)
Theorem later_tile_overwrites (pre post : list Tile) (t : Tile)
    (w : window) (clip : box) (grid : ndarray) (height width : Z)
    (t0 : Tile) (rest : list Tile) (r c : nat) :
  Forall (fun t => wf (data t)) (pre ++ t :: post) ->
  pre ++ t :: post = t0 :: rest ->
  composite (pre ++ t :: post) clip = Ok (grid, height, width) ->
  (r < nrows grid)%nat -> (c < ncols grid)%nat ->
  tile_window (scale_lon t0) (scale_lat t0) clip height width t
  = Ok (Some w) ->
  covers w r c = true ->
  (forall t' w', In t' post ->
     tile_window (scale_lon t0) (scale_lat t0) clip height width t'
     = Ok (Some w') ->
     covers w' r c = false) ->
  exists origin_row origin_col,
    tile_origin (scale_lon t0) (scale_lat t0) clip t
    = Ok (Some (origin_row, origin_col)) /\
    0 <= Z.of_nat r - origin_row < Z.of_nat (nrows (data t)) /\
    0 <= Z.of_nat c - origin_col < Z.of_nat (ncols (data t)) /\
    get grid r c
    = get (data t) (Z.to_nat (Z.of_nat r - origin_row))
        (Z.to_nat (Z.of_nat c - origin_col)) /\
    (isnan (get (data t) (Z.to_nat (Z.of_nat r - origin_row))
              (Z.to_nat (Z.of_nat c - origin_col))) = true ->
     isnan (get grid r c) = true).
Proof.
  intros Hwf Ht Hc Hr Hcc Hw Hcov Hpost.
  destruct (composite_spec _ _ _ _ _ Hwf Hc)
    as (t0' & rest' & Ht' & _ & _ & _ & Hgh & Hgw & _ & Hget).
  rewrite Ht in Ht'. injection Ht' as <- <-.
  assert (E : get grid r c = source_cell t w r c).
  { rewrite Hget by assumption.
    apply cell_fold_last; assumption. }
  destruct (tile_window_shape _ _ _ _ _ _ _ Hw) as (orow & ocol & Ho & Ew).
  rewrite <- Hgh, <- Hgw in Ew. subst w.
  destruct (source_cell_origin t (nrows grid) (ncols grid) orow ocol r c Hcov)
    as (Es & Hrow & Hcol).
  exists orow, ocol.
  split; [exact Ho|]. split; [exact Hrow|]. split; [exact Hcol|].
  rewrite E, Es. split; [reflexivity | auto].
Qed.

Lemma later_tile_overwrites_witness :
  composite [Examples.tile_A (const 1) (const 2) (const 3) (const 4);
             Examples.tile_B nan (const 6) (const 7) (const 8)]
    Examples.union_AB
  = Ok (mk_ndarray 2 3 [[nan; const 6; nan]; [const 7; const 8; nan]], 2, 3) /\
  isnan
    (get (mk_ndarray 2 3 [[nan; const 6; nan]; [const 7; const 8; nan]]) 0 0)
  = true.
Proof.
  assert (Hc : composite
                 [Examples.tile_A (const 1) (const 2) (const 3) (const 4);
                  Examples.tile_B nan (const 6) (const 7) (const 8)]
                 Examples.union_AB
               = Ok (mk_ndarray 2 3
                       [[nan; const 6; nan]; [const 7; const 8; nan]], 2, 3))
    by (vm_compute; reflexivity).
  split; [exact Hc|].
  destruct (later_tile_overwrites
              [Examples.tile_A (const 1) (const 2) (const 3) (const 4)] []
              (Examples.tile_B nan (const 6) (const 7) (const 8))
              (mk_window 0 2 0 2 0 2 0 2)
              Examples.union_AB
              (mk_ndarray 2 3 [[nan; const 6; nan]; [const 7; const 8; nan]])
              2 3
              (Examples.tile_A (const 1) (const 2) (const 3) (const 4))
              [Examples.tile_B nan (const 6) (const 7) (const 8)]
              0%nat 0%nat)
    as (orow & ocol & Ho & _ & _ & _ & Hnan).
  - repeat constructor.
  - reflexivity.
  - exact Hc.
  - simpl; lia.
  - simpl; lia.
  - vm_compute; reflexivity.
  - reflexivity.
  - intros t' w' [].
  - apply Hnan. vm_compute in Ho. injection Ho as <- <-. reflexivity.
Defined.

(** C8. Two 2x2 tiles with pixel scale 1, A at (lon 0, lat 1) and B at
    (lon 0.5, lat 1), composited in the order A, B over the union of
    their boxes: the grid is 3 wide and 2 high, and every cell that both
    tiles cover holds B's sample.  B's column offset is [round 0.5 = 0],
    so B lies on columns 0 and 1, as A does, and column 2 stays NaN. *)
Theorem two_tiles_last_write_wins (a00 a01 a10 a11 b00 b01 b10 b11 : float) :
  let A := Examples.tile_A a00 a01 a10 a11 in
  let B := Examples.tile_B b00 b01 b10 b11 in
  let grid := mk_ndarray 2 3 [[b00; b01; nan]; [b10; b11; nan]] in
  compute_union_bounds [A; B] = Ok Examples.union_AB /\
  composite [A; B] Examples.union_AB = Ok (grid, 2, 3) /\
  tile_window (scale_lon A) (scale_lat A) Examples.union_AB 2 3 A
  = Ok (Some (mk_window 0 2 0 2 0 2 0 2)) /\
  tile_window (scale_lon A) (scale_lat A) Examples.union_AB 2 3 B
  = Ok (Some (mk_window 0 2 0 2 0 2 0 2)) /\
  forall r c,
    covers (mk_window 0 2 0 2 0 2 0 2) r c = true ->
    get grid r c = get (data B) r c.
Proof.
  intros A B grid.
  split; [vm_compute; reflexivity|].
  split; [vm_compute; reflexivity|].
  split; [vm_compute; reflexivity|].
  split; [vm_compute; reflexivity|].
  intros r c Hc. unfold covers in Hc. cbn [row_start row_end col_start col_end] in Hc.
  rewrite !andb_true_iff, !Z.leb_le, !Z.ltb_lt in Hc.
  destruct r as [|[|r]]; [| |lia]; (destruct c as [|[|c]]; [| |lia]); reflexivity.
Qed.

(** C6 fails as stated: for a one-row tile of three samples at lon 0.1
    with pixel scale 0.1, [(max_lon - min_lon) / scale_lon] evaluates to
    3.0000000000000004, so the grid is four columns wide and its last
    column is NaN. *)
Lemma identity_round_trip_counterexample :
  bounds Examples.tile_1x3
  = Ok (literal 1 1, const (-1), literal 4 1, zero) /\
  composite [Examples.tile_1x3] (literal 1 1, const (-1), literal 4 1, zero)
  = Ok (mk_ndarray 1 4 [[const 7; const 8; const 9; nan]], 1, 4) /\
  ~ identity_round_trip Examples.tile_1x3.
Proof.
  split; [vm_compute; reflexivity|].
  split; [vm_compute; reflexivity|].
  intros (b & grid & Hb & Hc & _).
  vm_compute in Hb. injection Hb as <-.
  vm_compute in Hc. discriminate Hc.
Qed.

(** C6, amended. For a loaded tile with finite origin whose box is not
    inverted, if [ceil ((max_lon - min_lon) / scale_lon)] and
    [ceil ((max_lat - min_lat) / scale_lat)] evaluate to the tile's width
    and height, compositing the tile alone with its own box as clip
    bounds yields a grid of the tile's shape in which every cell equals
    the tile's sample. *)
Theorem identity_round_trip_exact (t : Tile) (b : box) :
  wf (data t) ->
  bounds t = Ok b ->
  isfinite (origin_lon t) = true -> isfinite (origin_lat t) = true ->
  grid_size (scale_lon t) (scale_lat t) b
  = Ok (Z.of_nat (nrows (data t)), Z.of_nat (ncols (data t))) ->
  (let '(min_lon, min_lat, max_lon, max_lat) := b in
   ltb max_lon min_lon = false /\ ltb max_lat min_lat = false) ->
  identity_round_trip t.
Proof.
  intros Hwf Hb Hfo Hfa Hsize Hbox.
  destruct (bounds_ok _ _ Hb) as (w & h & _ & _ & Eb).
  destruct (grid_size_ok _ _ _ _ _ Hsize) as (Hz1 & Hn1 & Hz2 & Hn2).
  subst b. destruct Hbox as [Hlon Hlat].
  pose proof (tile_origin_self t _ _ Hb Hfo Hfa Hz1 Hn1 Hz2 Hn2 Hlon Hlat)
    as Horigin.
  destruct (full_nonneg (Z.of_nat (nrows (data t))) (Z.of_nat (ncols (data t)))
              nan) as [g0 Hfull]; [lia | lia |].
  destruct (full_ok _ _ _ _ Hfull) as (_ & _ & Hnr & Hnc & Hwf0 & _).
  rewrite Nat2Z.id in Hnr, Hnc.
  destruct (paste_whole g0 t Hnr Hnc) as [g Hpaste].
  rewrite Hnr, Hnc in Hpaste.
  assert (Hcomp : composite [t]
            (origin_lon t, sub (origin_lat t) h, add (origin_lon t) w,
             origin_lat t)
          = Ok (g, Z.of_nat (nrows (data t)), Z.of_nat (ncols (data t)))).
  { unfold composite. rewrite Hsize. cbn [bind]. rewrite Hfull. cbn [bind foldM].
    unfold composite_tile, tile_window. rewrite Horigin. cbn [bind].
    rewrite Hpaste. reflexivity. }
  assert (Hall : Forall (fun t' => wf (data t')) [t])
    by (constructor; [exact Hwf | constructor]).
  destruct (composite_spec _ _ _ _ _ Hall Hcomp)
    as (t0 & rest & Ht & _ & _ & _ & Hgr & Hgc & _ & Hget).
  injection Ht as <- <-.
  exists (origin_lon t, sub (origin_lat t) h, add (origin_lon t) w, origin_lat t), g.
  split; [exact Hb|]. split; [exact Hcomp|].
  split; [lia|]. split; [lia|].
  intros r c Hr Hc. rewrite Hget by assumption.
  cbn [fold_left]. unfold cell_step, tile_window. rewrite Horigin. cbn [bind].
  assert (Hcov : covers (make_window (Z.of_nat (nrows (data t)))
                           (Z.of_nat (ncols (data t)))
                           (Z.of_nat (nrows (data t)))
                           (Z.of_nat (ncols (data t))) 0 0) r c = true).
  { rewrite make_window_whole. unfold covers.
    cbn [row_start row_end col_start col_end].
    rewrite !andb_true_iff, !Z.leb_le, !Z.ltb_lt. lia. }
  rewrite Hcov.
  destruct (source_cell_origin t (nrows (data t)) (ncols (data t)) 0 0 r c Hcov)
    as [E _].
  rewrite E, !Z.sub_0_r, !Nat2Z.id. reflexivity.
Qed.

Lemma identity_round_trip_exact_witness :
  identity_round_trip
    (Examples.tile_A (const 1) (const 2) (const 3) (const 4)).
Proof.
  apply (identity_round_trip_exact
           (Examples.tile_A (const 1) (const 2) (const 3) (const 4))
           (zero, const (-1), const 2, const 1)).
  - repeat constructor.
  - vm_compute; reflexivity.
  - reflexivity.
  - reflexivity.
  - vm_compute; reflexivity.
  - split; vm_compute; reflexivity.
Defined.

End Compositor.

Section Bounds.

Import Py OrderFacts Heightmap Spec.

(** C3 fails as stated: with a NaN radius, around the point (lat 0,
    lon 1), [dlat] and [dlon] are NaN and so are the four edges of the
    window.  Python's [max] and [min] keep their first argument when the
    comparison with the second is false, so [clamp_bounds] returns the
    input box untouched; no comparison places it inside the window. *)
Lemma nan_radius_counterexample :
  clip_dlat nan = Ok nan /\
  clip_dlon Examples.cos_at_zero zero nan = Ok nan /\
  clamp_bounds Examples.cos_at_zero Examples.union_AB zero (const 1) nan
  = Ok Examples.union_AB /\
  leb (sub (const 1) nan) zero = false /\
  leb (literal 25 1) (add (const 1) nan) = false /\
  leb (sub zero nan) (const (-1)) = false /\
  leb (const 1) (add zero nan) = false.
Proof. repeat split; vm_compute; reflexivity. Qed.

(** C3, amended. When neither the input box nor the window
    [center_lon - dlon, center_lon + dlon] x
    [center_lat - dlat, center_lat + dlat], with [dlat = radius / 69.0]
    and [dlon = radius / (69.0 * cos (radians center_lat))], has a NaN
    edge, [clamp_bounds] returns a box whose lower edges are at least,
    and whose upper edges are at most, those of both: it lies inside the
    input box and inside the window. *)
Theorem clamp_bounds_contained (cos : float -> float)
    (b0 b1 b2 b3 center_lat center_lon radius_miles dlat dlon : float) :
  clip_dlat radius_miles = Ok dlat ->
  clip_dlon cos center_lat radius_miles = Ok dlon ->
  isnan b0 = false -> isnan b1 = false ->
  isnan b2 = false -> isnan b3 = false ->
  isnan (sub center_lon dlon) = false -> isnan (add center_lon dlon) = false ->
  isnan (sub center_lat dlat) = false -> isnan (add center_lat dlat) = false ->
  exists min_lon min_lat max_lon max_lat,
    clamp_bounds cos (b0, b1, b2, b3) center_lat center_lon radius_miles
    = Ok (min_lon, min_lat, max_lon, max_lat) /\
    (leb b0 min_lon = true /\ leb max_lon b2 = true /\
     leb b1 min_lat = true /\ leb max_lat b3 = true) /\
    (leb (sub center_lon dlon) min_lon = true /\
     leb max_lon (add center_lon dlon) = true /\
     leb (sub center_lat dlat) min_lat = true /\
     leb max_lat (add center_lat dlat) = true).
Proof.
  intros Hdlat Hdlon H0 H1 H2 H3 Hw0 Hw2 Hw1 Hw3.
  unfold clamp_bounds. rewrite Hdlat, Hdlon. cbn [bind].
  do 4 eexists. split; [reflexivity|].
  destruct (max_upper b0 (sub center_lon dlon) H0 Hw0).
  destruct (min_lower b2 (add center_lon dlon) H2 Hw2).
  destruct (max_upper b1 (sub center_lat dlat) H1 Hw1).
  destruct (min_lower b3 (add center_lat dlat) H3 Hw3).
  repeat split; assumption.
Qed.

Lemma clamp_bounds_contained_witness :
  exists min_lon min_lat max_lon max_lat,
    clamp_bounds Examples.cos_at_zero Examples.union_AB zero (const 1)
      (const 69)
    = Ok (min_lon, min_lat, max_lon, max_lat) /\
    (leb zero min_lon = true /\ leb max_lon (literal 25 1) = true /\
     leb (const (-1)) min_lat = true /\ leb max_lat (const 1) = true) /\
    (leb (sub (const 1) (const 1)) min_lon = true /\
     leb max_lon (add (const 1) (const 1)) = true /\
     leb (sub zero (const 1)) min_lat = true /\
     leb max_lat (add zero (const 1)) = true).
Proof.
  apply (clamp_bounds_contained Examples.cos_at_zero zero (const (-1))
           (literal 25 1) (const 1) zero (const 1) (const 69)
           (const 1) (const 1)); vm_compute; reflexivity.
Defined.

End Bounds.

Section ClipRegion.

Import Py Np NpFacts Heightmap HeightmapFacts LoopFacts Spec.

(** C4 fails as stated: a zero radius around the point (lat 0, lon 1)
    inside tile A clips the union box to the single point
    [1, 1] x [0, 0]; the pipeline raises nothing and returns a grid of
    zero rows and zero columns. *)
Lemma degenerate_clip_counterexample :
  clamp_bounds Examples.cos_at_zero (zero, const (-1), const 2, const 1)
    zero (const 1) zero
  = Ok (const 1, zero, const 1, zero) /\
  main Examples.cos_at_zero
    [Examples.tile_A (const 1) (const 2) (const 3) (const 4)]
    zero (const 1) zero
  = Ok (mk_ndarray 0 0 [],
        mk_metadata zero (const 1) (const 1) 0 0 zero (const 1) zero).
Proof. split; vm_compute; reflexivity. Qed.

(** C4, amended. An empty or degenerate intersection is not an error of
    its own.  With [height] and [width] the grid dimensions computed from
    the clipped box: if either is negative, allocating the grid raises
    [ValueError] and nothing is returned; if neither is, and every tile
    is skipped or placed at offsets within reach of the grid, the
    pipeline returns a grid of [height] rows and [width] columns, a
    zero-size grid when either is zero. *)
Theorem degenerate_clip_region (cos : float -> float) (tiles : list Tile)
    (center_lat center_lon radius_miles : float) (u clip : box)
    (t0 : Tile) (rest : list Tile) (h w : Z) :
  tiles = t0 :: rest ->
  Forall (fun t => wf (data t)) tiles ->
  compute_union_bounds tiles = Ok u ->
  clamp_bounds cos u center_lat center_lon radius_miles = Ok clip ->
  grid_size (scale_lon t0) (scale_lat t0) clip = Ok (h, w) ->
  (h < 0 \/ w < 0 ->
   main cos tiles center_lat center_lon radius_miles = Raise ValueError) /\
  (0 <= h -> 0 <= w ->
   Forall (placed (scale_lon t0) (scale_lat t0) clip (Z.to_nat h) (Z.to_nat w))
     tiles ->
   exists grid meta,
     main cos tiles center_lat center_lon radius_miles = Ok (grid, meta) /\
     Z.of_nat (nrows grid) = h /\ Z.of_nat (ncols grid) = w /\
     height meta = h /\ width meta = w).
Proof.
  intros Ht Hwf Hu Hclip Hsize. subst tiles. split.
  - intros Hneg. unfold main. rewrite Hu. cbn [bind]. rewrite Hclip. cbn [bind].
    unfold composite. rewrite Hsize. cbn [bind].
    rewrite (full_negative _ _ _ Hneg). reflexivity.
  - intros Hh Hw Hpl.
    destruct (full_nonneg h w nan Hh Hw) as [g0 Hfull].
    destruct (full_ok _ _ _ _ Hfull) as (_ & _ & Hnr & Hnc & Hwf0 & _).
    destruct (composite_loop_ok _ _ _ _ _ _ g0 Hwf0 Hnr Hnc Hwf Hpl)
      as [g Hloop].
    rewrite !Z2Nat.id in Hloop by assumption.
    assert (Hg0h : Z.of_nat (nrows g0) = h) by lia.
    assert (Hg0w : Z.of_nat (ncols g0) = w) by lia.
    destruct (composite_loop_spec _ _ _ _ _ _ _ _ Hwf0 Hwf Hg0h Hg0w Hloop)
      as (Hr & Hc & _ & _).
    destruct clip as [[[min_lon min_lat] max_lon] max_lat].
    exists g, (mk_metadata max_lat min_lon (scale_lon t0) w h
                 center_lat center_lon radius_miles).
    split.
    + unfold main. rewrite Hu. cbn [bind]. rewrite Hclip. cbn [bind].
      unfold composite. rewrite Hsize. cbn [bind]. rewrite Hfull. cbn [bind].
      rewrite Hloop. reflexivity.
    + repeat split; try reflexivity; lia.
Qed.

Lemma degenerate_clip_region_witness :
  exists grid meta,
    main Examples.cos_at_zero
      [Examples.tile_A (const 1) (const 2) (const 3) (const 4)]
      zero (const 1) zero = Ok (grid, meta) /\
    Z.of_nat (nrows grid) = 0 /\ Z.of_nat (ncols grid) = 0 /\
    height meta = 0 /\ width meta = 0.
Proof.
  apply (degenerate_clip_region Examples.cos_at_zero
           [Examples.tile_A (const 1) (const 2) (const 3) (const 4)]
           zero (const 1) zero
           (zero, const (-1), const 2, const 1)
           (const 1, zero, const 1, zero)
           (Examples.tile_A (const 1) (const 2) (const 3) (const 4)) []
           0 0).
  - reflexivity.
  - repeat constructor.
  - vm_compute; reflexivity.
  - vm_compute; reflexivity.
  - vm_compute; reflexivity.
  - lia.
  - lia.
  - constructor; [|constructor].
    exists (Some (-1, -1)). split; [vm_compute; reflexivity|].
    unfold within_reach. simpl. lia.
Defined.

End ClipRegion.

Section Elevation.

Import Py Np Mesh MeshFacts Spec.

Lemma elevation_feet_nodata (sample : float) :
  isnan sample = true \/ ltb (to_feet sample) minus_1000 = true ->
  elevation_feet sample = zero.
Proof.
  unfold elevation_feet. intros [Hn|Hl].
  - destruct sample; try discriminate. reflexivity.
  - rewrite Hl, orb_true_r. reflexivity.
Qed.

(** C7. A grid cell whose sample is NaN, or whose elevation in feet is
    below -1000, gets the Y coordinate 0 in the mesh; an all-NaN 3x3
    grid yields 9 vertices, all with Y = 0, and 8 triangles. *)
Theorem nodata_snapped_to_zero (cos : float -> float)
    (meta : Heightmap.metadata) (olat olon : float) :
  (forall grid d m r c,
     create_terrain_mesh cos grid meta olat olon d = Ok m ->
     (r < nrows (downsample_grid grid d))%nat ->
     (c < ncols (downsample_grid grid d))%nat ->
     isnan (get (downsample_grid grid d) r c) = true \/
     ltb (to_feet (get (downsample_grid grid d) r c)) minus_1000 = true ->
     exists x z,
       nth_error (vertices m) (r * ncols (downsample_grid grid d) + c)
       = Some (x, zero, z)) /\
  (isinf (radians olat) = false ->
   exists m,
     create_terrain_mesh cos Examples.grid_nan_3x3 meta olat olon 1 = Ok m /\
     length (vertices m) = 9%nat /\
     Forall (fun v => snd (fst v) = zero) (vertices m) /\
     length (faces m) = 8%nat).
Proof.
  assert (Hgen : forall grid d m r c,
     create_terrain_mesh cos grid meta olat olon d = Ok m ->
     (r < nrows (downsample_grid grid d))%nat ->
     (c < ncols (downsample_grid grid d))%nat ->
     isnan (get (downsample_grid grid d) r c) = true \/
     ltb (to_feet (get (downsample_grid grid d) r c)) minus_1000 = true ->
     exists x z,
       nth_error (vertices m) (r * ncols (downsample_grid grid d) + c)
       = Some (x, zero, z)).
  { intros grid d m r c Hm Hr Hc Hnodata.
    destruct (mesh_vertex_at _ _ _ _ _ _ _ r c Hm Hr Hc)
      as (ps & v & _ & Hv & Hnth).
    unfold make_vertex in Hv.
    apply bind_ok in Hv. destruct Hv as (cp & _ & Hv).
    apply bind_ok in Hv. destruct Hv as (rp & _ & Hv).
    apply bind_ok in Hv. destruct Hv as ([x z] & _ & Hv).
    injection Hv as <-.
    rewrite (elevation_feet_nodata _ Hnodata) in Hnth.
    exists (to_float32 x), (to_float32 z). exact Hnth. }
  split; [exact Hgen|].
  intros Hcos.
  destruct (create_terrain_mesh_ok cos Examples.grid_nan_3x3 meta olat olon 1
              (mul (Heightmap.pixelSizeDeg meta) (const 1)))
    as [m Hm]; [reflexivity | exact Hcos | simpl; lia | simpl; lia | simpl; lia |].
  exists m. split; [exact Hm|].
  split; [exact (mesh_vertices_length _ _ _ _ _ _ _ Hm)|].
  split.
  - apply Forall_forall. intros v Hin.
    apply In_nth_error in Hin. destruct Hin as [k Hk].
    assert (Hlen : (k < 9)%nat).
    { assert (Hk' : (k < length (vertices m))%nat)
        by (apply nth_error_Some; intros Hnone;
            exact (eq_ind (Some v) (fun o => match o with Some _ => True
                                             | None => False end) I None
                     (eq_trans (eq_sym Hk) Hnone))).
      rewrite (mesh_vertices_length _ _ _ _ _ _ _ Hm) in Hk'. exact Hk'. }
    assert (Hrc : exists r c, (r < 3)%nat /\ (c < 3)%nat /\ k = (r * 3 + c)%nat).
    { exists (k / 3)%nat, (k mod 3)%nat.
      pose proof (Nat.div_mod_eq k 3). pose proof (Nat.mod_upper_bound k 3).
      repeat split; lia. }
    destruct Hrc as (r & c & Hr & Hc & ->).
    destruct (Hgen Examples.grid_nan_3x3 1 m r c Hm Hr Hc) as (x & z & Hxz).
    { left. destruct r as [|[|[|r]]]; [| | |lia];
        destruct c as [|[|[|c]]]; try lia; reflexivity. }
    change (ncols (downsample_grid Examples.grid_nan_3x3 1)) with 3%nat in Hxz.
    pose proof (eq_trans (eq_sym Hk) Hxz) as E.
    injection E as ->. reflexivity.
  - destruct (create_terrain_mesh_inv _ _ _ _ _ _ _ Hm) as (_ & _ & _ & _ & _ & Hf).
    rewrite Hf. reflexivity.
Qed.

Lemma nodata_snapped_to_zero_witness :
  exists m,
    create_terrain_mesh Examples.cos_at_zero Examples.grid_nan_3x3
      (Examples.flat_meta (const 1) 3 3) zero zero 1 = Ok m /\
    length (vertices m) = 9%nat /\
    Forall (fun v => snd (fst v) = zero) (vertices m) /\
    length (faces m) = 8%nat.
Proof.
  apply (nodata_snapped_to_zero Examples.cos_at_zero
           (Examples.flat_meta (const 1) 3 3) zero zero).
  reflexivity.
Defined.

End Elevation.

Section MeshTopology.

Import Py Mesh MeshFacts Spec.




End MeshTopology.

Section Chunking.

Import Py Np NpFacts Mesh MeshFacts ChunkFacts CeilFacts SeamFacts Spec.
Import ChunkOkFacts.




(** C9 fails on the code for a downsample factor above 1.  A 3x3
    heightmap with pixel size 1 degree, downsample 2 and chunk size 3
    gives one chunk.  The single-mesh path places the second vertex two
    degrees east of the first; the chunk mesh, built from the chunk
    metadata whose pixel size was left unscaled, places it one degree
    east, while the manifest bounds of the same chunk span two degrees.
    With downsample 1 the two paths agree on this input. *)
Theorem chunked_downsample_spacing :
  exists single man chunk x2 x1 y,
    create_terrain_mesh Examples.cos_at_zero Examples.grid_3x3
      (Examples.flat_meta (const 1) 3 3) zero zero 2 = Ok single /\
    create_chunked_terrain Examples.cos_at_zero Examples.grid_3x3
      (Examples.flat_meta (const 1) 3 3) zero zero 3 2 "terrain"
    = Ok (man, [chunk]) /\
    nth_error (vertices single) 1 = Some (x2, y, zero) /\
    nth_error (vertices chunk) 1 = Some (x1, y, zero) /\
    x2 = to_float32 (Spec.local_x (const 1) (const 2) zero) /\
    x1 = to_float32 (Spec.local_x (const 1) (const 1) zero) /\
    x1 <> x2 /\
    option_map (fun e => max_x (bounds e)) (nth_error (files man) 0)
    = Some (Spec.local_x (const 1) (const 2) zero) /\
    (exists man1 chunk1,
       create_chunked_terrain Examples.cos_at_zero Examples.grid_3x3
         (Examples.flat_meta (const 1) 3 3) zero zero 3 1 "terrain"
       = Ok (man1, [chunk1]) /\
       create_terrain_mesh Examples.cos_at_zero Examples.grid_3x3
         (Examples.flat_meta (const 1) 3 3) zero zero 1 = Ok chunk1).
Proof.
  do 6 eexists.
  split; [vm_compute; reflexivity|].
  split; [vm_compute; reflexivity|].
  split; [reflexivity|]. split; [reflexivity|].
  split; [vm_compute; reflexivity|]. split; [vm_compute; reflexivity|].
  split; [discriminate|].
  split; [vm_compute; reflexivity|].
  do 2 eexists. split; vm_compute; reflexivity.
Qed.

End Chunking.

(** * Further properties of the code *)

(** ** Strided slices *)

Module StrideFacts.

Import Py Np NpFacts Mesh.

Lemma every_from_skipn {A : Type} (d k : nat) (l : list A) :
  every_from d k l = every_from d 0 (skipn k l).
Proof.
  revert k. induction l as [|x t IH]; intros k.
  - destruct k; reflexivity.
  - destruct k as [|k]; [reflexivity|]. simpl. apply IH.
Qed.

Lemma every_cons {A : Type} (d : nat) (x : A) (t : list A) :
  every d (x :: t) = x :: every d (skipn (d - 1) t).
Proof.
  unfold every. simpl. rewrite every_from_skipn. reflexivity.
Qed.

Lemma every_nil {A : Type} (d : nat) : every d (@nil A) = [].
Proof. reflexivity. Qed.

Lemma ceil_div_step (n d : nat) :
  (1 <= d)%nat -> ((S n + d - 1) / d = S ((n - (d - 1) + d - 1) / d))%nat.
Proof.
  intros Hd.
  destruct (Nat.le_gt_cases (d - 1) n) as [Hle|Hgt].
  - replace (S n + d - 1)%nat with ((n - (d - 1) + d - 1) + 1 * d)%nat by lia.
    rewrite Nat.div_add by lia. lia.
  - replace (n - (d - 1))%nat with 0%nat by lia.
    rewrite (Nat.div_small (0 + d - 1)) by lia.
    symmetry. apply Nat.div_unique with (r := n); lia.
Qed.

Lemma every_length_aux {A : Type} (d n : nat) :
  (1 <= d)%nat ->
  forall l : list A, (length l <= n)%nat ->
  length (every d l) = ((length l + d - 1) / d)%nat.
Proof.
  intros Hd. induction n as [|n IH]; intros l Hl.
  - destruct l; [|simpl in Hl; lia]. simpl.
    symmetry. apply Nat.div_small. lia.
  - destruct l as [|x t].
    + simpl. symmetry. apply Nat.div_small. lia.
    + rewrite every_cons. simpl length.
      rewrite IH by (rewrite length_skipn; simpl in Hl; lia).
      rewrite length_skipn. symmetry. apply ceil_div_step. exact Hd.
Qed.

Lemma every_length {A : Type} (d : nat) (l : list A) :
  (1 <= d)%nat -> length (every d l) = ((length l + d - 1) / d)%nat.
Proof. intros Hd. apply (every_length_aux d (length l) Hd l). lia. Qed.

Lemma every_nth_error {A : Type} (d i : nat) (l : list A) :
  (1 <= d)%nat -> nth_error (every d l) i = nth_error l (i * d).
Proof.
  intros Hd. revert l. induction i as [|i IH]; intros l.
  - destruct l as [|x t]; [reflexivity|]. rewrite every_cons. reflexivity.
  - destruct l as [|x t].
    + rewrite every_nil. destruct (S i * d)%nat; reflexivity.
    + rewrite every_cons. simpl nth_error at 1. rewrite IH.
      rewrite nth_error_skipn.
      replace (S i * d)%nat with (S (d - 1 + i * d)) by lia. reflexivity.
Qed.

Lemma every_nth {A : Type} (d i : nat) (l : list A) (x : A) :
  (1 <= d)%nat -> nth i (every d l) x = nth (i * d) l x.
Proof.
  intros Hd.
  rewrite <- !nth_default_eq. unfold nth_default.
  rewrite every_nth_error by exact Hd. reflexivity.
Qed.

Lemma stride2_shape (a : ndarray) (d : nat) :
  wf a -> (1 <= d)%nat ->
  nrows (stride2 a d) = ((nrows a + d - 1) / d)%nat /\
  ncols (stride2 a d) = ((ncols a + d - 1) / d)%nat.
Proof.
  intros [Hr _] Hd. unfold stride2. cbn [nrows ncols]. split.
  - rewrite length_map, every_length, Hr by exact Hd. reflexivity.
  - rewrite every_length, repeat_length by exact Hd. reflexivity.
Qed.

Lemma every_In {A : Type} (d : nat) (l : list A) (x : A) :
  (1 <= d)%nat -> In x (every d l) -> In x l.
Proof.
  intros Hd Hin. apply In_nth_error in Hin. destruct Hin as [i Hi].
  rewrite every_nth_error in Hi by exact Hd.
  apply nth_error_In in Hi. exact Hi.
Qed.

Lemma stride2_wf (a : ndarray) (d : nat) :
  wf a -> (1 <= d)%nat -> wf (stride2 a d).
Proof.
  intros Hwf Hd. destruct Hwf as [Hr Hall].
  unfold wf, stride2. cbn [nrows ncols rows]. split; [reflexivity|].
  rewrite Forall_forall in *. intros r Hin.
  apply in_map_iff in Hin. destruct Hin as (r0 & <- & Hin).
  apply every_In in Hin; [|exact Hd].
  rewrite !every_length by exact Hd.
  rewrite (Hall r0 Hin), repeat_length. reflexivity.
Qed.

Lemma stride2_get (a : ndarray) (d i j : nat) :
  (1 <= d)%nat -> (i < nrows (stride2 a d))%nat ->
  get (stride2 a d) i j = get a (i * d) (j * d).
Proof.
  intros Hd Hi. unfold get, stride2 in *. cbn [rows nrows] in *.
  rewrite length_map in Hi.
  rewrite (nth_indep _ [] (every d []))
    by (rewrite length_map; exact Hi).
  rewrite map_nth, !every_nth by exact Hd. reflexivity.
Qed.

(** [ceil (n / d)] in integers. *)
Lemma ceil_nat_Z (n d : nat) :
  (1 <= d)%nat ->
  Z.of_nat ((n + d - 1) / d) = (Z.of_nat n + Z.of_nat d - 1) / Z.of_nat d.
Proof.
  intros Hd. rewrite Nat2Z.inj_div. f_equal. lia.
Qed.

End StrideFacts.

Module DownsampleFacts.
Import Py Np NpFacts Mesh MeshFacts SeamFacts Spec StrideFacts.

Lemma downsample_grid_strided (grid : ndarray) (d : Z) :
  wf grid -> 1 < d ->
  let g := downsample_grid grid d in
  wf g /\
  Z.of_nat (nrows g) = (Z.of_nat (nrows grid) + d - 1) / d /\
  Z.of_nat (ncols g) = (Z.of_nat (ncols grid) + d - 1) / d /\
  forall i j, (i < nrows g)%nat ->
    get g i j = get grid (i * Z.to_nat d) (j * Z.to_nat d).
Proof.
  intros Hwf Hd g. subst g. unfold downsample_grid.
  destruct (Z.ltb_spec 1 d) as [_|]; [|lia].
  assert (Hn : (1 <= Z.to_nat d)%nat) by lia.
  destruct (stride2_shape grid (Z.to_nat d) Hwf Hn) as [Hr Hc].
  split; [apply stride2_wf; assumption|].
  split; [rewrite Hr, ceil_nat_Z, Z2Nat.id by lia; reflexivity|].
  split; [rewrite Hc, ceil_nat_Z, Z2Nat.id by lia; reflexivity|].
  intros i j Hi. apply stride2_get; assumption.
Qed.

Lemma mul_int_const (x y : float) (z : Z) :
  mul_int x z = Ok y -> y = mul x (const z).
Proof.
  unfold mul_int. intros H. apply bind_ok in H. destruct H as (f & Hf & H).
  injection H as <-. rewrite (float_of_int_const _ _ Hf). reflexivity.
Qed.

End DownsampleFacts.

Section Downsampling.

Import Py Np NpFacts Mesh MeshFacts SeamFacts Spec StrideFacts DownsampleFacts.

(** X1. [grid[::downsample, ::downsample]] is taken only for a factor
    above 1: a factor of 1 or less leaves the grid as it is; a factor
    [d > 1] keeps [ceil (height / d)] rows and [ceil (width / d)]
    columns, and cell [(i, j)] of the result is sample [(i * d, j * d)]
    of the grid. *)
Theorem downsample_grid_spec (grid : ndarray) (downsample : Z) :
  wf grid ->
  let g := downsample_grid grid downsample in
  (downsample <= 1 -> g = grid) /\
  (1 < downsample ->
     wf g /\
     Z.of_nat (nrows g)
     = (Z.of_nat (nrows grid) + downsample - 1) / downsample /\
     Z.of_nat (ncols g)
     = (Z.of_nat (ncols grid) + downsample - 1) / downsample /\
     forall i j, (i < nrows g)%nat -> (j < ncols g)%nat ->
       get g i j
       = get grid (i * Z.to_nat downsample) (j * Z.to_nat downsample)).
Proof.
  intros Hwf g. split.
  - intros Hd. subst g. unfold downsample_grid.
    destruct (Z.ltb_spec 1 downsample) as [|_]; [lia | reflexivity].
  - intros Hd.
    destruct (downsample_grid_strided grid downsample Hwf Hd)
      as (Hwfg & Hr & Hc & Hget).
    split; [exact Hwfg|]. split; [exact Hr|]. split; [exact Hc|].
    intros i j Hi _. apply Hget. exact Hi.
Qed.

Lemma downsample_grid_spec_witness :
  nrows (downsample_grid Examples.grid_3x3 2) = 2%nat /\
  ncols (downsample_grid Examples.grid_3x3 2) = 2%nat /\
  get (downsample_grid Examples.grid_3x3 2) 1 1 = const 9.
Proof.
  destruct (downsample_grid_spec Examples.grid_3x3 2) as [_ Hd].
  - repeat constructor.
  - destruct Hd as (_ & Hr & Hc & Hget); [lia|].
    assert (Hr' : nrows (downsample_grid Examples.grid_3x3 2) = 2%nat)
      by (apply Nat2Z.inj; rewrite Hr; reflexivity).
    assert (Hc' : ncols (downsample_grid Examples.grid_3x3 2) = 2%nat)
      by (apply Nat2Z.inj; rewrite Hc; reflexivity).
    split; [exact Hr'|]. split; [exact Hc'|].
    rewrite Hget by lia. reflexivity.
Defined.

(** X2. A mesh built with a downsample factor [d > 1] has
    [ceil (height / d) * ceil (width / d)] vertices; the vertex of the
    downsampled cell [(i, j)] carries the elevation of sample
    [(i * d, j * d)] and lies at longitude [originLon + j * p] and
    latitude [originLat - i * p] for the pixel size
    [p = pixelSizeDeg * d]. *)
Theorem downsampled_mesh_vertices (cos : float -> float) (grid : ndarray)
    (meta : Heightmap.metadata) (olat olon : float) (d : Z) (m : mesh) :
  wf grid -> 1 < d ->
  create_terrain_mesh cos grid meta olat olon d = Ok m ->
  let H := Z.to_nat ((Z.of_nat (nrows grid) + d - 1) / d) in
  let W := Z.to_nat ((Z.of_nat (ncols grid) + d - 1) / d) in
  let p := mul (Heightmap.pixelSizeDeg meta) (const d) in
  length (vertices m) = (H * W)%nat /\
  forall i j, (i < H)%nat -> (j < W)%nat ->
    nth_error (vertices m) (i * W + j)
    = Some (vertex_to_float32
              (local_x (cos (radians olat))
                 (add (Heightmap.originLon meta) (mul (const (Z.of_nat j)) p))
                 olon,
               elevation_feet (get grid (i * Z.to_nat d) (j * Z.to_nat d)),
               local_z
                 (sub (Heightmap.originLat meta) (mul (const (Z.of_nat i)) p))
                 olat)).
Proof.
  intros Hwf Hd Hm H W p.
  destruct (downsample_grid_strided grid d Hwf Hd) as (_ & Hr & Hc & Hget).
  assert (EH : nrows (downsample_grid grid d) = H) by (subst H; lia).
  assert (EW : ncols (downsample_grid grid d) = W) by (subst W; lia).
  split.
  - rewrite (mesh_vertices_length _ _ _ _ _ _ _ Hm), EH, EW. lia.
  - intros i j Hi Hj.
    destruct (mesh_vertex_at _ _ _ _ _ _ _ i j Hm)
      as (ps & v & Hps & Hv & Hnth);
      [rewrite EH; exact Hi | rewrite EW; exact Hj |].
    rewrite EW in Hnth. rewrite Hnth.
    apply mul_int_const in Hps. apply make_vertex_inv in Hv.
    rewrite Hv, Hps, Hget by (rewrite EH; exact Hi). reflexivity.
Qed.

Lemma downsampled_mesh_vertices_witness :
  exists m,
    create_terrain_mesh Examples.cos_at_zero Examples.grid_3x3
      (Examples.flat_meta (const 1) 3 3) zero zero 2 = Ok m /\
    length (vertices m) = 4%nat /\
    option_map (fun v => snd (fst v)) (nth_error (vertices m) 3)
    = Some (to_float32 (elevation_feet (const 9))).
Proof.
  assert (Hrun : exists m,
            create_terrain_mesh Examples.cos_at_zero Examples.grid_3x3
              (Examples.flat_meta (const 1) 3 3) zero zero 2 = Ok m)
    by (vm_compute; eauto).
  destruct Hrun as [m Hm]. exists m. split; [exact Hm|].
  destruct (downsampled_mesh_vertices Examples.cos_at_zero Examples.grid_3x3
              (Examples.flat_meta (const 1) 3 3) zero zero 2 m) as [Hlen Hv].
  - repeat constructor.
  - lia.
  - exact Hm.
  - split; [exact Hlen|].
    change 3%nat
      with (1 * Z.to_nat ((Z.of_nat (ncols Examples.grid_3x3) + 2 - 1) / 2)
            + 1)%nat.
    rewrite (Hv 1%nat 1%nat) by (vm_compute; lia). reflexivity.
Defined.

End Downsampling.

(** ** Rounding never yields NaN *)

Module RoundFacts.

Import Py Np Mesh MeshFacts SeamFacts Spec.

Lemma shr_1_nonneg (mrs : shr_record) :
  0 <= shr_m mrs -> 0 <= shr_m (shr_1 mrs).
Proof.
  destruct mrs as [m r s]. cbn [shr_m]. intros Hm.
  destruct m as [|p|p]; [| |lia]; cbn [shr_1].
  - cbn [shr_m]. lia.
  - destruct p; cbn [shr_m]; lia.
Qed.

Lemma iter_pos_shr_1_nonneg (p : positive) (mrs : shr_record) :
  0 <= shr_m mrs -> 0 <= shr_m (iter_pos shr_1 p mrs).
Proof.
  revert mrs. induction p as [p IH|p IH|]; intros mrs Hm; cbn [iter_pos].
  - apply IH, IH, shr_1_nonneg, Hm.
  - apply IH, IH, Hm.
  - apply shr_1_nonneg, Hm.
Qed.

Lemma shr_fexp_nonneg (prec emax m e : Z) (l : location) :
  0 <= m -> 0 <= shr_m (fst (shr_fexp prec emax m e l)).
Proof.
  intros Hm. unfold shr_fexp, shr.
  assert (H0 : 0 <= shr_m (shr_record_of_loc m l))
    by (destruct l as [|[| |]]; exact Hm).
  destruct (fexp prec emax (Zdigits2 m + e) - e); cbn [fst]; try exact H0.
  apply iter_pos_shr_1_nonneg, H0.
Qed.

Lemma round_nearest_even_nonneg (m : Z) (l : location) :
  0 <= m -> 0 <= round_nearest_even m l.
Proof.
  intros Hm. unfold round_nearest_even.
  destruct l as [|[| |]]; try lia. destruct (Z.even m); lia.
Qed.

Lemma binary_round_aux_not_nan (prec emax : Z) (s : bool) (m e : Z)
    (l : location) :
  0 <= m -> isnan (binary_round_aux prec emax s m e l) = false.
Proof.
  intros Hm. unfold binary_round_aux.
  pose proof (shr_fexp_nonneg prec emax m e l Hm) as H1.
  destruct (shr_fexp prec emax m e l) as [mrs' e']. cbn [fst] in H1.
  pose proof (shr_fexp_nonneg prec emax
                (round_nearest_even (shr_m mrs') (loc_of_shr_record mrs'))
                e' loc_Exact (round_nearest_even_nonneg _ _ H1)) as H2.
  destruct (shr_fexp prec emax
              (round_nearest_even (shr_m mrs') (loc_of_shr_record mrs'))
              e' loc_Exact) as [mrs'' e'']. cbn [fst] in H2.
  destruct (shr_m mrs'') as [|p|p]; [reflexivity | | lia].
  destruct (e'' <=? emax - prec); reflexivity.
Qed.

Lemma to_float32_not_nan (x : float) :
  isnan x = false -> isnan (to_float32 x) = false.
Proof.
  destruct x as [s|s| |s m e]; try discriminate; intros _; try reflexivity.
  unfold to_float32, binary_round.
  destruct (shl_align m e (fexp prec32 emax32 (Z.pos (digits2_pos m) + e)))
    as [mz ez].
  apply binary_round_aux_not_nan. lia.
Qed.

Lemma elevation_feet_range (sample : float) :
  isnan (elevation_feet sample) = false /\
  ltb (elevation_feet sample) minus_1000 = false.
Proof.
  unfold elevation_feet.
  destruct (isnan (to_feet sample) || ltb (to_feet sample) minus_1000) eqn:E.
  - split; reflexivity.
  - apply orb_false_elim in E. exact E.
Qed.

Lemma Forall_concat {A : Type} (P : A -> Prop) (ls : list (list A)) :
  Forall (Forall P) ls -> Forall P (concat ls).
Proof.
  induction 1 as [|l ls Hl _ IH]; simpl; [constructor|].
  apply Forall_app. split; assumption.
Qed.

Lemma vertex_rows_heights (cos : float -> float) (g : ndarray)
    (lat0 lon0 ps olat olon : float) (vrows : list (list vertex)) :
  vertex_rows cos g lat0 lon0 ps olat olon = Ok vrows ->
  Forall (fun v => exists r c, snd (fst v) = elevation_feet (get g r c))
    (concat vrows).
Proof.
  intros Hv. apply Forall_concat. unfold vertex_rows in Hv.
  eapply mapM_Forall; [exact Hv|]. cbv beta. intros r l _ Hl.
  eapply mapM_Forall; [exact Hl|]. cbv beta. intros c v _ Hmv.
  apply make_vertex_inv in Hmv. subst v. exists r, c. reflexivity.
Qed.

End RoundFacts.

Section Heights.

Import Py Np Mesh MeshFacts SeamFacts Spec RoundFacts.

(** X3. Whatever the heightmap holds, no vertex of a mesh that
    [create_terrain_mesh] produces has a NaN height: every Y is the
    float32 value of the elevation of some sample of the (downsampled)
    grid, and that elevation is neither NaN nor below -1000 feet. *)
Theorem vertex_heights_defined (cos : float -> float) (grid : ndarray)
    (meta : Heightmap.metadata) (olat olon : float) (d : Z) (m : mesh)
    (x y z : float) :
  create_terrain_mesh cos grid meta olat olon d = Ok m ->
  In (x, y, z) (vertices m) ->
  isnan y = false /\
  exists r c,
    y = to_float32 (elevation_feet (get (downsample_grid grid d) r c)) /\
    isnan (elevation_feet (get (downsample_grid grid d) r c)) = false /\
    ltb (elevation_feet (get (downsample_grid grid d) r c)) minus_1000 = false.
Proof.
  intros Hm Hin.
  destruct (create_terrain_mesh_inv _ _ _ _ _ _ _ Hm)
    as (ps & vrows & _ & Hv & Hvs & _).
  rewrite Hvs in Hin. apply in_map_iff in Hin.
  destruct Hin as ([[x0 y0] z0] & Hxyz & Hin).
  pose proof (vertex_rows_heights _ _ _ _ _ _ _ _ Hv) as Hall.
  rewrite Forall_forall in Hall.
  destruct (Hall _ Hin) as (r & c & Hy). cbn [fst snd] in Hy.
  unfold vertex_to_float32 in Hxyz. injection Hxyz as _ Ey _.
  destruct (elevation_feet_range (get (downsample_grid grid d) r c))
    as [Hnan Hlow].
  subst y y0. split.
  - apply to_float32_not_nan. exact Hnan.
  - exists r, c. split; [reflexivity|]. split; assumption.
Qed.

Lemma vertex_heights_defined_witness :
  exists m,
    create_terrain_mesh Examples.cos_at_zero Examples.grid_nan_3x3
      (Examples.flat_meta (const 1) 3 3) zero zero 1 = Ok m /\
    Forall (fun v => isnan (snd (fst v)) = false) (vertices m).
Proof.
  assert (Hrun : exists m,
            create_terrain_mesh Examples.cos_at_zero Examples.grid_nan_3x3
              (Examples.flat_meta (const 1) 3 3) zero zero 1 = Ok m)
    by (vm_compute; eauto).
  destruct Hrun as [m Hm]. exists m. split; [exact Hm|].
  apply Forall_forall. intros [[x y] z] Hin.
  exact (proj1 (vertex_heights_defined Examples.cos_at_zero
                  Examples.grid_nan_3x3 (Examples.flat_meta (const 1) 3 3)
                  zero zero 1 m x y z Hm Hin)).
Defined.

(** X4. A heightmap with no rows or no columns (after downsampling)
    gives empty vertex and face arrays and no mesh: the vertex loop
    never runs, so not even an undefined cosine of the origin latitude
    is reached, and [fix_normals] raises [IndexError] for want of a
    face. *)
Theorem empty_grid_raises (cos : float -> float) (grid : ndarray)
    (meta : Heightmap.metadata) (olat olon : float) (d : Z) (ps : float) :
  mul_int (Heightmap.pixelSizeDeg meta) d = Ok ps ->
  nrows (downsample_grid grid d) = 0%nat \/
  ncols (downsample_grid grid d) = 0%nat ->
  terrain_arrays cos grid meta olat olon d = Ok ([], []) /\
  create_terrain_mesh cos grid meta olat olon d = Raise IndexError.
Proof.
  intros Hps Hempty.
  assert (Harr : terrain_arrays cos grid meta olat olon d = Ok ([], [])).
  { unfold terrain_arrays. rewrite Hps. cbn [bind].
    unfold vertex_rows.
    set (g := downsample_grid grid d) in *.
    destruct Hempty as [E|E]; rewrite E.
    - reflexivity.
    - change (range (Z.of_nat 0)) with (@nil nat).
      change (range (Z.of_nat 0 - 1)) with (@nil nat).
      cbn [mapM].
      assert (Hrows : forall l : list nat,
                 mapM (fun _ : nat => @Ok (list vertex) []) l
                 = Ok (repeat [] (length l))).
      { induction l as [|a l IH]; [reflexivity|].
        cbn [mapM bind length repeat]. rewrite IH. reflexivity. }
      rewrite Hrows. cbn [bind].
      assert (Hc : forall n, concat (repeat (@nil vertex) n) = []).
      { induction n as [|n IH]; [reflexivity | exact IH]. }
      rewrite Hc.
      assert (Hf : forall l : list nat,
                 flat_map (fun row : nat =>
                             flat_map (make_faces (Z.of_nat 0) row) []) l = []).
      { induction l as [|a l IH]; [reflexivity | exact IH]. }
      rewrite Hf. reflexivity. }
  split; [exact Harr|].
  unfold create_terrain_mesh. rewrite Harr. reflexivity.
Qed.

Lemma empty_grid_raises_witness :
  terrain_arrays Examples.cos_at_zero (mk_ndarray 3 0 [[]; []; []])
    (Examples.flat_meta (const 1) 0 3) (S754_infinity false) zero 1
  = Ok ([], []) /\
  create_terrain_mesh Examples.cos_at_zero (mk_ndarray 3 0 [[]; []; []])
    (Examples.flat_meta (const 1) 0 3) (S754_infinity false) zero 1
  = Raise IndexError.
Proof.
  apply (empty_grid_raises Examples.cos_at_zero
           (mk_ndarray 3 0 [[]; []; []]) (Examples.flat_meta (const 1) 0 3)
           (S754_infinity false) zero 1 (mul (const 1) (const 1))).
  - reflexivity.
  - right. reflexivity.
Defined.

End Heights.

Section Origin.

Import Py PyFacts Np Mesh MeshFacts SeamFacts Spec.

(** X5. The world origin itself has local coordinates (0, 0): for a
    finite origin whose metres-per-degree factor of longitude is finite,
    [latlon_to_local] maps the origin to Z = 0 and to an X that is a
    zero. *)
Theorem origin_maps_to_zero (cos : float -> float) (olat olon : float) :
  isfinite olat = true -> isfinite olon = true ->
  isinf (radians olat) = false ->
  isfinite (mul (mul deg_to_rad EARTH_RADIUS) (cos (radians olat))) = true ->
  exists x,
    latlon_to_local cos olat olon olat olon = Ok (x, zero) /\
    iszero x = true.
Proof.
  intros Hlat Hlon Hrad Hfac.
  unfold latlon_to_local, math_cos. rewrite Hrad. cbn [bind].
  rewrite (sub_diag olat Hlat), (sub_diag olon Hlon).
  assert (Hz : mul (mul zero (mul deg_to_rad EARTH_RADIUS)) METERS_TO_FEET
               = zero) by (vm_compute; reflexivity).
  rewrite Hz. eexists. split.
  - reflexivity.
  - assert (Hm : exists s m e, METERS_TO_FEET = S754_finite s m e)
      by (vm_compute; eauto).
    destruct Hm as (s & m & e & ->).
    destruct (mul (mul deg_to_rad EARTH_RADIUS) (cos (radians olat)))
      as [s'|s'| |s' m' e']; try discriminate; reflexivity.
Qed.

Lemma origin_maps_to_zero_witness :
  exists x,
    latlon_to_local Examples.cos_at_zero zero (const 5) zero (const 5)
    = Ok (x, zero) /\ iszero x = true.
Proof.
  apply (origin_maps_to_zero Examples.cos_at_zero zero (const 5));
    reflexivity.
Defined.

End Origin.

(** ** The manifest *)

Module ManifestFacts.

Import Py Np NpFacts Mesh MeshFacts ChunkFacts CeilFacts SeamFacts Spec.
Import OrderFacts DownsampleFacts.

Section Chunks.

Variable cos : float -> float.
Variables (grid : ndarray) (meta : Heightmap.metadata) (olat olon : float).
Variables (cs d : Z) (prefix : string).

(** What [create_chunked_terrain] returns, for any downsample factor. *)
Lemma create_chunked_terrain_inv_any (man : manifest) (meshes : list mesh) :
  create_chunked_terrain cos grid meta olat olon cs d prefix
  = Ok (man, meshes) ->
  let g := downsample_grid grid d in
  let ps := mul (Heightmap.pixelSizeDeg meta) (const d) in
  exists qx qz chunks,
    int_truediv (Z.of_nat (ncols g)) cs = Ok qx /\
    ceil qx = Ok (chunks_x man) /\
    int_truediv (Z.of_nat (nrows g)) cs = Ok qz /\
    ceil qz = Ok (chunks_z man) /\
    chunk_size man = cs /\
    origin_lat man = olat /\ origin_lon man = olon /\
    mapM (fun chunk_row =>
            mapM (make_chunk cos g meta olat olon cs ps prefix chunk_row)
              (range (chunks_x man)))
      (range (chunks_z man)) = Ok chunks /\
    files man = map snd (concat chunks) /\
    meshes = map fst (concat chunks).
Proof.
  intros H g ps. unfold create_chunked_terrain in H.
  apply bind_ok in H. destruct H as (ps' & Hps & H).
  apply mul_int_const in Hps. subst ps'. fold g ps in H.
  apply bind_ok in H. destruct H as (qx & Hqx & H).
  apply bind_ok in H. destruct H as (cx & Hcx & H).
  apply bind_ok in H. destruct H as (qz & Hqz & H).
  apply bind_ok in H. destruct H as (cz & Hcz & H).
  apply bind_ok in H. destruct H as (chunks & Hch & H).
  injection H as <- <-.
  cbn [chunks_x chunks_z chunk_size files origin_lat origin_lon].
  exists qx, qz, chunks. repeat split; assumption.
Qed.

End Chunks.

(** The manifest entry of a chunk. *)
Lemma make_chunk_entry (cos : float -> float) (g : ndarray)
    (meta : Heightmap.metadata) (olat olon : float) (cs : Z) (ps : float)
    (prefix : string) (chunk_row chunk_col : nat) (m : mesh)
    (e : chunk_entry) :
  make_chunk cos g meta olat olon cs ps prefix chunk_row chunk_col
  = Ok (m, e) ->
  let '(row_start, row_end) := chunk_rows cs (Z.of_nat (nrows g)) chunk_row in
  let '(col_start, col_end) := chunk_cols cs (Z.of_nat (ncols g)) chunk_col in
  let c := cos (radians olat) in
  let min_lon := add (Heightmap.originLon meta) (mul (const col_start) ps) in
  let max_lon :=
    add (Heightmap.originLon meta) (mul (const (col_end - 1)) ps) in
  let max_lat := sub (Heightmap.originLat meta) (mul (const row_start) ps) in
  let min_lat :=
    sub (Heightmap.originLat meta) (mul (const (row_end - 1)) ps) in
  e = mk_chunk_entry (chunk_file_name prefix chunk_col chunk_row)
        chunk_col chunk_row
        (mk_chunk_bounds
           (min (local_x c min_lon olon) (local_x c max_lon olon))
           (max (local_x c min_lon olon) (local_x c max_lon olon))
           (min (local_z min_lat olat) (local_z max_lat olat))
           (max (local_z min_lat olat) (local_z max_lat olat))).
Proof.
  unfold make_chunk.
  destruct (chunk_rows cs (Z.of_nat (nrows g)) chunk_row) as [rs re].
  destruct (chunk_cols cs (Z.of_nat (ncols g)) chunk_col) as [c0 ce].
  intros H.
  apply bind_ok in H. destruct H as (chunk_meta & _ & H).
  apply bind_ok in H. destruct H as (m' & _ & H).
  apply bind_ok in H. destruct H as (a & Ha & H).
  apply bind_ok in H. destruct H as (b & Hb & H).
  apply bind_ok in H. destruct H as (c & Hc & H).
  apply bind_ok in H. destruct H as (d' & Hd & H).
  apply bind_ok in H. destruct H as ([x1 z1] & H1 & H).
  apply bind_ok in H. destruct H as ([x2 z2] & H2 & H).
  injection H as _ <-.
  apply int_mul_const in Ha, Hb, Hc, Hd. subst a b c d'.
  destruct (latlon_to_local_inv _ _ _ _ _ _ _ H1) as [-> ->].
  destruct (latlon_to_local_inv _ _ _ _ _ _ _ H2) as [-> ->].
  reflexivity.
Qed.

End ManifestFacts.

(** ** Chunk file names *)

Module NameFacts.

Import Ascii DecimalString DecimalNat DecimalFacts Mesh Notions.

Lemma append_cancel_l (p a b : string) :
  (p ++ a = p ++ b)%string -> a = b.
Proof.
  induction p as [|c p IH]; simpl; intros H; [exact H|].
  injection H as H. exact (IH H).
Qed.

(** Two digit strings followed by a character that is no digit. *)
Lemma digits_sep (sep : ascii) (s s' t t' : string) :
  is_digit sep = false ->
  all_digits s = true -> all_digits s' = true ->
  (s ++ String sep t = s' ++ String sep t')%string ->
  s = s' /\ t = t'.
Proof.
  intros Hsep. revert s'.
  induction s as [|a s IH]; intros [|a' s'] Hs Hs' H; simpl in *.
  - injection H as <-. split; reflexivity.
  - injection H as <- _. apply andb_prop in Hs'. destruct Hs' as [Hd _].
    congruence.
  - injection H as -> _. apply andb_prop in Hs. destruct Hs as [Hd _].
    congruence.
  - injection H as <- H.
    apply andb_prop in Hs. apply andb_prop in Hs'.
    destruct (IH s' (proj2 Hs) (proj2 Hs') H) as [-> ->].
    split; reflexivity.
Qed.

Lemma string_of_uint_digits (d : Decimal.uint) :
  all_digits (NilEmpty.string_of_uint d) = true.
Proof. induction d; simpl; auto. Qed.

Lemma decimal_digits (n : nat) : all_digits (decimal n) = true.
Proof.
  unfold decimal, NilZero.string_of_uint.
  destruct (Nat.to_uint n) eqn:E; try reflexivity;
    rewrite <- E; apply string_of_uint_digits.
Qed.

Lemma to_uint_nonnil (n : nat) : Nat.to_uint n <> Decimal.Nil.
Proof.
  rewrite <- (Unsigned.of_to n) at 1. rewrite Unsigned.to_of.
  apply unorm_nonnil.
Qed.

Lemma decimal_inj (n n' : nat) : decimal n = decimal n' -> n = n'.
Proof.
  unfold decimal. intros H.
  apply Unsigned.to_uint_inj.
  pose proof (NilZero.usu _ (to_uint_nonnil n)) as E.
  pose proof (NilZero.usu _ (to_uint_nonnil n')) as E'.
  rewrite H in E. congruence.
Qed.

Lemma chunk_file_name_inj (prefix : string) (c r c' r' : nat) :
  chunk_file_name prefix c r = chunk_file_name prefix c' r' ->
  c = c' /\ r = r'.
Proof.
  unfold chunk_file_name. intros H.
  apply append_cancel_l in H. apply append_cancel_l in H.
  apply (digits_sep "_"%char) in H;
    [|reflexivity | apply decimal_digits | apply decimal_digits].
  destruct H as [Hc H].
  change ".glb"%string with (String "."%char "glb") in H.
  apply (digits_sep "."%char) in H;
    [|reflexivity | apply decimal_digits | apply decimal_digits].
  destruct H as [Hr _].
  split; apply decimal_inj; assumption.
Qed.

End NameFacts.

Section Manifest.

Import Py Np NpFacts Mesh MeshFacts ChunkFacts CeilFacts SeamFacts Spec.
Import OrderFacts DownsampleFacts ManifestFacts NameFacts.

(** X6. The manifest of [create_chunked_terrain], for any downsample
    factor, a chunk size of at least 1 and below 2^53 and a (downsampled)
    grid of fewer than 2^53 rows and columns, whenever the function
    returns: it records the chunk size and the world origin it was given,
    the chunk counts are the ceilings of the (downsampled) width and
    height over the chunk size, and it lists one entry per chunk in the
    order of the loop: entry [chunk_row * chunks_x + chunk_col] names
    the file [<prefix>_chunk_<chunk_col>_<chunk_row>.glb] and carries
    [chunk_x = chunk_col] and [chunk_z = chunk_row]. *)
Theorem manifest_layout (cos : float -> float) (grid : ndarray)
    (meta : Heightmap.metadata) (olat olon : float) (cs d : Z)
    (prefix : string) (man : manifest) (meshes : list mesh) :
  let g := downsample_grid grid d in
  1 <= cs < 2 ^ 53 ->
  Z.of_nat (ncols g) < 2 ^ 53 -> Z.of_nat (nrows g) < 2 ^ 53 ->
  create_chunked_terrain cos grid meta olat olon cs d prefix
  = Ok (man, meshes) ->
  let cx := Z.to_nat (chunks_x man) in
  let cz := Z.to_nat (chunks_z man) in
  chunk_size man = cs /\ origin_lat man = olat /\ origin_lon man = olon /\
  chunks_x man = (Z.of_nat (ncols g) + cs - 1) / cs /\
  chunks_z man = (Z.of_nat (nrows g) + cs - 1) / cs /\
  length (files man) = (cz * cx)%nat /\
  length meshes = (cz * cx)%nat /\
  forall chunk_row chunk_col, (chunk_row < cz)%nat -> (chunk_col < cx)%nat ->
    exists e,
      nth_error (files man) (chunk_row * cx + chunk_col) = Some e /\
      file e = chunk_file_name prefix chunk_col chunk_row /\
      chunk_x e = chunk_col /\ chunk_z e = chunk_row.
Proof.
  intros g Hcs HW HH Hrun cx cz.
  destruct (create_chunked_terrain_inv_any _ _ _ _ _ _ _ _ _ _ Hrun)
    as (qx & qz & chunks & Hqx & Hcx & Hqz & Hcz & Hsize & Hlat & Hlon
        & Hchunks & Hfiles & Hmeshes).
  fold g in Hqx, Hqz, Hchunks.
  assert (Ecx : chunks_x man = (Z.of_nat (ncols g) + cs - 1) / cs).
  { pose proof (ceil_int_truediv (Z.of_nat (ncols g)) cs ltac:(lia) ltac:(lia))
      as Hc.
    rewrite Hqx in Hc. cbn [bind] in Hc. rewrite Hcx in Hc.
    injection Hc as Hc. exact Hc. }
  assert (Ecz : chunks_z man = (Z.of_nat (nrows g) + cs - 1) / cs).
  { pose proof (ceil_int_truediv (Z.of_nat (nrows g)) cs ltac:(lia) ltac:(lia))
      as Hc.
    rewrite Hqz in Hc. cbn [bind] in Hc. rewrite Hcz in Hc.
    injection Hc as Hc. exact Hc. }
  destruct (mapM_grid _ _ _ _ Hchunks) as [Hlen Hnth]. fold cx cz in Hlen, Hnth.
  split; [exact Hsize|]. split; [exact Hlat|]. split; [exact Hlon|].
  split; [exact Ecx|]. split; [exact Ecz|].
  split; [rewrite Hfiles, length_map; exact Hlen|].
  split; [rewrite Hmeshes, length_map; exact Hlen|].
  intros chunk_row chunk_col Hr Hc.
  destruct (Hnth chunk_row chunk_col Hr Hc) as ([m e] & Hmk & Hn).
  exists e. split; [rewrite Hfiles, nth_error_map, Hn; reflexivity|].
  apply make_chunk_entry in Hmk.
  destruct (chunk_rows cs (Z.of_nat (nrows g)) chunk_row) as [rs re].
  destruct (chunk_cols cs (Z.of_nat (ncols g)) chunk_col) as [c0 ce].
  cbv zeta in Hmk. subst e. repeat split; reflexivity.
Qed.

Lemma manifest_layout_witness :
  exists man meshes e,
    create_chunked_terrain Examples.cos_at_zero Examples.grid_2x4
      (Examples.flat_meta (const 1) 4 2) zero zero 2 1 "terrain"
    = Ok (man, meshes) /\
    chunks_x man = 2 /\ chunks_z man = 1 /\
    nth_error (files man) 1 = Some e /\
    file e = "terrain_chunk_1_0.glb"%string.
Proof.
  assert (Hrun : exists man meshes,
            create_chunked_terrain Examples.cos_at_zero Examples.grid_2x4
              (Examples.flat_meta (const 1) 4 2) zero zero 2 1 "terrain"
            = Ok (man, meshes))
    by (vm_compute; eauto).
  destruct Hrun as (man & meshes & Hrun).
  destruct (manifest_layout Examples.cos_at_zero Examples.grid_2x4
              (Examples.flat_meta (const 1) 4 2) zero zero 2 1 "terrain"
              man meshes) as (_ & _ & _ & Hx & Hz & _ & _ & Hentry).
  - split; [lia | reflexivity].
  - reflexivity.
  - reflexivity.
  - exact Hrun.
  - change ((Z.of_nat (ncols (downsample_grid Examples.grid_2x4 1)) + 2 - 1)
            / 2) with 2 in Hx.
    change ((Z.of_nat (nrows (downsample_grid Examples.grid_2x4 1)) + 2 - 1)
            / 2) with 1 in Hz.
    destruct (Hentry 0%nat 1%nat) as (e & Hn & Hfile & _);
      [rewrite Hz; simpl; lia | rewrite Hx; simpl; lia |].
    rewrite Hx in Hn.
    exists man, meshes, e.
    split; [exact Hrun|]. split; [exact Hx|]. split; [exact Hz|].
    split; [exact Hn | exact Hfile].
Defined.

(** X7. No two entries of a manifest name the same file, so no chunk
    overwrites the file of another. *)
Theorem chunk_files_distinct (cos : float -> float) (grid : ndarray)
    (meta : Heightmap.metadata) (olat olon : float) (cs d : Z)
    (prefix : string) (man : manifest) (meshes : list mesh) :
  create_chunked_terrain cos grid meta olat olon cs d prefix
  = Ok (man, meshes) ->
  NoDup (map file (files man)).
Proof.
  intros Hrun.
  destruct (create_chunked_terrain_inv_any _ _ _ _ _ _ _ _ _ _ Hrun)
    as (qx & qz & chunks & _ & _ & _ & _ & _ & _ & _ & Hchunks & Hfiles & _).
  destruct (mapM_grid _ _ _ _ Hchunks) as [Hlen Hnth].
  set (cx := Z.to_nat (chunks_x man)) in *.
  set (cz := Z.to_nat (chunks_z man)) in *.
  assert (Hname : forall k, (k < cz * cx)%nat ->
            nth_error (map file (files man)) k
            = Some (chunk_file_name prefix (k mod cx) (k / cx))).
  { intros k Hk.
    assert (Hcx : (0 < cx)%nat) by (destruct cx; lia).
    destruct (Hnth (k / cx)%nat (k mod cx)%nat) as ([m e] & Hmk & Hn).
    - apply Nat.Div0.div_lt_upper_bound. lia.
    - apply Nat.mod_upper_bound. lia.
    - replace (k / cx * cx + k mod cx)%nat with k in Hn
        by (rewrite (Nat.div_mod_eq k cx) at 1; lia).
      rewrite Hfiles, !nth_error_map, Hn. cbn [option_map snd].
      apply make_chunk_entry in Hmk.
      destruct (chunk_rows cs _ (k / cx)%nat) as [rs re].
      destruct (chunk_cols cs _ (k mod cx)%nat) as [c0 ce].
      cbv zeta in Hmk. subst e. reflexivity. }
  assert (Hl : length (map file (files man)) = (cz * cx)%nat)
    by (rewrite Hfiles, !length_map; exact Hlen).
  apply NoDup_nth_error. intros i j Hi Hij.
  rewrite Hl in Hi.
  assert (Hj : (j < cz * cx)%nat).
  { rewrite <- Hl. apply nth_error_Some. rewrite <- Hij, Hname by exact Hi.
    discriminate. }
  rewrite (Hname i Hi), (Hname j Hj) in Hij. injection Hij as Hij.
  apply chunk_file_name_inj in Hij. destruct Hij as [Hm Hd].
  rewrite (Nat.div_mod_eq i cx), (Nat.div_mod_eq j cx), Hm, Hd. reflexivity.
Qed.

Lemma chunk_files_distinct_witness :
  exists man meshes,
    create_chunked_terrain Examples.cos_at_zero Examples.grid_2x4
      (Examples.flat_meta (const 1) 4 2) zero zero 2 1 "terrain"
    = Ok (man, meshes) /\
    map file (files man)
    = ["terrain_chunk_0_0.glb"%string; "terrain_chunk_1_0.glb"%string] /\
    NoDup (map file (files man)).
Proof.
  assert (Hrun : exists man meshes,
            create_chunked_terrain Examples.cos_at_zero Examples.grid_2x4
              (Examples.flat_meta (const 1) 4 2) zero zero 2 1 "terrain"
            = Ok (man, meshes) /\
            map file (files man)
            = ["terrain_chunk_0_0.glb"%string; "terrain_chunk_1_0.glb"%string])
    by (vm_compute; eauto).
  destruct Hrun as (man & meshes & Hrun & Hlen).
  exists man, meshes. split; [exact Hrun|]. split; [exact Hlen|].
  exact (chunk_files_distinct _ _ _ _ _ _ _ _ _ _ Hrun).
Defined.

End Manifest.

(** ** Which exceptions can be raised *)

Module ErrorFacts.

Import Py Np NpFacts Mesh MeshFacts ChunkFacts SeamFacts Spec RoundFacts.
Import Notions.

Lemma bind_raise {A B : Type} (m : result A) (k : A -> result B) (e : exn) :
  bind m k = Raise e -> m = Raise e \/ exists a, m = Ok a /\ k a = Raise e.
Proof.
  destruct m as [a|e']; simpl; intros H; [right; eauto|].
  left. injection H as <-. reflexivity.
Qed.

Lemma mapM_raise {A B : Type} (f : A -> result B) (l : list A) (e : exn) :
  mapM f l = Raise e -> exists x, In x l /\ f x = Raise e.
Proof.
  induction l as [|x t IH]; simpl; intros H; [discriminate|].
  apply bind_raise in H. destruct H as [H|(y & _ & H)].
  - exists x. auto.
  - apply bind_raise in H. destruct H as [H|(ys & _ & H)]; [|discriminate].
    destruct (IH H) as (x' & Hin & Hx). exists x'. auto.
Qed.

Lemma float_of_int_raise (z : Z) (e : exn) :
  float_of_int z = Raise e -> e = OverflowError.
Proof.
  unfold float_of_int.
  destruct (isinf (binary_normalize prec emax z 0 false)); congruence.
Qed.

Lemma int_mul_raise (z : Z) (x : float) (e : exn) :
  int_mul z x = Raise e -> e = OverflowError.
Proof.
  unfold int_mul. intros H. apply bind_raise in H.
  destruct H as [H|(f & _ & H)]; [|discriminate].
  exact (float_of_int_raise _ _ H).
Qed.

Lemma mul_int_raise (x : float) (z : Z) (e : exn) :
  mul_int x z = Raise e -> e = OverflowError.
Proof.
  unfold mul_int. intros H. apply bind_raise in H.
  destruct H as [H|(f & _ & H)]; [|discriminate].
  exact (float_of_int_raise _ _ H).
Qed.

Lemma latlon_to_local_raise (cos : float -> float)
    (lat lon olat olon : float) (e : exn) :
  latlon_to_local cos lat lon olat olon = Raise e ->
  e = ValueError /\ isinf (radians olat) = true.
Proof.
  unfold latlon_to_local, math_cos.
  destruct (isinf (radians olat)); cbn [bind]; [|discriminate].
  intros H. injection H as <-. split; reflexivity.
Qed.

Lemma make_vertex_raise (cos : float -> float) (g : ndarray)
    (lat0 lon0 ps olat olon : float) (r c : nat) (e : exn) :
  make_vertex cos g lat0 lon0 ps olat olon r c = Raise e ->
  domain_or_overflow olat e.
Proof.
  unfold make_vertex. intros H.
  apply bind_raise in H. destruct H as [H|(cp & _ & H)];
    [right; exact (int_mul_raise _ _ _ H)|].
  apply bind_raise in H. destruct H as [H|(rp & _ & H)];
    [right; exact (int_mul_raise _ _ _ H)|].
  apply bind_raise in H. destruct H as [H|([x z] & _ & H)]; [|discriminate].
  left. exact (latlon_to_local_raise _ _ _ _ _ _ H).
Qed.

Lemma to_int32_raise (z : Z) (e : exn) :
  to_int32 z = Raise e -> e = OverflowError.
Proof.
  unfold to_int32. destruct ((- 2 ^ 31 <=? z) && (z <? 2 ^ 31)); congruence.
Qed.

Lemma face_to_int32_raise (f : face) (e : exn) :
  face_to_int32 f = Raise e -> e = OverflowError.
Proof.
  destruct f as [[a b] c]. unfold face_to_int32. intros H.
  apply bind_raise in H. destruct H as [H|(a' & _ & H)];
    [exact (to_int32_raise _ _ H)|].
  apply bind_raise in H. destruct H as [H|(b' & _ & H)];
    [exact (to_int32_raise _ _ H)|].
  apply bind_raise in H. destruct H as [H|(c' & _ & H)];
    [exact (to_int32_raise _ _ H) | discriminate].
Qed.

Lemma terrain_arrays_raise (cos : float -> float) (grid : ndarray)
    (meta : Heightmap.metadata) (olat olon : float) (d : Z) (e : exn) :
  terrain_arrays cos grid meta olat olon d = Raise e ->
  domain_or_overflow olat e.
Proof.
  unfold terrain_arrays. intros H.
  apply bind_raise in H. destruct H as [H|(ps & _ & H)];
    [right; exact (mul_int_raise _ _ _ H)|].
  apply bind_raise in H. destruct H as [H|(vrows & _ & H)].
  - unfold vertex_rows in H.
    apply mapM_raise in H. destruct H as (r & _ & H).
    apply mapM_raise in H. destruct H as (c & _ & H).
    exact (make_vertex_raise _ _ _ _ _ _ _ _ _ _ H).
  - apply bind_raise in H. destruct H as [H|(fs & _ & H)]; [|discriminate].
    apply mapM_raise in H. destruct H as (f & _ & H).
    right. exact (face_to_int32_raise _ _ H).
Qed.

End ErrorFacts.

Section Errors.

Import Py Np NpFacts Mesh MeshFacts ChunkFacts SeamFacts Spec ErrorFacts.

(** X9. Building the vertex and face arrays, the part of
    [create_terrain_mesh] that precedes the mesh object, raises nothing
    but a [ValueError], and that only when the origin latitude in
    radians is infinite (the cosine of an infinity), or an
    [OverflowError] (an integer too large for a float or for the int32
    face array). *)
Theorem terrain_arrays_exceptions (cos : float -> float)
    (grid : ndarray) (meta : Heightmap.metadata) (olat olon : float)
    (d : Z) (e : exn) :
  terrain_arrays cos grid meta olat olon d = Raise e ->
  (e = ValueError /\ isinf (radians olat) = true) \/ e = OverflowError.
Proof. apply terrain_arrays_raise. Qed.

Lemma terrain_arrays_exceptions_witness :
  terrain_arrays Examples.cos_at_zero Examples.grid_2x2
    (Examples.flat_meta (const 1) 2 2) (S754_infinity false) zero 1
  = Raise ValueError /\
  create_terrain_mesh Examples.cos_at_zero Examples.grid_2x2
    (Examples.flat_meta (const 1) 2 2) (S754_infinity false) zero 1
  = Raise ValueError /\
  isinf (radians (S754_infinity false)) = true.
Proof.
  assert (Hrun : terrain_arrays Examples.cos_at_zero Examples.grid_2x2
                   (Examples.flat_meta (const 1) 2 2) (S754_infinity false)
                   zero 1 = Raise ValueError) by (vm_compute; reflexivity).
  split; [exact Hrun|]. split; [vm_compute; reflexivity|].
  destruct (terrain_arrays_exceptions _ _ _ _ _ _ _ Hrun)
    as [[_ H]|H]; [exact H | discriminate].
Defined.

(** X10. With a chunk size of 0, [create_chunked_terrain] raises
    [ZeroDivisionError] as soon as the downsample factor converts to a
    float: the width is divided by the chunk size before any chunk is
    built. *)
Theorem create_chunked_terrain_zero_chunk_size (cos : float -> float)
    (grid : ndarray) (meta : Heightmap.metadata) (olat olon : float)
    (d : Z) (prefix : string) (ps : float) :
  mul_int (Heightmap.pixelSizeDeg meta) d = Ok ps ->
  create_chunked_terrain cos grid meta olat olon 0 d prefix
  = Raise ZeroDivisionError.
Proof.
  intros Hps. unfold create_chunked_terrain. rewrite Hps. reflexivity.
Qed.

Lemma create_chunked_terrain_zero_chunk_size_witness :
  create_chunked_terrain Examples.cos_at_zero Examples.grid_2x2
    (Examples.flat_meta (const 1) 2 2) zero zero 0 1 "terrain"
  = Raise ZeroDivisionError.
Proof.
  apply (create_chunked_terrain_zero_chunk_size Examples.cos_at_zero
           Examples.grid_2x2 (Examples.flat_meta (const 1) 2 2) zero zero 1
           "terrain" (mul (const 1) (const 1))).
  reflexivity.
Defined.

End Errors.

(** ** The order on floats is transitive *)

Module UnionFacts.

Import Py Np Heightmap Spec OrderFacts ManifestFacts.

Lemma leb_trans (a b c : float) :
  leb a b = true -> leb b c = true -> leb a c = true.
Proof.
  unfold leb, SFleb.
  destruct a as [sa|sa| |sa ma ea], b as [sb|sb| |sb mb eb],
    c as [sc|sc| |sc mc ec]; cbn [SFcompare];
    try discriminate; try reflexivity;
    try (destruct sa, sb, sc; cbn; congruence);
    try (destruct sa, sb; cbn; congruence);
    try (destruct sa, sc; cbn; congruence);
    try (destruct sb, sc; cbn; congruence);
    try (destruct sa; cbn; congruence);
    try (destruct sb; cbn; congruence);
    try (destruct sc; cbn; congruence).
  change (Pos.compare_cont Eq ma mb) with (Pos.compare ma mb).
  change (Pos.compare_cont Eq mb mc) with (Pos.compare mb mc).
  change (Pos.compare_cont Eq ma mc) with (Pos.compare ma mc).
  destruct sa, sb, sc; try discriminate; try reflexivity;
    destruct (Z.compare_spec ea eb), (Z.compare_spec eb ec),
      (Z.compare_spec ea ec); cbn; try discriminate; try reflexivity;
      try lia;
    destruct (Pos.compare_spec ma mb), (Pos.compare_spec mb mc),
      (Pos.compare_spec ma mc); cbn; try discriminate; try reflexivity;
      lia.
Qed.

Lemma min_not_nan (a b : float) :
  isnan a = false -> isnan b = false -> isnan (min a b) = false.
Proof. unfold min. destruct (ltb b a); auto. Qed.

Lemma max_not_nan (a b : float) :
  isnan a = false -> isnan b = false -> isnan (max a b) = false.
Proof. unfold max. destruct (gtb b a); auto. Qed.

Lemma fold_min_lower (l : list float) (acc : float) :
  isnan acc = false -> Forall (fun x => isnan x = false) l ->
  isnan (fold_left min l acc) = false /\
  leb (fold_left min l acc) acc = true /\
  Forall (fun x => leb (fold_left min l acc) x = true) l /\
  In (fold_left min l acc) (acc :: l).
Proof.
  intros Hacc Hall. revert acc Hacc.
  induction Hall as [|x t Hx _ IH]; intros acc Hacc; cbn [fold_left].
  - split; [exact Hacc|]. split; [apply leb_refl; exact Hacc|].
    split; [constructor | left; reflexivity].
  - destruct (IH (min acc x) (min_not_nan _ _ Hacc Hx))
      as (Hn & Hle & Hrest & Hin).
    destruct (min_lower acc x Hacc Hx) as [Ha Hb].
    split; [exact Hn|].
    split; [exact (leb_trans _ _ _ Hle Ha)|].
    split; [constructor; [exact (leb_trans _ _ _ Hle Hb) | exact Hrest]|].
    destruct Hin as [Hin|Hin].
    + unfold min in Hin at 1. destruct (ltb x acc).
      * right. left. exact Hin.
      * left. exact Hin.
    + right. right. exact Hin.
Qed.

Lemma fold_max_upper (l : list float) (acc : float) :
  isnan acc = false -> Forall (fun x => isnan x = false) l ->
  isnan (fold_left max l acc) = false /\
  leb acc (fold_left max l acc) = true /\
  Forall (fun x => leb x (fold_left max l acc) = true) l /\
  In (fold_left max l acc) (acc :: l).
Proof.
  intros Hacc Hall. revert acc Hacc.
  induction Hall as [|x t Hx _ IH]; intros acc Hacc; cbn [fold_left].
  - split; [exact Hacc|]. split; [apply leb_refl; exact Hacc|].
    split; [constructor | left; reflexivity].
  - destruct (IH (max acc x) (max_not_nan _ _ Hacc Hx))
      as (Hn & Hle & Hrest & Hin).
    destruct (max_upper acc x Hacc Hx) as [Ha Hb].
    split; [exact Hn|].
    split; [exact (leb_trans _ _ _ Ha Hle)|].
    split; [constructor; [exact (leb_trans _ _ _ Hb Hle) | exact Hrest]|].
    destruct Hin as [Hin|Hin].
    + unfold max in Hin at 1. destruct (gtb x acc).
      * right. left. exact Hin.
      * left. exact Hin.
    + right. right. exact Hin.
Qed.

Lemma min_list_lower (l : list float) (m : float) :
  Forall (fun x => isnan x = false) l -> min_list l = Ok m ->
  Forall (fun x => leb m x = true) l /\ In m l.
Proof.
  intros Hall H. destruct l as [|x t]; [discriminate|].
  injection H as <-. inversion Hall as [|x' t' Hx Ht]; subst x' t'.
  destruct (fold_min_lower t x Hx Ht) as (_ & Hle & Hrest & Hin).
  split; [constructor; assumption | exact Hin].
Qed.

Lemma max_list_upper (l : list float) (m : float) :
  Forall (fun x => isnan x = false) l -> max_list l = Ok m ->
  Forall (fun x => leb x m = true) l /\ In m l.
Proof.
  intros Hall H. destruct l as [|x t]; [discriminate|].
  injection H as <-. inversion Hall as [|x' t' Hx Ht]; subst x' t'.
  destruct (fold_max_upper t x Hx Ht) as (_ & Hle & Hrest & Hin).
  split; [constructor; assumption | exact Hin].
Qed.

End UnionFacts.

Section UnionBounds.

Import Py Np Heightmap Spec OrderFacts UnionFacts.

(** X11. The box that [compute_union_bounds] returns contains the box
    of every tile, and each of its four edges is the edge of some tile,
    provided no tile box has a NaN edge: the minimum longitude and
    latitude are at most, and the maximum longitude and latitude at
    least, those of every tile. *)
Theorem union_bounds_contain_tiles (tiles : list Tile) (bs : list box)
    (min_lon min_lat max_lon max_lat : float) :
  mapM bounds tiles = Ok bs ->
  Forall (fun '(a, b, c, d) =>
            isnan a = false /\ isnan b = false /\
            isnan c = false /\ isnan d = false) bs ->
  compute_union_bounds tiles = Ok (min_lon, min_lat, max_lon, max_lat) ->
  Forall (fun '(a, b, c, d) =>
            leb min_lon a = true /\ leb min_lat b = true /\
            leb c max_lon = true /\ leb d max_lat = true) bs /\
  In min_lon (map (fun '(a, _, _, _) => a) bs) /\
  In min_lat (map (fun '(_, b, _, _) => b) bs) /\
  In max_lon (map (fun '(_, _, c, _) => c) bs) /\
  In max_lat (map (fun '(_, _, _, d) => d) bs).
Proof.
  intros Hbs Hnum Hu. unfold compute_union_bounds in Hu. rewrite Hbs in Hu.
  cbn [bind] in Hu.
  apply bind_ok in Hu. destruct Hu as (m0 & H0 & Hu).
  apply bind_ok in Hu. destruct Hu as (m1 & H1 & Hu).
  apply bind_ok in Hu. destruct Hu as (m2 & H2 & Hu).
  apply bind_ok in Hu. destruct Hu as (m3 & H3 & Hu).
  injection Hu as -> -> -> ->.
  apply min_list_lower in H0;
    [|rewrite Forall_map; eapply Forall_impl; [|exact Hnum];
      intros [[[a b] c] d]; tauto].
  apply min_list_lower in H1;
    [|rewrite Forall_map; eapply Forall_impl; [|exact Hnum];
      intros [[[a b] c] d]; tauto].
  apply max_list_upper in H2;
    [|rewrite Forall_map; eapply Forall_impl; [|exact Hnum];
      intros [[[a b] c] d]; tauto].
  apply max_list_upper in H3;
    [|rewrite Forall_map; eapply Forall_impl; [|exact Hnum];
      intros [[[a b] c] d]; tauto].
  destruct H0 as [L0 I0], H1 as [L1 I1], H2 as [L2 I2], H3 as [L3 I3].
  split; [|tauto].
  rewrite Forall_map in L0, L1, L2, L3.
  rewrite Forall_forall in *.
  intros [[[a b] c] d] Hin.
  specialize (L0 _ Hin). specialize (L1 _ Hin).
  specialize (L2 _ Hin). specialize (L3 _ Hin).
  cbv beta iota in L0, L1, L2, L3. tauto.
Qed.

Lemma union_bounds_contain_tiles_witness :
  compute_union_bounds
    [Examples.tile_A zero zero zero zero; Examples.tile_B zero zero zero zero]
  = Ok Examples.union_AB /\
  leb zero (literal 5 1) = true /\
  leb (const 2) (literal 25 1) = true.
Proof.
  destruct (union_bounds_contain_tiles
              [Examples.tile_A zero zero zero zero;
               Examples.tile_B zero zero zero zero]
              [(zero, const (-1), const 2, const 1);
               (literal 5 1, const (-1), literal 25 1, const 1)]
              zero (const (-1)) (literal 25 1) (const 1))
    as [Hall _].
  - vm_compute. reflexivity.
  - repeat constructor.
  - vm_compute. reflexivity.
  - split; [vm_compute; reflexivity|].
    inversion Hall as [|x l HA Hrest]; subst.
    inversion Hrest as [|y l' HB _]; subst.
    split; [exact (proj1 HB) | exact (proj1 (proj2 (proj2 HA)))].
Defined.

End UnionBounds.

Module MainFacts.

Import Py Np NpFacts Heightmap HeightmapFacts Spec.

(** What [main] returns besides the cells of the grid. *)
Lemma main_inv (cos : float -> float)
    (tiles : list Tile) (center_lat0 center_lon0 radius_miles : float)
    (grid : ndarray) (meta : metadata) :
  Forall (fun t => wf (data t)) tiles ->
  main cos tiles center_lat0 center_lon0 radius_miles = Ok (grid, meta) ->
  wf grid /\
  Z.of_nat (nrows grid) = height meta /\
  Z.of_nat (ncols grid) = width meta /\
  exists t0 rest u min_lon min_lat max_lon max_lat,
    tiles = t0 :: rest /\
    compute_union_bounds tiles = Ok u /\
    clamp_bounds cos u center_lat0 center_lon0 radius_miles
    = Ok (min_lon, min_lat, max_lon, max_lat) /\
    grid_size (scale_lon t0) (scale_lat t0) (min_lon, min_lat, max_lon, max_lat)
    = Ok (height meta, width meta) /\
    originLat meta = max_lat /\ originLon meta = min_lon /\
    pixelSizeDeg meta = scale_lon t0 /\
    center_lat meta = center_lat0 /\ center_lon meta = center_lon0 /\
    radiusMiles meta = radius_miles.
Proof.
  intros Hall Hm. unfold Heightmap.main in Hm.
  destruct tiles as [|t0 rest] eqn:Et; [discriminate|]. rewrite <- Et in *.
  apply bind_ok in Hm. destruct Hm as (u & Hu & Hm).
  apply bind_ok in Hm.
  destruct Hm as ([[[min_lon min_lat] max_lon] max_lat] & Hclip & Hm).
  apply bind_ok in Hm. destruct Hm as ([[g h] w] & Hcomp & Hm).
  injection Hm as <- <-.
  destruct (composite_spec _ _ _ _ _ Hall Hcomp)
    as (t0' & rest' & Et' & Hsize & _ & _ & Hh & Hw & Hwf & _).
  rewrite Et in Et'. injection Et' as <- <-.
  cbn [height width originLat originLon pixelSizeDeg center_lat center_lon
       radiusMiles].
  split; [exact Hwf|]. split; [exact Hh|]. split; [exact Hw|].
  exists t0, rest, u, min_lon, min_lat, max_lon, max_lat.
  repeat split; assumption.
Qed.

End MainFacts.

Section MainMetadata.

Import Py Np NpFacts Heightmap HeightmapFacts Spec MainFacts.

(** X12. The metadata that [main] writes describes the grid it writes:
    [width] and [height] are the grid's shape, the grid is rectangular,
    [originLat] and [originLon] are the top-left corner (maximum
    latitude, minimum longitude) of the clamped union box, and
    [pixelSizeDeg] is the longitude scale of the first tile. *)
Theorem main_metadata_matches_grid (cos : float -> float)
    (tiles : list Tile) (center_lat0 center_lon0 radius_miles : float)
    (grid : ndarray) (meta : metadata) :
  Forall (fun t => wf (data t)) tiles ->
  main cos tiles center_lat0 center_lon0 radius_miles = Ok (grid, meta) ->
  wf grid /\
  Z.of_nat (nrows grid) = height meta /\
  Z.of_nat (ncols grid) = width meta /\
  exists t0 rest u min_lon min_lat max_lon max_lat,
    tiles = t0 :: rest /\
    compute_union_bounds tiles = Ok u /\
    clamp_bounds cos u center_lat0 center_lon0 radius_miles
    = Ok (min_lon, min_lat, max_lon, max_lat) /\
    grid_size (scale_lon t0) (scale_lat t0) (min_lon, min_lat, max_lon, max_lat)
    = Ok (height meta, width meta) /\
    originLat meta = max_lat /\ originLon meta = min_lon /\
    pixelSizeDeg meta = scale_lon t0 /\
    center_lat meta = center_lat0 /\ center_lon meta = center_lon0 /\
    radiusMiles meta = radius_miles.
Proof. apply main_inv. Qed.

Lemma main_metadata_matches_grid_witness :
  exists grid meta,
    main Examples.cos_at_zero
      [Examples.tile_A (const 1) (const 2) (const 3) (const 4)]
      zero (const 1) (const 69) = Ok (grid, meta) /\
    Z.of_nat (nrows grid) = height meta /\
    Z.of_nat (ncols grid) = width meta.
Proof.
  assert (Hrun : exists grid meta,
            main Examples.cos_at_zero
              [Examples.tile_A (const 1) (const 2) (const 3) (const 4)]
              zero (const 1) (const 69) = Ok (grid, meta))
    by (vm_compute; eauto).
  destruct Hrun as (grid & meta & Hrun). exists grid, meta.
  split; [exact Hrun|].
  destruct (main_metadata_matches_grid Examples.cos_at_zero
              [Examples.tile_A (const 1) (const 2) (const 3) (const 4)]
              zero (const 1) (const 69) grid meta) as (_ & Hh & Hw & _).
  - repeat constructor.
  - exact Hrun.
  - split; assumption.
Defined.

End MainMetadata.

(** ** Tiles that do not overlap *)

Module CommuteFacts.

Import Py Np NpFacts Heightmap HeightmapFacts Spec.

Lemma ndarray_ext (a b : ndarray) :
  wf a -> wf b -> nrows a = nrows b -> ncols a = ncols b ->
  (forall r c, (r < nrows a)%nat -> (c < ncols a)%nat ->
     get a r c = get b r c) ->
  a = b.
Proof.
  destruct a as [ha wa ra], b as [hb wb rb]. unfold wf, get.
  cbn [nrows ncols rows]. intros [Hla Hfa] [Hlb Hfb] <- <- Hget.
  f_equal. apply (nth_ext _ _ [] []); [congruence|].
  intros r Hr. rewrite Hla in Hr.
  rewrite Forall_forall in Hfa, Hfb.
  assert (Ha : length (nth r ra []) = wa)
    by (apply Hfa, nth_In; lia).
  assert (Hb : length (nth r rb []) = wa)
    by (apply Hfb, nth_In; lia).
  apply (nth_ext _ _ nan nan); [congruence|].
  intros c Hc. apply Hget; lia.
Qed.

Lemma foldM_app {A S : Type} (f : S -> A -> result S) (l1 l2 : list A)
    (s : S) :
  foldM f (l1 ++ l2) s = (s' <- foldM f l1 s ;; foldM f l2 s').
Proof.
  revert s. induction l1 as [|x t IH]; intros s; cbn [app foldM bind].
  - reflexivity.
  - destruct (f s x) as [s1|e]; cbn [bind]; [apply IH | reflexivity].
Qed.

Section Loop.

Variables (scale_lon0 scale_lat0 : float) (clip : box) (height width : Z).

(** Whether the assignment of a tile raises depends on the shape of the
    grid only. *)
Lemma composite_tile_shape_only (grid grid' : ndarray) (tile : Tile)
    (g : ndarray) :
  nrows grid' = nrows grid -> ncols grid' = ncols grid ->
  composite_tile scale_lon0 scale_lat0 clip height width grid tile = Ok g ->
  exists g',
    composite_tile scale_lon0 scale_lat0 clip height width grid' tile = Ok g'.
Proof.
  intros Hr Hc. unfold composite_tile.
  destruct (tile_window scale_lon0 scale_lat0 clip height width tile)
    as [[w|]|e]; cbn [bind]; [| eauto | discriminate].
  unfold paste, setitem_slice2. rewrite Hr, Hc.
  destruct (slice_range (nrows grid) (row_start w) (row_end w)) as [r0 rl].
  destruct (slice_range (ncols grid) (col_start w) (col_end w)) as [c0 cl].
  destruct (broadcastable _ rl && broadcastable _ cl); [eauto | discriminate].
Qed.

Lemma cell_step_commute (a b : Tile) (r c : nat) (v : float) :
  (forall wa wb,
     tile_window scale_lon0 scale_lat0 clip height width a = Ok (Some wa) ->
     tile_window scale_lon0 scale_lat0 clip height width b = Ok (Some wb) ->
     covers wa r c = true -> covers wb r c = false) ->
  cell_step scale_lon0 scale_lat0 clip height width r c
    (cell_step scale_lon0 scale_lat0 clip height width r c v a) b
  = cell_step scale_lon0 scale_lat0 clip height width r c
      (cell_step scale_lon0 scale_lat0 clip height width r c v b) a.
Proof.
  intros Hdis. unfold cell_step.
  destruct (tile_window scale_lon0 scale_lat0 clip height width a)
    as [[wa|]|ea]; try reflexivity.
  destruct (tile_window scale_lon0 scale_lat0 clip height width b)
    as [[wb|]|eb]; try reflexivity.
  specialize (Hdis wa wb eq_refl eq_refl).
  destruct (covers wa r c); [|reflexivity].
  rewrite (Hdis eq_refl). reflexivity.
Qed.

Lemma swap_two (a b : Tile) (grid g : ndarray) :
  wf grid -> wf (data a) -> wf (data b) ->
  Z.of_nat (nrows grid) = height -> Z.of_nat (ncols grid) = width ->
  (forall wa wb r c,
     tile_window scale_lon0 scale_lat0 clip height width a = Ok (Some wa) ->
     tile_window scale_lon0 scale_lat0 clip height width b = Ok (Some wb) ->
     covers wa r c = true -> covers wb r c = false) ->
  foldM (composite_tile scale_lon0 scale_lat0 clip height width) [a; b] grid
  = Ok g ->
  foldM (composite_tile scale_lon0 scale_lat0 clip height width) [b; a] grid
  = Ok g.
Proof.
  intros Hwf Ha Hb Hh Hw Hdis H. cbn [foldM] in *.
  apply bind_ok in H. destruct H as (ga & Hga & H).
  apply bind_ok in H. destruct H as (gab & Hgab & H). injection H as <-.
  destruct (composite_tile_spec _ _ _ _ _ _ _ _ Hwf Ha Hh Hw Hga)
    as (Hr1 & Hc1 & Hwf1 & Hget1).
  assert (Hh1 : Z.of_nat (nrows ga) = height) by (rewrite Hr1; exact Hh).
  assert (Hw1 : Z.of_nat (ncols ga) = width) by (rewrite Hc1; exact Hw).
  destruct (composite_tile_spec _ _ _ _ _ _ _ _ Hwf1 Hb Hh1 Hw1 Hgab)
    as (Hr2 & Hc2 & Hwf2 & Hget2).
  destruct (composite_tile_shape_only ga grid b gab (eq_sym Hr1) (eq_sym Hc1)
              Hgab) as [gb Hgb].
  destruct (composite_tile_spec _ _ _ _ _ _ _ _ Hwf Hb Hh Hw Hgb)
    as (Hr3 & Hc3 & Hwf3 & Hget3).
  assert (Hh3 : Z.of_nat (nrows gb) = height) by (rewrite Hr3; exact Hh).
  assert (Hw3 : Z.of_nat (ncols gb) = width) by (rewrite Hc3; exact Hw).
  destruct (composite_tile_shape_only grid gb a ga Hr3 Hc3 Hga)
    as [gba Hgba].
  destruct (composite_tile_spec _ _ _ _ _ _ _ _ Hwf3 Ha Hh3 Hw3 Hgba)
    as (Hr4 & Hc4 & Hwf4 & Hget4).
  rewrite Hgb. cbn [bind]. rewrite Hgba. cbn [bind]. f_equal.
  apply ndarray_ext; try assumption; try congruence.
  intros r c Hr Hc.
  rewrite Hget4 by congruence. rewrite Hget3 by congruence.
  rewrite Hget2 by congruence. rewrite Hget1 by congruence.
  symmetry. apply cell_step_commute. intros wa wb. apply Hdis.
Qed.

Lemma swap_adjacent (pre post : list Tile) (a b : Tile) (grid g : ndarray) :
  wf grid -> Forall (fun t => wf (data t)) (pre ++ a :: b :: post) ->
  Z.of_nat (nrows grid) = height -> Z.of_nat (ncols grid) = width ->
  (forall wa wb r c,
     tile_window scale_lon0 scale_lat0 clip height width a = Ok (Some wa) ->
     tile_window scale_lon0 scale_lat0 clip height width b = Ok (Some wb) ->
     covers wa r c = true -> covers wb r c = false) ->
  foldM (composite_tile scale_lon0 scale_lat0 clip height width)
    (pre ++ a :: b :: post) grid = Ok g ->
  foldM (composite_tile scale_lon0 scale_lat0 clip height width)
    (pre ++ b :: a :: post) grid = Ok g.
Proof.
  intros Hwf Hall Hh Hw Hdis H.
  apply Forall_app in Hall. destruct Hall as [Hpre Hrest].
  inversion Hrest as [|a' l' Ha Hrest']; subst a' l'.
  inversion Hrest' as [|b' l' Hb _]; subst b' l'.
  rewrite foldM_app in H |- *.
  apply bind_ok in H. destruct H as (g0 & Hg0 & H). rewrite Hg0. cbn [bind].
  destruct (composite_loop_spec _ _ _ _ _ _ _ _ Hwf Hpre Hh Hw Hg0)
    as (Hr0 & Hc0 & Hwf0 & _).
  change (a :: b :: post) with ([a; b] ++ post) in H.
  change (b :: a :: post) with ([b; a] ++ post).
  rewrite foldM_app in H |- *.
  apply bind_ok in H. destruct H as (g1 & Hg1 & H).
  assert (Hh0 : Z.of_nat (nrows g0) = height) by (rewrite Hr0; exact Hh).
  assert (Hw0 : Z.of_nat (ncols g0) = width) by (rewrite Hc0; exact Hw).
  rewrite (swap_two a b g0 g1 Hwf0 Ha Hb Hh0 Hw0 Hdis Hg1).
  exact H.
Qed.

End Loop.

End CommuteFacts.

Section Commute.

Import Py Np NpFacts Heightmap HeightmapFacts Spec CommuteFacts.

(** X13. Two tiles processed one after the other whose windows in the
    grid share no cell can be exchanged: the compositing stage returns
    the same grid.  (The first tile of the list is left in place: it
    fixes the pixel scale of the grid.) *)
Theorem disjoint_tiles_commute (t0 : Tile) (pre post : list Tile)
    (a b : Tile) (clip : box) (g : ndarray) (h w : Z) :
  Forall (fun t => wf (data t)) (t0 :: pre ++ a :: b :: post) ->
  composite (t0 :: pre ++ a :: b :: post) clip = Ok (g, h, w) ->
  (forall wa wb r c,
     tile_window (scale_lon t0) (scale_lat t0) clip h w a = Ok (Some wa) ->
     tile_window (scale_lon t0) (scale_lat t0) clip h w b = Ok (Some wb) ->
     covers wa r c = true -> covers wb r c = false) ->
  composite (t0 :: pre ++ b :: a :: post) clip = Ok (g, h, w).
Proof.
  intros Hall Hc Hdis. unfold composite in *.
  apply bind_ok in Hc. destruct Hc as ([h' w'] & Hsize & Hc).
  rewrite Hsize. cbn [bind] in *.
  apply bind_ok in Hc. destruct Hc as (g0 & Hfull & Hc).
  rewrite Hfull. cbn [bind].
  apply bind_ok in Hc. destruct Hc as (g1 & Hloop & Hc).
  injection Hc as -> -> ->.
  destruct (full_ok _ _ _ _ Hfull) as (Hh & Hw & Hnr & Hnc & Hwf0 & _).
  change (t0 :: pre ++ a :: b :: post)
    with ((t0 :: pre) ++ a :: b :: post) in Hloop, Hall.
  change (t0 :: pre ++ b :: a :: post) with ((t0 :: pre) ++ b :: a :: post).
  assert (Hh0 : Z.of_nat (nrows g0) = h) by lia.
  assert (Hw0 : Z.of_nat (ncols g0) = w) by lia.
  rewrite (swap_adjacent (scale_lon t0) (scale_lat t0) clip h w
             (t0 :: pre) post a b g0 g Hwf0 Hall Hh0 Hw0 Hdis Hloop).
  reflexivity.
Qed.

Lemma disjoint_tiles_commute_witness :
  exists g,
    composite
      [Examples.tile_A (const 1) (const 2) (const 3) (const 4);
       Examples.tile_2x2 "c.tif" (const 2) (const 1)
         (const 5) (const 6) (const 7) (const 8);
       Examples.tile_2x2 "d.tif" zero (const 1)
         (const 9) (const 9) (const 9) (const 9)]
      (zero, const (-1), const 4, const 1) = Ok (g, 2, 4) /\
    composite
      [Examples.tile_A (const 1) (const 2) (const 3) (const 4);
       Examples.tile_2x2 "d.tif" zero (const 1)
         (const 9) (const 9) (const 9) (const 9);
       Examples.tile_2x2 "c.tif" (const 2) (const 1)
         (const 5) (const 6) (const 7) (const 8)]
      (zero, const (-1), const 4, const 1) = Ok (g, 2, 4).
Proof.
  set (t0 := Examples.tile_A (const 1) (const 2) (const 3) (const 4)).
  set (a := Examples.tile_2x2 "c.tif" (const 2) (const 1)
              (const 5) (const 6) (const 7) (const 8)).
  set (b := Examples.tile_2x2 "d.tif" zero (const 1)
              (const 9) (const 9) (const 9) (const 9)).
  set (clip := (zero, const (-1), const 4, const 1)).
  assert (Hrun : exists g, composite [t0; a; b] clip = Ok (g, 2, 4))
    by (vm_compute; eauto).
  destruct Hrun as [g Hrun]. exists g. split; [exact Hrun|].
  apply (disjoint_tiles_commute t0 [] [] a b clip g 2 4).
  - repeat constructor.
  - exact Hrun.
  - intros wa wb r c Ha Hb.
    vm_compute in Ha. injection Ha as <-.
    vm_compute in Hb. injection Hb as <-.
    unfold covers. cbn [row_start row_end col_start col_end].
    intros Hc. rewrite !andb_true_iff, !Z.leb_le, !Z.ltb_lt in Hc.
    rewrite !andb_false_iff, !Z.leb_gt, !Z.ltb_ge. lia.
Defined.

End Commute.

Module PartitionFacts.

Import Mesh.

(** The chunk that holds both ends of the step from [r] to [r + 1]. *)
Lemma step_in_one_chunk (cs n r : Z) (k : nat) :
  1 <= cs -> 0 <= r -> r + 1 < n ->
  (fst (chunk_rows cs n k) <= r /\ r + 1 < snd (chunk_rows cs n k)) <->
  Z.of_nat k = r / cs.
Proof.
  intros Hcs Hr Hn. unfold chunk_rows. cbn [fst snd].
  pose proof (Z.div_mod r cs ltac:(lia)) as Hdm.
  pose proof (Z.mod_pos_bound r cs ltac:(lia)) as Hmod.
  split.
  - intros [Hlo Hhi].
    apply (Z.div_unique r cs (Z.of_nat k) (r - Z.of_nat k * cs)); lia.
  - intros ->. split; lia.
Qed.

Lemma step_chunk_exists (cs n r : Z) :
  1 <= cs -> 0 <= r -> r + 1 < n ->
  0 <= r / cs < (n + cs - 1) / cs.
Proof.
  intros Hcs Hr Hn. split; [apply Z.div_pos; lia|].
  replace (n + cs - 1) with (n - 1 + 1 * cs) by lia.
  rewrite Z.div_add by lia.
  pose proof (Z.div_le_mono r (n - 1) cs ltac:(lia) ltac:(lia)). lia.
Qed.

End PartitionFacts.

Section Partition.

Import Py Np NpFacts Mesh MeshFacts ChunkFacts CeilFacts SeamFacts Spec.
Import ManifestFacts PartitionFacts.

(** X14. The chunks partition the quads of the (downsampled) grid: the
    quad whose top-left sample is [(r, c)] lies, with all four corners,
    in the rows and columns of the chunk
    [(r div chunk_size, c div chunk_size)], which is one of the chunks
    produced, and in those of no other chunk.  The one-sample overlap
    repeats boundary vertices, not triangles. *)
Theorem every_quad_in_one_chunk (cos : float -> float) (grid : ndarray)
    (meta : Heightmap.metadata) (olat olon : float) (cs d : Z)
    (prefix : string) (man : manifest) (meshes : list mesh) (r c : nat) :
  let H := Z.of_nat (nrows (downsample_grid grid d)) in
  let W := Z.of_nat (ncols (downsample_grid grid d)) in
  1 <= cs < 2 ^ 53 -> W < 2 ^ 53 -> H < 2 ^ 53 ->
  create_chunked_terrain cos grid meta olat olon cs d prefix
  = Ok (man, meshes) ->
  Z.of_nat r + 1 < H -> Z.of_nat c + 1 < W ->
  0 <= Z.of_nat r / cs < chunks_z man /\
  0 <= Z.of_nat c / cs < chunks_x man /\
  forall chunk_row chunk_col : nat,
    (fst (chunk_rows cs H chunk_row) <= Z.of_nat r /\
     Z.of_nat r + 1 < snd (chunk_rows cs H chunk_row) /\
     fst (chunk_cols cs W chunk_col) <= Z.of_nat c /\
     Z.of_nat c + 1 < snd (chunk_cols cs W chunk_col)) <->
    (Z.of_nat chunk_row = Z.of_nat r / cs /\
     Z.of_nat chunk_col = Z.of_nat c / cs).
Proof.
  intros H W Hcs HW HH Hrun Hr Hc.
  destruct (create_chunked_terrain_inv_any _ _ _ _ _ _ _ _ _ _ Hrun)
    as (qx & qz & chunks & Hqx & Hcx & Hqz & Hcz & _).
  fold W in Hqx. fold H in Hqz.
  assert (Ecx : chunks_x man = (W + cs - 1) / cs).
  { pose proof (ceil_int_truediv W cs ltac:(subst W; lia) ltac:(lia)) as Hq.
    rewrite Hqx in Hq. cbn [bind] in Hq. rewrite Hcx in Hq.
    injection Hq as Hq. exact Hq. }
  assert (Ecz : chunks_z man = (H + cs - 1) / cs).
  { pose proof (ceil_int_truediv H cs ltac:(subst H; lia) ltac:(lia)) as Hq.
    rewrite Hqz in Hq. cbn [bind] in Hq. rewrite Hcz in Hq.
    injection Hq as Hq. exact Hq. }
  split; [rewrite Ecz; apply step_chunk_exists; lia|].
  split; [rewrite Ecx; apply step_chunk_exists; lia|].
  intros chunk_row chunk_col.
  pose proof (step_in_one_chunk cs H (Z.of_nat r) chunk_row
                ltac:(lia) ltac:(lia) Hr) as Prow.
  pose proof (step_in_one_chunk cs W (Z.of_nat c) chunk_col
                ltac:(lia) ltac:(lia) Hc) as Pcol.
  unfold chunk_cols. unfold chunk_rows in Pcol. tauto.
Qed.

Lemma every_quad_in_one_chunk_witness :
  exists man meshes,
    create_chunked_terrain Examples.cos_at_zero Examples.grid_2x4
      (Examples.flat_meta (const 1) 4 2) zero zero 2 1 "terrain"
    = Ok (man, meshes) /\
    0 <= 0 / 2 < chunks_z man /\ 0 <= 2 / 2 < chunks_x man.
Proof.
  assert (Hrun : exists man meshes,
            create_chunked_terrain Examples.cos_at_zero Examples.grid_2x4
              (Examples.flat_meta (const 1) 4 2) zero zero 2 1 "terrain"
            = Ok (man, meshes))
    by (vm_compute; eauto).
  destruct Hrun as (man & meshes & Hrun). exists man, meshes.
  split; [exact Hrun|].
  destruct (every_quad_in_one_chunk Examples.cos_at_zero Examples.grid_2x4
              (Examples.flat_meta (const 1) 4 2) zero zero 2 1 "terrain"
              man meshes 0 2) as (Hz & Hx & _).
  - split; [lia | reflexivity].
  - reflexivity.
  - reflexivity.
  - exact Hrun.
  - vm_compute. reflexivity.
  - vm_compute. reflexivity.
  - split; [exact Hz | exact Hx].
Defined.

End Partition.

(** ** The heightmap binary *)

Module FileFacts.

Import Py Np NpFacts Heightmap HeightmapFacts Spec HeightmapFiles MeshFiles.

Lemma split_rows_concat {A : Type} (w : nat) (rs : list (list A)) :
  Forall (fun r => length r = w) rs ->
  split_rows (length rs) w (concat rs) = rs.
Proof.
  induction 1 as [|r rs Hr _ IH]; [reflexivity|].
  cbn [length split_rows concat].
  rewrite firstn_app, <- Hr, firstn_all, Nat.sub_diag, firstn_O, app_nil_r.
  rewrite skipn_app, skipn_all, Nat.sub_diag, skipn_O. cbn [app].
  rewrite Hr. f_equal. exact IH.
Qed.

Lemma split_rows_length {A : Type} (h w : nat) (l : list A) :
  length (split_rows h w l) = h.
Proof.
  revert l. induction h as [|h IH]; intros l; cbn [split_rows length];
    [reflexivity | f_equal; apply IH].
Qed.

Lemma split_rows_widths {A : Type} (h w : nat) (l : list A) :
  length l = (h * w)%nat ->
  Forall (fun r => length r = w) (split_rows h w l).
Proof.
  revert l. induction h as [|h IH]; intros l Hl; cbn [split_rows];
    constructor.
  - rewrite length_firstn. lia.
  - apply IH. rewrite length_skipn. lia.
Qed.

Lemma concat_split_rows {A : Type} (h w : nat) (l : list A) :
  length l = (h * w)%nat -> concat (split_rows h w l) = l.
Proof.
  revert l. induction h as [|h IH]; intros l Hl; cbn [split_rows concat].
  - destruct l; [reflexivity | discriminate].
  - rewrite IH by (rewrite length_skipn; lia). apply firstn_skipn.
Qed.

Lemma tofile_length (a : ndarray) :
  wf a -> length (tofile a) = (nrows a * ncols a)%nat.
Proof.
  intros [Hr Hall]. unfold tofile.
  rewrite (concat_length_uniform _ _ Hall), Hr. reflexivity.
Qed.

(** Reading back what [tofile] wrote. *)
Lemma reshape_tofile (a : ndarray) :
  wf a ->
  reshape (tofile a) (Z.of_nat (nrows a)) (Z.of_nat (ncols a)) = Ok a.
Proof.
  intros Hwf. pose proof (tofile_length a Hwf) as Hlen.
  destruct Hwf as [Hr Hall]. unfold reshape.
  replace (Z.of_nat (nrows a) <? 0) with false
    by (symmetry; apply Z.ltb_ge; lia).
  replace (Z.of_nat (ncols a) <? 0) with false
    by (symmetry; apply Z.ltb_ge; lia).
  cbn [andb]. rewrite Hlen.
  replace (Z.of_nat (nrows a) * Z.of_nat (ncols a)
           =? Z.of_nat (nrows a * ncols a)) with true
    by (symmetry; apply Z.eqb_eq; lia).
  rewrite !Nat2Z.id. f_equal. unfold tofile.
  rewrite <- Hr at 2. rewrite (split_rows_concat _ _ Hall).
  destruct a; reflexivity.
Qed.

(** A reshape to non-negative dimensions. *)
Lemma reshape_nonneg (items : list float) (height width : Z) :
  0 <= height -> 0 <= width ->
  reshape items height width
  = if height * width =? Z.of_nat (length items)
    then Ok (mk_ndarray (Z.to_nat height) (Z.to_nat width)
               (split_rows (Z.to_nat height) (Z.to_nat width) items))
    else Raise ValueError.
Proof.
  intros Hh Hw. unfold reshape.
  replace (height <? 0) with false by (symmetry; apply Z.ltb_ge; lia).
  replace (width <? 0) with false by (symmetry; apply Z.ltb_ge; lia).
  reflexivity.
Qed.

Lemma split_rows_get {A : Type} (h w : nat) (l : list A) (r c : nat) (d : A) :
  (r < h)%nat -> (c < w)%nat -> length l = (h * w)%nat ->
  nth c (nth r (split_rows h w l) []) d = nth (r * w + c) l d.
Proof.
  revert l r. induction h as [|h IH]; intros l r Hr Hc Hl; [lia|].
  cbn [split_rows]. destruct r as [|r]; cbn [nth].
  - rewrite <- (firstn_skipn w l) at 2.
    rewrite app_nth1 by (rewrite length_firstn; lia). reflexivity.
  - rewrite IH by (try rewrite length_skipn; lia).
    rewrite <- (firstn_skipn w l) at 2.
    rewrite app_nth2 by (rewrite length_firstn; lia).
    rewrite length_firstn. f_equal. lia.
Qed.

Lemma astype_float32_wf (a : ndarray) : wf a -> wf (astype_float32 a).
Proof.
  intros [Hr Hall]. unfold wf, astype_float32. cbn [nrows ncols rows].
  split; [rewrite length_map; exact Hr|].
  rewrite Forall_map. eapply Forall_impl; [|exact Hall].
  intros r Hl. rewrite length_map. exact Hl.
Qed.

Lemma insert_Forall (P : string * page -> Prop) (x : string * page)
    (l : list (string * page)) :
  P x -> Forall P l -> Forall P (insert x l).
Proof.
  intros Hx. induction 1 as [|y t Hy Ht IH]; cbn [insert].
  - repeat constructor. exact Hx.
  - destruct (String.leb (fst x) (fst y)); repeat constructor; assumption.
Qed.

Lemma sorted_Forall (P : string * page -> Prop) (l : list (string * page)) :
  Forall P l -> Forall P (sorted l).
Proof.
  induction 1 as [|x t Hx _ IH]; [constructor|].
  cbn [sorted fold_right]. apply insert_Forall; assumption.
Qed.

Lemma load_wf (path : string) (p : page) (t : Tile) :
  wf (asarray p) -> load path p = Ok t -> wf (data t).
Proof.
  intros Hwf. unfold load.
  destruct (tags_get (tags p) "ModelPixelScaleTag") as [scale|];
    [|discriminate].
  destruct (tags_get (tags p) "ModelTiepointTag") as [tie|]; [|discriminate].
  intros H.
  apply bind_ok in H. destruct H as (a & _ & H).
  apply bind_ok in H. destruct H as (b & _ & H).
  apply bind_ok in H. destruct H as (c & _ & H).
  apply bind_ok in H. destruct H as (d & _ & H).
  injection H as <-. cbn [data]. apply astype_float32_wf. exact Hwf.
Qed.

Lemma load_tiles_wf (paths : list (string * page)) (tiles : list Tile) :
  Forall (fun f => wf (asarray (snd f))) paths ->
  load_tiles paths = Ok tiles ->
  Forall (fun t => wf (data t)) tiles.
Proof.
  intros Hall H. unfold load_tiles in H.
  eapply mapM_Forall; [exact H|]. cbv beta.
  intros [path p] t Hin Hl. rewrite Forall_forall in Hall.
  exact (load_wf path p t (Hall _ Hin) Hl).
Qed.

End FileFacts.

Section HeightmapOnDisk.

Import Py Np NpFacts Heightmap HeightmapFacts Spec HeightmapFiles MeshFiles.
Import FileFacts MainFacts.

(** X15. What [build_heightmap.py] writes, [load_heightmap] reads back:
    when [main] returns for a directory of rectangular tiles, loading
    the two files it wrote raises nothing and yields the very grid and
    metadata that [main] computed from the tiles, sorted by file
    name. *)
Theorem written_heightmap_loads (cos : float -> float)
    (input_dir : list (string * page))
    (center_lat0 center_lon0 radius_miles : float)
    (files : heightmap_files) :
  Forall (fun f => wf (asarray (snd f))) input_dir ->
  HeightmapFiles.main cos input_dir center_lat0 center_lon0 radius_miles
  = Ok files ->
  exists tiles grid meta,
    load_tiles (sorted input_dir) = Ok tiles /\
    Heightmap.main cos tiles center_lat0 center_lon0 radius_miles
    = Ok (grid, meta) /\
    files = write_outputs grid meta /\
    load_heightmap files = Done (grid, meta).
Proof.
  intros Hall Hm. unfold HeightmapFiles.main in Hm.
  pose proof (sorted_Forall _ _ Hall) as Hs.
  destruct (sorted input_dir) as [|f rest] eqn:Es; [discriminate|].
  rewrite <- Es in *.
  apply bind_ok in Hm. destruct Hm as (tiles & Htiles & Hm).
  apply bind_ok in Hm. destruct Hm as ([grid meta] & Hmain & Hm).
  injection Hm as <-.
  exists tiles, grid, meta.
  split; [exact Htiles|]. split; [exact Hmain|]. split; [reflexivity|].
  pose proof (load_tiles_wf _ _ Hs Htiles) as Hwf.
  destruct (main_inv _ _ _ _ _ _ _ Hwf Hmain) as (Hwfg & Hh & Hw & _).
  unfold load_heightmap, write_outputs.
  cbn [meta_file bin_file height width].
  rewrite <- Hh, <- Hw, (reshape_tofile grid Hwfg). reflexivity.
Qed.

Lemma written_heightmap_loads_witness :
  exists files grid meta,
    HeightmapFiles.main Examples.cos_at_zero
      [("a.tif"%string,
        mk_page Examples.grid_2x2
          [("ModelTiepointTag"%string,
            [zero; zero; zero; zero; const 1; zero]);
           ("ModelPixelScaleTag"%string, [const 1; const 1; zero])])]
      zero (const 1) (const 69) = Ok files /\
    load_heightmap files = Done (grid, meta) /\
    nrows grid = 2%nat /\ ncols grid = 2%nat.
Proof.
  assert (Hrun : exists files,
            HeightmapFiles.main Examples.cos_at_zero
              [("a.tif"%string,
                mk_page Examples.grid_2x2
                  [("ModelTiepointTag"%string,
                    [zero; zero; zero; zero; const 1; zero]);
                   ("ModelPixelScaleTag"%string, [const 1; const 1; zero])])]
              zero (const 1) (const 69) = Ok files)
    by (vm_compute; eauto).
  destruct Hrun as [files Hrun].
  destruct (written_heightmap_loads Examples.cos_at_zero
              [("a.tif"%string,
                mk_page Examples.grid_2x2
                  [("ModelTiepointTag"%string,
                    [zero; zero; zero; zero; const 1; zero]);
                   ("ModelPixelScaleTag"%string, [const 1; const 1; zero])])]
              zero (const 1) (const 69) files)
    as (tiles & grid & meta & _ & Hmain & _ & Hload);
    [repeat constructor | exact Hrun |].
  exists files, grid, meta.
  split; [exact Hrun|]. split; [exact Hload|].
  vm_compute in Hrun. injection Hrun as <-.
  vm_compute in Hload. injection Hload as <- _.
  split; reflexivity.
Defined.

(** X16. [load_heightmap] needs both files: without the metadata file
    or without the binary it raises [FileNotFoundError].  With both,
    and non-negative [height] and [width] in the metadata, it returns
    exactly when the binary holds [height * width] items, and raises
    [ValueError] otherwise; the grid it returns has [height] rows and
    [width] columns and holds item [r * width + c] of the file at
    [(r, c)]. *)
Theorem load_heightmap_spec (files : heightmap_files) :
  (meta_file files = None \/ bin_file files = None ->
   load_heightmap files = Failed FileNotFoundError) /\
  forall meta items,
    meta_file files = Some meta -> bin_file files = Some items ->
    0 <= height meta -> 0 <= width meta ->
    (Z.of_nat (length items) <> height meta * width meta ->
     load_heightmap files = Failed (Exn ValueError)) /\
    (Z.of_nat (length items) = height meta * width meta ->
     exists grid,
       load_heightmap files = Done (grid, meta) /\
       wf grid /\
       Z.of_nat (nrows grid) = height meta /\
       Z.of_nat (ncols grid) = width meta /\
       tofile grid = items /\
       forall r c, (r < nrows grid)%nat -> (c < ncols grid)%nat ->
         get grid r c = nth (r * ncols grid + c) items nan).
Proof.
  split.
  - unfold load_heightmap. intros [H|H].
    + rewrite H. reflexivity.
    + rewrite H. destruct (meta_file files); reflexivity.
  - intros meta items Hmeta Hbin Hh Hw.
    unfold load_heightmap. rewrite Hmeta, Hbin.
    rewrite (reshape_nonneg items _ _ Hh Hw). split.
    + intros Hne.
      destruct (Z.eqb_spec (height meta * width meta)
                  (Z.of_nat (length items))) as [E|_]; [lia | reflexivity].
    + intros He.
      destruct (Z.eqb_spec (height meta * width meta)
                  (Z.of_nat (length items))) as [_|E]; [|lia].
      assert (Hlen : length items
                     = (Z.to_nat (height meta) * Z.to_nat (width meta))%nat)
        by nia.
      eexists. split; [reflexivity|].
      cbn [nrows ncols]. unfold wf, tofile, get. cbn [nrows ncols rows].
      split; [split; [apply split_rows_length
                     | apply split_rows_widths; exact Hlen]|].
      split; [lia|]. split; [lia|].
      split; [apply concat_split_rows; exact Hlen|].
      intros r c Hr Hc. apply split_rows_get; assumption.
Qed.

Lemma load_heightmap_spec_witness :
  load_heightmap
    (mk_heightmap_files (Some (Examples.flat_meta (const 1) 2 2))
       (Some [const 1; const 2; const 3]))
  = Failed (Exn ValueError) /\
  exists grid,
    load_heightmap
      (mk_heightmap_files (Some (Examples.flat_meta (const 1) 2 2))
         (Some [const 1; const 2; const 3; const 4]))
    = Done (grid, Examples.flat_meta (const 1) 2 2) /\
    get grid 1 0 = const 3.
Proof.
  split.
  - refine (proj1 (proj2 (load_heightmap_spec
                (mk_heightmap_files (Some (Examples.flat_meta (const 1) 2 2))
                   (Some [const 1; const 2; const 3])))
              (Examples.flat_meta (const 1) 2 2) [const 1; const 2; const 3]
              eq_refl eq_refl _ _) _); cbn; lia.
  - destruct (proj2 (proj2 (load_heightmap_spec
                (mk_heightmap_files (Some (Examples.flat_meta (const 1) 2 2))
                   (Some [const 1; const 2; const 3; const 4])))
              (Examples.flat_meta (const 1) 2 2)
              [const 1; const 2; const 3; const 4]
              eq_refl eq_refl ltac:(cbn; lia) ltac:(cbn; lia)) eq_refl)
      as (grid & Hload & _ & Hr & Hc & _ & Hget).
    exists grid. split; [exact Hload|].
    cbn in Hr, Hc. rewrite Hget by lia.
    replace (ncols grid) with 2%nat by lia. reflexivity.
Defined.

End HeightmapOnDisk.

Section MeshScript.

Import Py Np NpFacts Mesh MeshFacts Spec HeightmapFiles MeshFiles.
Import FileFacts ErrorFacts MainFacts.

(** X18. The two scripts fit together: for the grid and metadata that
    [build_heightmap.py] computes and writes, the mesh script, run
    without chunking and without downsampling, builds a single mesh
    from the grid it reads back; whenever it returns, [width] and
    [height] of the metadata are at least 2 and the vertex and face
    arrays of that mesh hold [width * height] vertices and
    [2 * (width - 1) * (height - 1)] triangles. *)
Theorem heightmap_to_mesh (cos : float -> float)
    (tiles : list Heightmap.Tile)
    (center_lat center_lon radius_miles : float)
    (grid : ndarray) (meta : Heightmap.metadata) (olat olon : float)
    (chunk_size : Z) (out : output) :
  Forall (fun t => wf (Heightmap.data t)) tiles ->
  Heightmap.main cos tiles center_lat center_lon radius_miles
  = Ok (grid, meta) ->
  chunk_size <= 0 ->
  MeshFiles.main cos (write_outputs grid meta) olat olon 1 chunk_size
  = Done out ->
  exists m,
    out = Single m /\
    create_terrain_mesh cos grid meta olat olon 1 = Ok m /\
    2 <= Heightmap.width meta /\ 2 <= Heightmap.height meta /\
    length (vertices m)
    = Z.to_nat (Heightmap.width meta * Heightmap.height meta) /\
    length (faces m)
    = Z.to_nat (2 * (Heightmap.width meta - 1) * (Heightmap.height meta - 1)).
Proof.
  intros Hall Hmain Hcs Hrun.
  destruct (main_inv _ _ _ _ _ _ _ Hall Hmain) as (Hwf & Hh & Hw & _).
  unfold MeshFiles.main, load_heightmap, write_outputs in Hrun.
  cbn [meta_file bin_file] in Hrun.
  rewrite <- Hh, <- Hw, (reshape_tofile grid Hwf) in Hrun.
  cbn [bind lift] in Hrun.
  replace (0 <? chunk_size) with false in Hrun
    by (symmetry; apply Z.ltb_ge; lia).
  destruct (create_terrain_mesh cos grid meta olat olon 1) as [m|e] eqn:Hm;
    cbn [bind lift] in Hrun; [|discriminate].
  injection Hrun as <-. exists m. split; [reflexivity|].
  split; [reflexivity|].
  destruct (create_terrain_mesh_two _ _ _ _ _ _ _ Hm) as [Hc2 Hr2].
  rewrite ChunkFacts.downsample_grid_1 in Hc2, Hr2.
  split; [lia|]. split; [lia|]. split.
  - rewrite (mesh_vertices_length _ _ _ _ _ _ _ Hm),
      ChunkFacts.downsample_grid_1. lia.
  - destruct (create_terrain_mesh_inv _ _ _ _ _ _ _ Hm)
      as (_ & _ & _ & _ & _ & Hf).
    rewrite Hf, grid_faces_length, ChunkFacts.downsample_grid_1. nia.
Qed.

Lemma heightmap_to_mesh_witness :
  exists grid meta m,
    Heightmap.main Examples.cos_at_zero
      [Examples.tile_A (const 1) (const 2) (const 3) (const 4)]
      zero (const 1) (const 69) = Ok (grid, meta) /\
    MeshFiles.main Examples.cos_at_zero (write_outputs grid meta)
      zero zero 1 0 = Done (Single m) /\
    length (vertices m) = 4%nat /\ length (faces m) = 2%nat.
Proof.
  assert (Hrun : exists grid meta m,
            Heightmap.main Examples.cos_at_zero
              [Examples.tile_A (const 1) (const 2) (const 3) (const 4)]
              zero (const 1) (const 69) = Ok (grid, meta) /\
            MeshFiles.main Examples.cos_at_zero (write_outputs grid meta)
              zero zero 1 0 = Done (Single m) /\
            Heightmap.width meta = 2 /\ Heightmap.height meta = 2).
  { do 3 eexists. split; [vm_compute; reflexivity|].
    split; [vm_compute; reflexivity|]. split; reflexivity. }
  destruct Hrun as (grid & meta & m & Hrun & Hmesh & Ew & Eh).
  destruct (heightmap_to_mesh Examples.cos_at_zero
              [Examples.tile_A (const 1) (const 2) (const 3) (const 4)]
              zero (const 1) (const 69) grid meta zero zero 0 (Single m))
    as (m' & Em & _ & _ & _ & Hv & Hf);
    [repeat constructor | exact Hrun | lia | exact Hmesh |].
  injection Em as <-.
  exists grid, meta, m. split; [exact Hrun|]. split; [exact Hmesh|].
  rewrite Ew, Eh in Hv, Hf. split; [exact Hv | exact Hf].
Defined.

End MeshScript.

(** ** Sorting the paths *)

Module SortFacts.

Import Ascii Sorted Permutation HeightmapFiles Notions.

Lemma string_compare_trans (a b c : string) :
  String.compare a b <> Gt -> String.compare b c <> Gt ->
  String.compare a c <> Gt.
Proof.
  revert b c. induction a as [|x a IH]; intros [|y b] [|z c];
    cbn [String.compare]; try congruence.
  unfold Ascii.compare.
  destruct (N.compare_spec (N_of_ascii x) (N_of_ascii y)) as [Exy|Lxy|Gxy];
    destruct (N.compare_spec (N_of_ascii y) (N_of_ascii z)) as [Eyz|Lyz|Gyz];
    destruct (N.compare_spec (N_of_ascii x) (N_of_ascii z)) as [Exz|Lxz|Gxz];
    try congruence; try lia.
  apply IH.
Qed.

Lemma string_leb_trans (a b c : string) :
  String.leb a b = true -> String.leb b c = true -> String.leb a c = true.
Proof.
  unfold String.leb. intros Hab Hbc.
  pose proof (string_compare_trans a b c) as H.
  destruct (String.compare a b); try discriminate;
    destruct (String.compare b c); try discriminate;
    destruct (String.compare a c); try reflexivity;
    exfalso; apply H; congruence.
Qed.

Lemma insert_perm (x : string * page) (l : list (string * page)) :
  Permutation (insert x l) (x :: l).
Proof.
  induction l as [|y t IH]; cbn [insert]; [reflexivity|].
  destruct (String.leb (fst x) (fst y)); [reflexivity|].
  rewrite IH. apply perm_swap.
Qed.

Lemma sorted_perm (l : list (string * page)) : Permutation (sorted l) l.
Proof.
  induction l as [|x t IH]; [reflexivity|].
  cbn [sorted fold_right]. rewrite insert_perm. constructor. exact IH.
Qed.

Lemma insert_sorted (x : string * page) (l : list (string * page)) :
  StronglySorted by_name l -> StronglySorted by_name (insert x l).
Proof.
  induction 1 as [|y t Hs IH Hy]; cbn [insert].
  - repeat constructor.
  - destruct (String.leb (fst x) (fst y)) eqn:E.
    + constructor; [constructor; assumption|].
      constructor; [exact E|].
      eapply Forall_impl; [|exact Hy]. intros z Hz.
      exact (string_leb_trans _ _ _ E Hz).
    + constructor; [exact IH|].
      assert (Hyx : by_name y x).
      { destruct (String.leb_total (fst x) (fst y)) as [H|H];
          [congruence | exact H]. }
      apply (Permutation_Forall (Permutation_sym (insert_perm x t))).
      constructor; assumption.
Qed.

Lemma sorted_sorted (l : list (string * page)) :
  StronglySorted by_name (sorted l).
Proof.
  induction l as [|x t IH]; [constructor|].
  cbn [sorted fold_right]. apply insert_sorted. exact IH.
Qed.

Lemma sorted_unique (l1 l2 : list (string * page)) :
  StronglySorted by_name l1 -> StronglySorted by_name l2 ->
  Permutation l1 l2 -> NoDup (map fst l1) -> l1 = l2.
Proof.
  intros H1. revert l2.
  induction H1 as [|x t1 Hs1 IH Hx]; intros l2 H2 Hp Hnd.
  - apply Permutation_nil in Hp. congruence.
  - destruct l2 as [|y t2];
      [apply Permutation_sym, Permutation_nil in Hp; discriminate|].
    apply StronglySorted_inv in H2. destruct H2 as [Hs2 Hy].
    inversion Hnd as [|k ks Hk Hnd']; subst k ks.
    assert (Exy : x = y).
    { assert (Hin1 : In x (y :: t2))
        by (apply (Permutation_in _ Hp); left; reflexivity).
      destruct Hin1 as [E|Hin1]; [congruence|].
      assert (Hin2 : In y (x :: t1))
        by (apply (Permutation_in _ (Permutation_sym Hp)); left; reflexivity).
      destruct Hin2 as [E|Hin2]; [exact E|].
      rewrite Forall_forall in Hx, Hy.
      pose proof (String.leb_antisym _ _ (Hx _ Hin2) (Hy _ Hin1)) as Ek.
      exfalso. apply Hk. rewrite Ek. apply in_map. exact Hin2. }
    subst y. f_equal.
    apply IH; [exact Hs2 | exact (Permutation_cons_inv Hp) | exact Hnd'].
Qed.

(** The sorted list does not depend on the order of the listing. *)
Lemma sorted_listing (l l' : list (string * page)) :
  Permutation l l' -> NoDup (map fst l) -> sorted l = sorted l'.
Proof.
  intros Hp Hnd. apply sorted_unique.
  - apply sorted_sorted.
  - apply sorted_sorted.
  - rewrite (sorted_perm l), (sorted_perm l'). exact Hp.
  - apply (Permutation_NoDup (l := map fst l)); [|exact Hnd].
    apply Permutation_map, Permutation_sym, sorted_perm.
Qed.

End SortFacts.

Section Listing.

Import Permutation Py Np Heightmap HeightmapFiles SortFacts.

(** X19. The result of [build_heightmap.py] does not depend on the
    order in which the directory lists its [*.tif] files: two listings
    of the same files, with pairwise distinct names, give the same
    files written or the same exception. *)
Theorem listing_order_irrelevant (cos : float -> float)
    (input_dir input_dir' : list (string * page))
    (center_lat0 center_lon0 radius_miles : float) :
  Permutation input_dir input_dir' ->
  NoDup (map fst input_dir) ->
  HeightmapFiles.main cos input_dir center_lat0 center_lon0 radius_miles
  = HeightmapFiles.main cos input_dir' center_lat0 center_lon0 radius_miles.
Proof.
  intros Hp Hnd. unfold HeightmapFiles.main.
  rewrite (sorted_listing _ _ Hp Hnd). reflexivity.
Qed.

Lemma listing_order_irrelevant_witness :
  HeightmapFiles.main Examples.cos_at_zero
    [("b.tif"%string, mk_page Examples.grid_2x2 []);
     ("a.tif"%string, mk_page Examples.grid_3x3 [])]
    zero zero (const 1)
  = HeightmapFiles.main Examples.cos_at_zero
      [("a.tif"%string, mk_page Examples.grid_3x3 []);
       ("b.tif"%string, mk_page Examples.grid_2x2 [])]
      zero zero (const 1).
Proof.
  apply listing_order_irrelevant.
  - apply perm_swap.
  - constructor; [|constructor; [intros []|constructor]].
    intros [H|[]]. discriminate.
Defined.

End Listing.

Module LoadFacts.

Import Py Np Heightmap HeightmapFiles.

Lemma item_ok {A : Type} (t : list A) (i : nat) (x : A) :
  item t i = Ok x <-> nth_error t i = Some x.
Proof.
  unfold item. destruct (nth_error t i); split; congruence.
Qed.

Lemma item_raise {A : Type} (t : list A) (i : nat) (e : exn) :
  item t i = Raise e -> e = IndexError /\ (length t <= i)%nat.
Proof.
  unfold item. destruct (nth_error t i) eqn:E; [discriminate|].
  intros H. injection H as <-. split; [reflexivity|].
  apply nth_error_None. exact E.
Qed.

Lemma value_item_ok (values : list float) (i : nat) (x : float) :
  value_item values i = Ok x ->
  length values <> 1%nat /\ nth_error values i = Some x.
Proof.
  unfold value_item. destruct values as [|v [|w values]];
    [| discriminate |]; intros H; apply item_ok in H;
    (split; [simpl; lia | exact H]).
Qed.

Lemma value_item_raise (values : list float) (i : nat) (e : exn) :
  value_item values i = Raise e ->
  (e = TypeError /\ length values = 1%nat) \/
  (e = IndexError /\ (length values <= i)%nat /\ length values <> 1%nat).
Proof.
  unfold value_item. destruct values as [|v [|w values]].
  - intros H. apply item_raise in H. right. simpl in *. split; [tauto|]. lia.
  - intros H. injection H as <-. left. split; reflexivity.
  - intros H. apply item_raise in H. right. simpl in *.
    split; [tauto|]. split; [tauto | lia].
Qed.

(** What [load] returns. *)
Lemma load_ok (path : string) (p : page) (t : Tile) :
  load path p = Ok t ->
  exists scale tie origin_lon0 origin_lat0 scale_lon0 scale_lat0,
    tags_get (tags p) "ModelPixelScaleTag" = Some scale /\
    tags_get (tags p) "ModelTiepointTag" = Some tie /\
    nth_error tie 3 = Some origin_lon0 /\
    nth_error tie 4 = Some origin_lat0 /\
    nth_error scale 0 = Some scale_lon0 /\
    nth_error scale 1 = Some scale_lat0 /\
    t = mk_Tile path (astype_float32 (asarray p))
          origin_lon0 origin_lat0 scale_lon0 scale_lat0.
Proof.
  unfold load.
  destruct (tags_get (tags p) "ModelPixelScaleTag") as [scale|];
    [|discriminate].
  destruct (tags_get (tags p) "ModelTiepointTag") as [tie|]; [|discriminate].
  intros H.
  apply bind_ok in H. destruct H as (a & Ha & H).
  apply bind_ok in H. destruct H as (b & Hb & H).
  apply bind_ok in H. destruct H as (c & Hc & H).
  apply bind_ok in H. destruct H as (d & Hd & H).
  injection H as <-.
  apply value_item_ok in Ha, Hb, Hc, Hd.
  exists scale, tie, a, b, c, d. repeat split; tauto.
Qed.

(** When [load] raises. *)
Lemma load_raise (path : string) (p : page) (e : exn) :
  load path p = Raise e ->
  (e = ValueError /\
   (tags_get (tags p) "ModelPixelScaleTag" = None \/
    tags_get (tags p) "ModelTiepointTag" = None)) \/
  exists scale tie,
    tags_get (tags p) "ModelPixelScaleTag" = Some scale /\
    tags_get (tags p) "ModelTiepointTag" = Some tie /\
    ((e = TypeError /\
      (length tie = 1%nat \/
       ((5 <= length tie)%nat /\ length scale = 1%nat))) \/
     (e = IndexError /\
      ((length tie < 5)%nat /\ length tie <> 1%nat \/
       ((5 <= length tie)%nat /\ length scale = 0%nat)))).
Proof.
  unfold load.
  destruct (tags_get (tags p) "ModelPixelScaleTag") as [scale|];
    [|intros H; injection H as <-; left; auto].
  destruct (tags_get (tags p) "ModelTiepointTag") as [tie|];
    [|intros H; injection H as <-; left; auto].
  intros H. right. exists scale, tie.
  split; [reflexivity|]. split; [reflexivity|].
  apply ErrorFacts.bind_raise in H. destruct H as [H|(a & Ha & H)].
  { apply value_item_raise in H.
    destruct H as [[-> Hl]|(-> & Hl & Hl')]; [left | right];
      (split; [reflexivity|]); [left; exact Hl | left; split; [lia|exact Hl']]. }
  apply ErrorFacts.bind_raise in H. destruct H as [H|(b & Hb & H)].
  { apply value_item_raise in H.
    destruct H as [[-> Hl]|(-> & Hl & Hl')]; [left | right];
      (split; [reflexivity|]); [left; exact Hl | left; split; [lia|exact Hl']]. }
  apply value_item_ok in Hb. destruct Hb as [_ Hb].
  assert (Htie : (5 <= length tie)%nat).
  { assert (4 < length tie)%nat by (apply nth_error_Some; congruence). lia. }
  apply ErrorFacts.bind_raise in H. destruct H as [H|(c & Hc & H)].
  { apply value_item_raise in H.
    destruct H as [[-> Hl]|(-> & Hl & Hl')]; [left | right];
      (split; [reflexivity|]); right; (split; [exact Htie | lia]). }
  apply ErrorFacts.bind_raise in H. destruct H as [H|(d & _ & H)];
    [|discriminate].
  apply value_item_raise in H.
  destruct H as [[-> Hl]|(-> & Hl & Hl')]; [left | right];
    (split; [reflexivity|]); right; (split; [exact Htie|]); [exact Hl|].
  apply value_item_ok in Hc. destruct Hc as [_ Hc].
  assert (0 < length scale)%nat by (apply nth_error_Some; congruence). lia.
Qed.

(** The first item on which a monadic map raises. *)
Lemma mapM_first_raise {A B : Type} (f : A -> result B) (l : list A)
    (e : exn) :
  mapM f l = Raise e ->
  exists pre x post ys,
    l = pre ++ x :: post /\ mapM f pre = Ok ys /\ f x = Raise e.
Proof.
  induction l as [|x t IH]; cbn [mapM]; intros H; [discriminate|].
  apply ErrorFacts.bind_raise in H. destruct H as [H|(y & Hy & H)].
  - exists [], x, t, []. repeat split. exact H.
  - apply ErrorFacts.bind_raise in H. destruct H as [H|(ys & _ & H)];
      [|discriminate].
    destruct (IH H) as (pre & x' & post & ys' & -> & Hpre & Hx').
    exists (x :: pre), x', post, (y :: ys'). repeat split; [|exact Hx'].
    cbn [mapM]. rewrite Hy, Hpre. reflexivity.
Qed.

End LoadFacts.

Section Loading.

Import Py Np Heightmap HeightmapFiles LoadFacts.

(** X20. [load_tiles] returns one tile per path, in the order of the
    paths: tile [i] carries path [i], the samples of its page as
    float32, the origin [tie[3]], [tie[4]] of the tiepoint tag and the
    scale [scale[0]], [scale[1]] of the pixel scale tag.  If it raises,
    every file before some file loaded and that file failed: with
    [ValueError] when one of the two tags is missing; with [TypeError]
    when the tiepoint tag holds a single value, or holds at least 5 and
    the scale tag a single one (a tag of one value is a number, which
    cannot be indexed); with [IndexError] when the tiepoint tag holds
    fewer than 5 values but not one, or holds at least 5 and the scale
    tag none. *)
Theorem load_tiles_spec (paths : list (string * page)) :
  (forall tiles, load_tiles paths = Ok tiles ->
     length tiles = length paths /\
     forall i path p, nth_error paths i = Some (path, p) ->
       exists scale tie origin_lon0 origin_lat0 scale_lon0 scale_lat0,
         tags_get (tags p) "ModelPixelScaleTag" = Some scale /\
         tags_get (tags p) "ModelTiepointTag" = Some tie /\
         nth_error tie 3 = Some origin_lon0 /\
         nth_error tie 4 = Some origin_lat0 /\
         nth_error scale 0 = Some scale_lon0 /\
         nth_error scale 1 = Some scale_lat0 /\
         nth_error tiles i
         = Some (mk_Tile path (astype_float32 (asarray p))
                   origin_lon0 origin_lat0 scale_lon0 scale_lat0)) /\
  (forall e, load_tiles paths = Raise e ->
     exists pre path p post loaded,
       paths = pre ++ (path, p) :: post /\
       load_tiles pre = Ok loaded /\
       ((e = ValueError /\
         (tags_get (tags p) "ModelPixelScaleTag" = None \/
          tags_get (tags p) "ModelTiepointTag" = None)) \/
        exists scale tie,
          tags_get (tags p) "ModelPixelScaleTag" = Some scale /\
          tags_get (tags p) "ModelTiepointTag" = Some tie /\
          ((e = TypeError /\
            (length tie = 1%nat \/
             ((5 <= length tie)%nat /\ length scale = 1%nat))) \/
           (e = IndexError /\
            ((length tie < 5)%nat /\ length tie <> 1%nat \/
             ((5 <= length tie)%nat /\ length scale = 0%nat)))))).
Proof.
  split.
  - intros tiles H. unfold load_tiles in H. split.
    + exact (mapM_length _ _ _ H).
    + intros i path p Hi.
      destruct (mapM_nth_error _ _ _ i (path, p) H Hi) as (t & Ht & Hn).
      cbv beta iota in Ht.
      destruct (load_ok _ _ _ Ht)
        as (scale & tie & a & b & c & d & H1 & H2 & H3 & H4 & H5 & H6 & ->).
      exists scale, tie, a, b, c, d. repeat split; assumption.
  - intros e H. unfold load_tiles in H.
    destruct (mapM_first_raise _ _ _ H)
      as (pre & [path p] & post & ys & -> & Hpre & Hx).
    exists pre, path, p, post, ys.
    split; [reflexivity|]. split; [exact Hpre|].
    exact (load_raise _ _ _ Hx).
Qed.

End Loading.

(** ** Where the cells of the mosaic come from *)

Module ProvenanceFacts.

Import Py Np NpFacts Heightmap HeightmapFacts Spec.

Lemma cell_step_from_tile (scale_lon0 scale_lat0 : float) (clip : box)
    (height width r c : nat) (v : float) (t : Tile) :
  let v' := cell_step scale_lon0 scale_lat0 clip (Z.of_nat height)
              (Z.of_nat width) r c v t in
  v' = v \/
  exists i j, (i < nrows (data t))%nat /\ (j < ncols (data t))%nat /\
              v' = get (data t) i j.
Proof.
  intros v'. subst v'. unfold cell_step.
  destruct (tile_window scale_lon0 scale_lat0 clip (Z.of_nat height)
              (Z.of_nat width) t) as [[w|]|e] eqn:E; auto.
  destruct (covers w r c) eqn:Hc; auto.
  destruct (tile_window_shape _ _ _ _ _ _ _ E) as (orow & ocol & _ & ->).
  destruct (source_cell_origin t height width orow ocol r c Hc)
    as (Hs & Hi & Hj).
  right. exists (Z.to_nat (Z.of_nat r - orow)), (Z.to_nat (Z.of_nat c - ocol)).
  split; [lia|]. split; [lia | exact Hs].
Qed.

Lemma cell_fold_from_tiles (scale_lon0 scale_lat0 : float) (clip : box)
    (height width r c : nat) (tiles : list Tile) (v : float) :
  let v' := fold_left (cell_step scale_lon0 scale_lat0 clip (Z.of_nat height)
                         (Z.of_nat width) r c) tiles v in
  v' = v \/
  exists t i j, In t tiles /\
                (i < nrows (data t))%nat /\ (j < ncols (data t))%nat /\
                v' = get (data t) i j.
Proof.
  revert v. induction tiles as [|t ts IH]; intros v; cbn [fold_left].
  - left. reflexivity.
  - cbv zeta in IH.
    destruct (IH (cell_step scale_lon0 scale_lat0 clip (Z.of_nat height)
                    (Z.of_nat width) r c v t))
      as [E|(t' & i & j & Hin & Hi & Hj & E)].
    + rewrite E.
      destruct (cell_step_from_tile scale_lon0 scale_lat0 clip height width
                  r c v t) as [E'|(i & j & Hi & Hj & E')].
      * left. exact E'.
      * right. exists t, i, j. split; [left; reflexivity|]. auto.
    + right. exists t', i, j. split; [right; exact Hin|]. auto.
Qed.

End ProvenanceFacts.

Section Provenance.

Import Py Np NpFacts Heightmap HeightmapFacts Spec ProvenanceFacts MainFacts.

(** X21. The mosaic holds nothing but tile samples: every cell of the
    grid that [main] returns is NaN or equal to a sample of one of the
    tiles.  No value is interpolated, averaged or converted. *)
Theorem cells_are_tile_samples (cos : float -> float) (tiles : list Tile)
    (center_lat0 center_lon0 radius_miles : float) (grid : ndarray)
    (meta : metadata) (r c : nat) :
  Forall (fun t => wf (data t)) tiles ->
  main cos tiles center_lat0 center_lon0 radius_miles = Ok (grid, meta) ->
  (r < nrows grid)%nat -> (c < ncols grid)%nat ->
  get grid r c = nan \/
  exists t i j,
    In t tiles /\ (i < nrows (data t))%nat /\ (j < ncols (data t))%nat /\
    get grid r c = get (data t) i j.
Proof.
  intros Hall Hm Hr Hc. unfold main in Hm.
  destruct tiles as [|t0 rest] eqn:Et; [discriminate|]. rewrite <- Et in *.
  apply bind_ok in Hm. destruct Hm as (u & _ & Hm).
  apply bind_ok in Hm. destruct Hm as (clip & _ & Hm).
  apply bind_ok in Hm. destruct Hm as ([[g h] w] & Hcomp & Hm).
  destruct clip as [[[min_lon min_lat] max_lon] max_lat].
  injection Hm as <- _.
  destruct (composite_spec _ _ _ _ _ Hall Hcomp)
    as (t0' & rest' & _ & _ & _ & _ & Hh & Hw & _ & Hget).
  rewrite (Hget r c Hr Hc), <- Hh, <- Hw.
  apply cell_fold_from_tiles.
Qed.

Lemma cells_are_tile_samples_witness :
  exists grid meta,
    main Examples.cos_at_zero
      [Examples.tile_A (const 1) (const 2) (const 3) (const 4)]
      zero (const 1) (const 69) = Ok (grid, meta) /\
    (get grid 0 0 = nan \/
     exists t i j,
       In t [Examples.tile_A (const 1) (const 2) (const 3) (const 4)] /\
       (i < nrows (data t))%nat /\ (j < ncols (data t))%nat /\
       get grid 0 0 = get (data t) i j).
Proof.
  assert (Hrun : exists grid meta,
            main Examples.cos_at_zero
              [Examples.tile_A (const 1) (const 2) (const 3) (const 4)]
              zero (const 1) (const 69) = Ok (grid, meta) /\
            nrows grid = 2%nat /\ ncols grid = 2%nat)
    by (vm_compute; eauto).
  destruct Hrun as (grid & meta & Hrun & Hr & Hc).
  exists grid, meta. split; [exact Hrun|].
  apply (cells_are_tile_samples Examples.cos_at_zero
           [Examples.tile_A (const 1) (const 2) (const 3) (const 4)]
           zero (const 1) (const 69) grid meta 0 0);
    [repeat constructor | exact Hrun | lia | lia].
Defined.

End Provenance.

Section Orphans.

Import Py Np Mesh MeshFacts Spec.

(** X22. In a mesh of at least two rows and two columns every vertex
    is a corner of some triangle: no vertex is left unreferenced. *)
Theorem every_vertex_in_a_face (cos : float -> float) (grid : ndarray)
    (meta : Heightmap.metadata) (olat olon : float) (d : Z) (m : mesh)
    (r c : nat) :
  let W := ncols (downsample_grid grid d) in
  let H := nrows (downsample_grid grid d) in
  create_terrain_mesh cos grid meta olat olon d = Ok m ->
  (2 <= W)%nat -> (2 <= H)%nat -> (r < H)%nat -> (c < W)%nat ->
  exists v0 v1 v2,
    In (v0, v1, v2) (faces m) /\
    (v0 = Z.of_nat (r * W + c) \/ v1 = Z.of_nat (r * W + c) \/
     v2 = Z.of_nat (r * W + c)).
Proof.
  intros W H Hm HW HH Hr Hc.
  destruct (create_terrain_mesh_inv _ _ _ _ _ _ _ Hm)
    as (_ & _ & _ & _ & _ & Hf).
  fold H W in Hf. rewrite Hf.
  set (qr := if (r <? H - 1)%nat then r else (r - 1)%nat).
  set (qc := if (c <? W - 1)%nat then c else (c - 1)%nat).
  assert (Hqr : (qr < H - 1)%nat)
    by (subst qr; destruct (Nat.ltb_spec r (H - 1)); lia).
  assert (Hqc : (qc < W - 1)%nat)
    by (subst qc; destruct (Nat.ltb_spec c (W - 1)); lia).
  pose proof (grid_faces_nth H W qr qc 0 Hqr Hqc ltac:(lia)) as F0.
  pose proof (grid_faces_nth H W qr qc 1 Hqr Hqc ltac:(lia)) as F1.
  cbn [make_faces nth_error] in F0, F1.
  apply nth_error_In in F0, F1.
  subst qr qc.
  destruct (Nat.ltb_spec r (H - 1)) as [Lr|Lr];
    destruct (Nat.ltb_spec c (W - 1)) as [Lc|Lc].
  - do 3 eexists. split; [exact F0|]. left. lia.
  - do 3 eexists. split; [exact F0|]. right. right. nia.
  - do 3 eexists. split; [exact F0|]. right. left. nia.
  - do 3 eexists. split; [exact F1|]. right. right. nia.
Qed.

Lemma every_vertex_in_a_face_witness :
  exists m v0 v1 v2,
    create_terrain_mesh Examples.cos_at_zero Examples.grid_2x2
      (Examples.flat_meta (const 1) 2 2) zero zero 1 = Ok m /\
    In (v0, v1, v2) (faces m) /\ (v0 = 3 \/ v1 = 3 \/ v2 = 3).
Proof.
  assert (Hrun : exists m,
            create_terrain_mesh Examples.cos_at_zero Examples.grid_2x2
              (Examples.flat_meta (const 1) 2 2) zero zero 1 = Ok m)
    by (vm_compute; eauto).
  destruct Hrun as [m Hm].
  destruct (every_vertex_in_a_face Examples.cos_at_zero Examples.grid_2x2
              (Examples.flat_meta (const 1) 2 2) zero zero 1 m 1 1 Hm)
    as (v0 & v1 & v2 & Hin & Hv); try (vm_compute; lia).
  exists m, v0, v1, v2. split; [exact Hm|]. split; [exact Hin | exact Hv].
Defined.

End Orphans.

(** ** Which exceptions the mosaic can raise *)

Module HeightmapErrorFacts.

Import Py Np NpFacts Heightmap HeightmapFacts Spec ErrorFacts Notions.

Lemma foldM_raise {A S : Type} (f : S -> A -> result S) (l : list A) (s : S)
    (e : exn) :
  foldM f l s = Raise e -> exists x s', In x l /\ f s' x = Raise e.
Proof.
  revert s. induction l as [|x t IH]; intros s; cbn [foldM];
    [discriminate|].
  intros H. apply bind_raise in H. destruct H as [H|(s1 & _ & H)].
  - exists x, s. split; [left; reflexivity | exact H].
  - destruct (IH _ H) as (x' & s' & Hin & Hx).
    exists x', s'. split; [right; exact Hin | exact Hx].
Qed.

Lemma bounds_raise (t : Tile) (e : exn) :
  bounds t = Raise e -> e = OverflowError.
Proof.
  unfold bounds. intros H.
  apply bind_raise in H. destruct H as [H|(w & _ & H)];
    [exact (int_mul_raise _ _ _ H)|].
  apply bind_raise in H. destruct H as [H|(h & _ & H)];
    [exact (int_mul_raise _ _ _ H) | discriminate].
Qed.

Lemma min_list_raise (l : list float) (e : exn) :
  min_list l = Raise e -> l = [].
Proof. destruct l; [reflexivity | discriminate]. Qed.

Lemma max_list_raise (l : list float) (e : exn) :
  max_list l = Raise e -> l = [].
Proof. destruct l; [reflexivity | discriminate]. Qed.

Lemma compute_union_bounds_raise (tiles : list Tile) (e : exn) :
  tiles <> [] -> compute_union_bounds tiles = Raise e -> e = OverflowError.
Proof.
  intros Hne H. unfold compute_union_bounds in H.
  apply bind_raise in H. destruct H as [H|(bs & Hbs & H)].
  { apply mapM_raise in H. destruct H as (t & _ & H).
    exact (bounds_raise _ _ H). }
  assert (Hbne : bs <> []).
  { apply mapM_length in Hbs. destruct bs; [|discriminate].
    destruct tiles; [congruence | discriminate]. }
  exfalso.
  apply bind_raise in H. destruct H as [H|(m0 & _ & H)].
  { apply min_list_raise in H. destruct bs; [congruence | discriminate]. }
  apply bind_raise in H. destruct H as [H|(m1 & _ & H)].
  { apply min_list_raise in H. destruct bs; [congruence | discriminate]. }
  apply bind_raise in H. destruct H as [H|(m2 & _ & H)].
  { apply max_list_raise in H. destruct bs; [congruence | discriminate]. }
  apply bind_raise in H. destruct H as [H|(m3 & _ & H)];
    [|discriminate].
  apply max_list_raise in H. destruct bs; [congruence | discriminate].
Qed.

Lemma div_raise (x y : float) (e : exn) :
  div x y = Raise e -> e = ZeroDivisionError /\ iszero y = true.
Proof.
  unfold div. destruct (iszero y); [|discriminate].
  intros H. injection H as <-. split; reflexivity.
Qed.

Lemma ceil_raise (x : float) (e : exn) :
  ceil x = Raise e -> e = ValueError \/ e = OverflowError.
Proof.
  destruct x as [s|s| |s m ex]; cbn [ceil]; try destruct ex;
    intros H; try discriminate; injection H as <-; auto.
Qed.

Lemma round_raise (x : float) (e : exn) :
  round x = Raise e -> e = ValueError \/ e = OverflowError.
Proof.
  destruct x as [s|s| |s m ex]; cbn [round]; try destruct ex;
    intros H; try discriminate; injection H as <-; auto.
Qed.

Lemma clamp_bounds_raise (cos : float -> float) (b : box)
    (center_lat0 center_lon0 radius_miles : float) (e : exn) :
  clamp_bounds cos b center_lat0 center_lon0 radius_miles = Raise e ->
  (e = ZeroDivisionError /\
   iszero (mul c69 (cos (radians center_lat0))) = true) \/
  value_or_overflow e.
Proof.
  destruct b as [[[b0 b1] b2] b3]. unfold clamp_bounds. intros H.
  apply bind_raise in H. destruct H as [H|(dlat & _ & H)].
  { unfold clip_dlat in H. apply div_raise in H. destruct H as [_ H].
    vm_compute in H. discriminate. }
  apply bind_raise in H. destruct H as [H|(dlon & _ & H)]; [|discriminate].
  unfold clip_dlon, math_cos in H.
  destruct (isinf (radians center_lat0)); cbn [bind] in H.
  - injection H as <-. right. left. reflexivity.
  - apply div_raise in H. left. exact H.
Qed.

Lemma grid_size_raise (scale_lon0 scale_lat0 : float) (clip : box) (e : exn) :
  grid_size scale_lon0 scale_lat0 clip = Raise e ->
  (e = ZeroDivisionError /\
   (iszero scale_lon0 = true \/ iszero scale_lat0 = true)) \/
  value_or_overflow e.
Proof.
  destruct clip as [[[a b] c] d]. unfold grid_size. intros H.
  apply bind_raise in H. destruct H as [H|(qw & _ & H)].
  { apply div_raise in H. destruct H. auto. }
  apply bind_raise in H. destruct H as [H|(w & _ & H)].
  { right. exact (ceil_raise _ _ H). }
  apply bind_raise in H. destruct H as [H|(qh & _ & H)].
  { apply div_raise in H. destruct H. auto. }
  apply bind_raise in H. destruct H as [H|(h & _ & H)]; [|discriminate].
  right. exact (ceil_raise _ _ H).
Qed.

Lemma tile_origin_raise (scale_lon0 scale_lat0 : float) (clip : box)
    (t : Tile) (e : exn) :
  tile_origin scale_lon0 scale_lat0 clip t = Raise e ->
  (e = ZeroDivisionError /\
   (iszero scale_lon0 = true \/ iszero scale_lat0 = true)) \/
  value_or_overflow e.
Proof.
  destruct clip as [[[a b] c] d]. unfold tile_origin. intros H.
  apply bind_raise in H. destruct H as [H|([[[ta tb] tc] td] & _ & H)].
  { right. right. exact (bounds_raise _ _ H). }
  cbv zeta iota beta in H.
  destruct (ltb tc a || gtb ta c); [discriminate|].
  destruct (ltb td b || gtb tb d); [discriminate|].
  apply bind_raise in H. destruct H as [H|(qc & _ & H)].
  { apply div_raise in H. destruct H. auto. }
  apply bind_raise in H. destruct H as [H|(oc & _ & H)].
  { right. exact (round_raise _ _ H). }
  apply bind_raise in H. destruct H as [H|(qr & _ & H)].
  { apply div_raise in H. destruct H. auto. }
  apply bind_raise in H. destruct H as [H|(orow & _ & H)]; [|discriminate].
  right. exact (round_raise _ _ H).
Qed.

Lemma setitem_slice2_raise (dst : ndarray) (rs re cs ce : Z) (src : ndarray)
    (e : exn) :
  setitem_slice2 dst rs re cs ce src = Raise e -> e = ValueError.
Proof.
  unfold setitem_slice2.
  destruct (slice_range (nrows dst) rs re) as [r0 rl].
  destruct (slice_range (ncols dst) cs ce) as [c0 cl].
  destruct (broadcastable _ rl && broadcastable _ cl); congruence.
Qed.

Lemma composite_tile_raise (scale_lon0 scale_lat0 : float) (clip : box)
    (height width : Z) (grid : ndarray) (t : Tile) (e : exn) :
  composite_tile scale_lon0 scale_lat0 clip height width grid t = Raise e ->
  (e = ZeroDivisionError /\
   (iszero scale_lon0 = true \/ iszero scale_lat0 = true)) \/
  value_or_overflow e.
Proof.
  unfold composite_tile, tile_window. intros H.
  apply bind_raise in H. destruct H as [H|(ow & _ & H)].
  - apply bind_raise in H. destruct H as [H|(o & _ & H)].
    + exact (tile_origin_raise _ _ _ _ _ H).
    + destruct o as [[orow ocol]|]; discriminate.
  - destruct ow as [w|]; [|discriminate].
    right. left. exact (setitem_slice2_raise _ _ _ _ _ _ _ H).
Qed.

Lemma full_raise (h w : Z) (fill : float) (e : exn) :
  full h w fill = Raise e -> e = ValueError.
Proof.
  unfold full. destruct ((h <? 0) || (w <? 0)); congruence.
Qed.

Lemma composite_raise (t0 : Tile) (rest : list Tile) (clip : box) (e : exn) :
  composite (t0 :: rest) clip = Raise e ->
  (e = ZeroDivisionError /\
   (iszero (scale_lon t0) = true \/ iszero (scale_lat t0) = true)) \/
  value_or_overflow e.
Proof.
  unfold composite. intros H.
  apply bind_raise in H. destruct H as [H|([h w] & _ & H)].
  { exact (grid_size_raise _ _ _ _ H). }
  apply bind_raise in H. destruct H as [H|(g0 & _ & H)].
  { right. left. exact (full_raise _ _ _ _ H). }
  apply bind_raise in H. destruct H as [H|(g & _ & H)]; [|discriminate].
  apply foldM_raise in H. destruct H as (t & g' & _ & H).
  exact (composite_tile_raise _ _ _ _ _ _ _ _ H).
Qed.

End HeightmapErrorFacts.

Section HeightmapErrors.

Import Py Np NpFacts Heightmap HeightmapFacts Spec ErrorFacts.
Import HeightmapErrorFacts.

(** X23. The exceptions of [main] of [build_heightmap.py], from the
    loaded tiles on: [SystemExit] exactly when there is no tile;
    [ZeroDivisionError] only when the longitude or latitude scale of
    the first tile is zero, or [69.0 * cos (radians center_lat)] is
    zero; anything else is a [ValueError] or an [OverflowError]. *)
Theorem heightmap_main_exceptions (cos : float -> float)
    (tiles : list Tile) (center_lat0 center_lon0 radius_miles : float) :
  (main cos tiles center_lat0 center_lon0 radius_miles = Raise SystemExit
   <-> tiles = []) /\
  forall e,
    main cos tiles center_lat0 center_lon0 radius_miles = Raise e ->
    (e = SystemExit /\ tiles = []) \/
    (e = ZeroDivisionError /\
     exists t0 rest,
       tiles = t0 :: rest /\
       (iszero (scale_lon t0) = true \/ iszero (scale_lat t0) = true \/
        iszero (mul c69 (cos (radians center_lat0))) = true)) \/
    e = ValueError \/ e = OverflowError.
Proof.
  assert (Hall : forall e,
    main cos tiles center_lat0 center_lon0 radius_miles = Raise e ->
    (e = SystemExit /\ tiles = []) \/
    (e = ZeroDivisionError /\
     exists t0 rest,
       tiles = t0 :: rest /\
       (iszero (scale_lon t0) = true \/ iszero (scale_lat t0) = true \/
        iszero (mul c69 (cos (radians center_lat0))) = true)) \/
    e = ValueError \/ e = OverflowError).
  { intros e H. unfold main in H.
    destruct tiles as [|t0 rest] eqn:Et.
    { injection H as <-. left. split; reflexivity. }
    right.
    apply bind_raise in H. destruct H as [H|(u & _ & H)].
    { apply compute_union_bounds_raise in H; [auto | discriminate]. }
    apply bind_raise in H. destruct H as [H|(clip & _ & H)].
    { apply clamp_bounds_raise in H.
      destruct H as [[-> Hz]|[-> | ->]]; eauto 8. }
    apply bind_raise in H. destruct H as [H|([[g h] w] & _ & H)].
    { apply composite_raise in H.
      destruct H as [[-> [Hz|Hz]]|[-> | ->]]; eauto 8. }
    destruct clip as [[[a b] c] d]. discriminate. }
  split; [|exact Hall].
  split.
  - intros H. destruct (Hall _ H) as [[_ E]|[[E _]|[E|E]]];
      [exact E | discriminate | discriminate | discriminate].
  - intros ->. reflexivity.
Qed.

End HeightmapErrors.

Module ClampFacts.

Import Py Spec OrderFacts.

Lemma leb_not_ltb (x y : float) : leb x y = true -> ltb y x = false.
Proof.
  unfold leb, ltb, SFleb, SFltb. rewrite (SFcompare_antisym x y).
  destruct (SFcompare x y) as [[| |]|]; cbn; congruence.
Qed.

Lemma max_keeps (a b : float) : leb b a = true -> max a b = a.
Proof.
  intros H. unfold max, gtb. fold (ltb a b).
  rewrite (leb_not_ltb _ _ H). reflexivity.
Qed.

Lemma min_keeps (a b : float) : leb a b = true -> min a b = a.
Proof.
  intros H. unfold min. rewrite (leb_not_ltb _ _ H). reflexivity.
Qed.

End ClampFacts.

Section LargeRadius.

Import Py Heightmap Spec OrderFacts ClampFacts.

(** X24. A radius large enough leaves the box as it is: when the
    window [center - d, center + d] contains the input box,
    [clamp_bounds] returns the input box unchanged. *)
Theorem clamp_bounds_large_radius (cos : float -> float)
    (b0 b1 b2 b3 center_lat0 center_lon0 radius_miles dlat dlon : float) :
  clip_dlat radius_miles = Ok dlat ->
  clip_dlon cos center_lat0 radius_miles = Ok dlon ->
  leb (sub center_lon0 dlon) b0 = true ->
  leb b2 (add center_lon0 dlon) = true ->
  leb (sub center_lat0 dlat) b1 = true ->
  leb b3 (add center_lat0 dlat) = true ->
  clamp_bounds cos (b0, b1, b2, b3) center_lat0 center_lon0 radius_miles
  = Ok (b0, b1, b2, b3).
Proof.
  intros Hdlat Hdlon H0 H2 H1 H3. unfold clamp_bounds.
  rewrite Hdlat, Hdlon. cbn [bind].
  rewrite (max_keeps _ _ H0), (min_keeps _ _ H2),
    (max_keeps _ _ H1), (min_keeps _ _ H3).
  reflexivity.
Qed.

Lemma clamp_bounds_large_radius_witness :
  clamp_bounds Examples.cos_at_zero Examples.union_AB zero (const 1)
    (const 690)
  = Ok Examples.union_AB.
Proof.
  apply (clamp_bounds_large_radius Examples.cos_at_zero zero (const (-1))
           (literal 25 1) (const 1) zero (const 1) (const 690)
           (const 10) (const 10)); vm_compute; reflexivity.
Defined.

End LargeRadius.

Section ChunkHeights.

Import Py Np NpFacts Mesh MeshFacts ChunkFacts CeilFacts SeamFacts Spec.
Import ManifestFacts ChunkOkFacts.

(** X25. Without downsampling, chunking changes no elevation: the
    vertex of chunk [(chunk_col, chunk_row)] at its local cell [(i, j)]
    has exactly the Y coordinate of the vertex of the single mesh at
    cell [(chunk_row * chunk_size + i, chunk_col * chunk_size + j)]. *)
Theorem chunk_heights_match_single_mesh (cos : float -> float)
    (grid : ndarray) (meta : Heightmap.metadata) (olat olon : float)
    (cs : Z) (prefix : string) (man : manifest) (meshes : list mesh)
    (single : mesh) (chunk_row chunk_col i j : nat) :
  let H := Z.of_nat (nrows grid) in
  let W := Z.of_nat (ncols grid) in
  let cx := Z.to_nat (chunks_x man) in
  let cz := Z.to_nat (chunks_z man) in
  let rs := Z.to_nat (fst (chunk_rows cs H chunk_row)) in
  let c0 := Z.to_nat (fst (chunk_cols cs W chunk_col)) in
  let ch :=
    Z.to_nat (snd (chunk_rows cs H chunk_row)
              - fst (chunk_rows cs H chunk_row)) in
  let cw :=
    Z.to_nat (snd (chunk_cols cs W chunk_col)
              - fst (chunk_cols cs W chunk_col)) in
  wf grid -> 1 <= cs < 2 ^ 53 -> W < 2 ^ 53 -> H < 2 ^ 53 ->
  create_chunked_terrain cos grid meta olat olon cs 1 prefix
  = Ok (man, meshes) ->
  create_terrain_mesh cos grid meta olat olon 1 = Ok single ->
  (chunk_row < cz)%nat -> (chunk_col < cx)%nat ->
  (i < ch)%nat -> (j < cw)%nat ->
  exists m x y z x' z',
    nth_error meshes (chunk_row * cx + chunk_col) = Some m /\
    nth_error (vertices m) (i * cw + j) = Some (x, y, z) /\
    nth_error (vertices single) ((rs + i) * ncols grid + (c0 + j))
    = Some (x', y, z').
Proof.
  intros H W cx cz rs c0 ch cw Hwf Hcs HW HH Hrun Hsingle Hr Hc Hi Hj.
  destruct (create_chunked_terrain_inv _ _ _ _ _ _ _ _ _ Hrun)
    as (qx & qz & chunks & Hqx & Hcx & Hqz & Hcz & _ & Hchunks & _ & Hmeshes).
  assert (Ecx : chunks_x man = (W + cs - 1) / cs).
  { pose proof (ceil_int_truediv W cs ltac:(subst W; lia) ltac:(lia)) as Hq.
    fold W in Hqx. rewrite Hqx in Hq. cbn [bind] in Hq. rewrite Hcx in Hq.
    injection Hq as Hq. exact Hq. }
  assert (Ecz : chunks_z man = (H + cs - 1) / cs).
  { pose proof (ceil_int_truediv H cs ltac:(subst H; lia) ltac:(lia)) as Hq.
    fold H in Hqz. rewrite Hqz in Hq. cbn [bind] in Hq. rewrite Hcz in Hq.
    injection Hq as Hq. exact Hq. }
  destruct (mapM_grid _ _ _ _ Hchunks) as [_ Hnth]. fold cx cz in Hnth.
  destruct (Hnth chunk_row chunk_col Hr Hc) as ([m e] & Hmk & Hn).
  assert (Hrs : Z.of_nat chunk_row * cs < H)
    by (apply chunk_count_start; [subst H; lia | lia |];
        rewrite <- Ecz; exact Hr).
  assert (Hc0 : Z.of_nat chunk_col * cs < W)
    by (apply chunk_count_start; [subst W; lia | lia |];
        rewrite <- Ecx; exact Hc).
  unfold chunk_rows, chunk_cols in rs, c0, ch, cw.
  cbn [fst snd] in rs, c0, ch, cw.
  pose proof (chunk_vertex cos grid meta olat olon cs prefix chunk_row
                chunk_col m e i j Hwf ltac:(lia) Hmk
                ltac:(fold H; lia) ltac:(fold W; lia) Hi Hj) as Hv.
  cbv zeta in Hv. fold H W in Hv. fold cw rs c0 in Hv.
  assert (Hri : (rs + i < nrows grid)%nat) by (subst rs ch H; lia).
  assert (Hcj : (c0 + j < ncols grid)%nat) by (subst c0 cw W; lia).
  destruct (mesh_vertex_at _ _ _ _ _ _ _ (rs + i)%nat (c0 + j)%nat Hsingle)
    as (ps & v & _ & Hmv & Hsv);
    [rewrite downsample_grid_1; exact Hri
    | rewrite downsample_grid_1; exact Hcj |].
  rewrite downsample_grid_1 in Hmv, Hsv.
  apply make_vertex_inv in Hmv. subst v.
  unfold vertex_to_float32 in Hv, Hsv.
  do 6 eexists.
  split; [rewrite Hmeshes, nth_error_map, Hn; reflexivity|].
  split; [exact Hv | exact Hsv].
Qed.

Lemma chunk_heights_match_single_mesh_witness :
  exists man meshes single m x y z x' z',
    create_chunked_terrain Examples.cos_at_zero Examples.grid_2x4
      (Examples.flat_meta (const 1) 4 2) zero zero 2 1 "terrain"
    = Ok (man, meshes) /\
    create_terrain_mesh Examples.cos_at_zero Examples.grid_2x4
      (Examples.flat_meta (const 1) 4 2) zero zero 1 = Ok single /\
    nth_error meshes 1 = Some m /\
    nth_error (vertices m) 3 = Some (x, y, z) /\
    nth_error (vertices single) 7 = Some (x', y, z').
Proof.
  assert (Hrun : exists man meshes single,
            create_chunked_terrain Examples.cos_at_zero Examples.grid_2x4
              (Examples.flat_meta (const 1) 4 2) zero zero 2 1 "terrain"
            = Ok (man, meshes) /\
            create_terrain_mesh Examples.cos_at_zero Examples.grid_2x4
              (Examples.flat_meta (const 1) 4 2) zero zero 1 = Ok single /\
            chunks_x man = 2 /\ chunks_z man = 1)
    by (vm_compute; do 3 eexists; repeat split).
  destruct Hrun as (man & meshes & single & Hrun & Hsingle & Ex & Ez).
  destruct (chunk_heights_match_single_mesh Examples.cos_at_zero
              Examples.grid_2x4 (Examples.flat_meta (const 1) 4 2) zero zero
              2 "terrain" man meshes single 0 1 1 1)
    as (m & x & y & z & x' & z' & Hm & Hv & Hs);
    [repeat constructor | split; [lia | reflexivity] | reflexivity
    | reflexivity | exact Hrun | exact Hsingle
    | rewrite Ez; vm_compute; lia | rewrite Ex; vm_compute; lia
    | vm_compute; lia | vm_compute; lia |].
  rewrite Ex in Hm.
  exists man, meshes, single, m, x, y, z, x', z'.
  split; [exact Hrun|]. split; [exact Hsingle|].
  split; [exact Hm|]. split; [exact Hv | exact Hs].
Defined.

End ChunkHeights.
